(** * kcp-go: the stream layer of [stream.go]

    A shallow embedding of [UDPStream]: the stream control protocol
    (PSH / SYN / FIN / HRT / RST on top of the ARQ engine), the blocking
    Read / Write calls with their [select] statements, Close, CloseWrite,
    Dial, and the multi-tunnel dispatcher ([parallelTun], [output],
    [flush]).

    Go values are modelled as follows.
    - [[]byte] and [string] are [list byte]; a slice expression that Go
      would reject at run time makes the call panic ([Panicked]).
    - [int], [uint32], [uint64] are [Z]; where the source computes in an
      unsigned type the wrap-around is written out.
    - [time.Time] is the number of nanoseconds since Go's zero instant, so
      [IsZero] is a comparison with [0]; [time.Duration] is nanoseconds.
    - a [chan struct{}] that is only ever closed is a [bool] (closed or
      not); a [chan struct{}] of capacity one is a [bool] (slot full or
      not); a timer channel is the instant at which it fires.
    - a [sync.Once] is a [bool] (already done or not).
    - the mutex is not modelled: every critical section is one atomic
      step, and other goroutines run only while a call is parked in a
      blocking [select] (see [wake]).

    Logging is left out.  The constructor, the setters, the updater
    goroutine and [input] are not part of the embedding; what the
    constructor establishes is [stream_ok]. *)

From Stdlib Require Import List ZArith Bool Lia.
From Stdlib Require Import Strings.Byte.
Import ListNotations.
Open Scope Z_scope.

Set Implicit Arguments.

(** ** Go slices *)

Module GoSlice.

Definition len {A} (l : list A) : Z := Z.of_nat (length l).

(** [l[:n]] on a slice whose capacity is its length. *)
Definition slice_to {A} (n : Z) (l : list A) : option (list A) :=
  if (0 <=? n) && (n <=? len l) then Some (firstn (Z.to_nat n) l) else None.

(** [l[n:]]. *)
Definition slice_from {A} (n : Z) (l : list A) : option (list A) :=
  if (0 <=? n) && (n <=? len l) then Some (skipn (Z.to_nat n) l) else None.

(** [l[i]]. *)
Definition index {A} (i : Z) (l : list A) : option A :=
  if 0 <=? i then nth_error l (Z.to_nat i) else None.

(** The destination after [copy(dst, src)]. *)
Definition copy {A} (dst src : list A) : list A :=
  firstn (length dst) src ++ skipn (length src) dst.

(** The value returned by [copy(dst, src)]. *)
Definition copied {A} (dst src : list A) : Z := Z.min (len dst) (len src).

(** [l[i] = x]. *)
Definition store {A} (i : Z) (x : A) (l : list A) : option (list A) :=
  if (0 <=? i) && (i <? len l)
  then Some (firstn (Z.to_nat i) l ++ x :: skipn (S (Z.to_nat i)) l)
  else None.

End GoSlice.
Import GoSlice.

(** ** [strings.Split] and [strings.Join] with a one-byte separator *)

Fixpoint Split (s : list byte) (sep : byte) : list (list byte) :=
  match s with
  | [] => [[]]
  | c :: s' =>
      if Byte.eqb c sep then [] :: Split s' sep
      else match Split s' sep with
           | [] => [[c]]
           | h :: t => (c :: h) :: t
           end
  end.

Fixpoint Join (elems : list (list byte)) (sep : byte) : list byte :=
  match elems with
  | [] => []
  | [e] => e
  | e :: rest => e ++ sep :: Join rest sep
  end.

Definition space : byte := " "%byte.

(** ** Errors and constants of [stream.go] *)

Inductive error : Type :=
| errTimeout | errTunnelPick | errStreamFlag | errSynInfo | errDialParam
| errRemoteStream
| ErrClosedPipe        (* io.ErrClosedPipe *)
| ErrUnexpectedEOF     (* io.ErrUnexpectedEOF *)
| EOF                  (* io.EOF *)
| errResolve.          (* whatever net.ResolveUDPAddr reports *)

Definition PSH : byte := "1"%byte.
Definition SYN : byte := "2"%byte.
Definition FIN : byte := "3"%byte.
Definition HRT : byte := "4"%byte.
Definition RST : byte := "5"%byte.

Definition second : Z := 1000000000.
Definition CleanTimeout : Z := second * 5.
Definition HeartbeatInterval : Z := second * 30.
Definition DefaultParallelXmit : Z := 5.
Definition DefaultParallelTime : Z := second * 60.

(** [gouuid.Size] *)
Definition uuid_Size : Z := 16.

Definition uint32 (x : Z) : Z := x mod 2 ^ 32.
Definition uint64 (x : Z) : Z := x mod 2 ^ 64.

(** ** What [stream.go] takes from outside *)

(** The network side: tunnels, addresses, the resolver of package [net],
    and the buffer pool [xmitBuf] of the session layer. *)
Class Net : Type := {
  UDPTunnel : Type;
  NetAddr : Type;
  (** [net.ResolveUDPAddr("udp", remote)]; [None] is an error. *)
  ResolveUDPAddr : list byte -> option NetAddr;
  (** The buffer [xmitBuf.Get()] hands out; its contents are whatever the
      last user left in it, its length is its capacity. *)
  xmitBuf : list byte
}.

(** One call of the ARQ engine's output callback: [(buf, size, xmitMax)]. *)
Definition emission : Type := (list byte * Z * Z)%type.

(** The ARQ engine [*KCP] ([kcp.go] is not part of the sources at hand):
    its state and the entry points [stream.go] calls.  Nothing is assumed
    about them. *)
Class ARQ : Type := {
  KCP : Type;
  kcp_mss : KCP -> Z;        (* uint32 *)
  kcp_snd_wnd : KCP -> Z;    (* uint32 *)
  kcp_rmt_wnd : KCP -> Z;    (* uint32 *)
  WaitSnd : KCP -> Z;
  Send : KCP -> list byte -> KCP;
  PeekSize : KCP -> Z;
  (** [Recv(buffer)]: the buffer afterwards and the new engine state. *)
  Recv : KCP -> list byte -> list byte * KCP;
  (** [flush(ackOnly)] at a given instant: the new state, the calls of the
      output callback it makes, and the interval it returns. *)
  kcp_flush : KCP -> Z -> bool -> KCP * list emission * Z;
  ReleaseTX : KCP -> KCP;
  IKCP_OVERHEAD : Z
}.

Section Stream.

Context {net : Net} {arq : ARQ}.

(** [ipv4.Message]: the buffers and the destination address. *)
Record Message : Type := mkMessage {
  Buffers : list (list byte);
  Addr : NetAddr
}.

(** The counters of [DefaultSnmp] this file updates (all [uint64]). *)
Record Snmp : Type := mkSnmp {
  BytesSent : Z;
  BytesReceived : Z;
  CurrEstab : Z
}.

(** [UDPStream].  [recvbuf] and [sendbuf] are the whole backing arrays;
    [sel] is the [Pick] method of the selector.  The fields the modelled
    functions never touch ([cleancb], the two tickers, [ackNoDelay], the
    mutex) are left out. *)
Record UDPStream : Type := mkUDPStream {
  uuid : list byte;
  sel : list (list byte) -> list UDPTunnel;
  kcp : KCP;
  tunnels : list UDPTunnel;
  remotes : list NetAddr;
  accepted : bool;
  recvbuf : list byte;
  sendbuf : list byte;
  bufptr : list byte;
  chClean : option Z;
  rd : Z;
  wd : Z;
  headerSize : Z;
  writeDelay : bool;
  recvSynOnce : bool;
  sendFinOnce : bool;
  chSendFinEvent : bool;
  recvFinOnce : bool;
  chRecvFinEvent : bool;
  rstOnce : bool;
  chRst : bool;
  closeOnce : bool;
  chClose : bool;
  chDialEvent : bool;
  chReadEvent : bool;
  chWriteEvent : bool;
  msgss : list (list Message);
  parallelXmit : Z;
  parallelTime : Z;
  parallelExpire : Z
}.

Definition set_kcp (v : KCP) (s : UDPStream) : UDPStream :=
  mkUDPStream (uuid s) (sel s) v (tunnels s) (remotes s) (accepted s)
    (recvbuf s) (sendbuf s) (bufptr s) (chClean s) (rd s) (wd s)
    (headerSize s) (writeDelay s) (recvSynOnce s) (sendFinOnce s)
    (chSendFinEvent s) (recvFinOnce s) (chRecvFinEvent s) (rstOnce s)
    (chRst s) (closeOnce s) (chClose s) (chDialEvent s) (chReadEvent s)
    (chWriteEvent s) (msgss s) (parallelXmit s) (parallelTime s)
    (parallelExpire s).

Definition set_tunnels (v : list UDPTunnel) (s : UDPStream) : UDPStream :=
  mkUDPStream (uuid s) (sel s) (kcp s) v (remotes s) (accepted s) (recvbuf s)
    (sendbuf s) (bufptr s) (chClean s) (rd s) (wd s) (headerSize s)
    (writeDelay s) (recvSynOnce s) (sendFinOnce s) (chSendFinEvent s)
    (recvFinOnce s) (chRecvFinEvent s) (rstOnce s) (chRst s) (closeOnce s)
    (chClose s) (chDialEvent s) (chReadEvent s) (chWriteEvent s) (msgss s)
    (parallelXmit s) (parallelTime s) (parallelExpire s).

Definition set_remotes (v : list NetAddr) (s : UDPStream) : UDPStream :=
  mkUDPStream (uuid s) (sel s) (kcp s) (tunnels s) v (accepted s) (recvbuf s)
    (sendbuf s) (bufptr s) (chClean s) (rd s) (wd s) (headerSize s)
    (writeDelay s) (recvSynOnce s) (sendFinOnce s) (chSendFinEvent s)
    (recvFinOnce s) (chRecvFinEvent s) (rstOnce s) (chRst s) (closeOnce s)
    (chClose s) (chDialEvent s) (chReadEvent s) (chWriteEvent s) (msgss s)
    (parallelXmit s) (parallelTime s) (parallelExpire s).

Definition set_recvbuf (v : list byte) (s : UDPStream) : UDPStream :=
  mkUDPStream (uuid s) (sel s) (kcp s) (tunnels s) (remotes s) (accepted s) v
    (sendbuf s) (bufptr s) (chClean s) (rd s) (wd s) (headerSize s)
    (writeDelay s) (recvSynOnce s) (sendFinOnce s) (chSendFinEvent s)
    (recvFinOnce s) (chRecvFinEvent s) (rstOnce s) (chRst s) (closeOnce s)
    (chClose s) (chDialEvent s) (chReadEvent s) (chWriteEvent s) (msgss s)
    (parallelXmit s) (parallelTime s) (parallelExpire s).

Definition set_sendbuf (v : list byte) (s : UDPStream) : UDPStream :=
  mkUDPStream (uuid s) (sel s) (kcp s) (tunnels s) (remotes s) (accepted s)
    (recvbuf s) v (bufptr s) (chClean s) (rd s) (wd s) (headerSize s)
    (writeDelay s) (recvSynOnce s) (sendFinOnce s) (chSendFinEvent s)
    (recvFinOnce s) (chRecvFinEvent s) (rstOnce s) (chRst s) (closeOnce s)
    (chClose s) (chDialEvent s) (chReadEvent s) (chWriteEvent s) (msgss s)
    (parallelXmit s) (parallelTime s) (parallelExpire s).

Definition set_bufptr (v : list byte) (s : UDPStream) : UDPStream :=
  mkUDPStream (uuid s) (sel s) (kcp s) (tunnels s) (remotes s) (accepted s)
    (recvbuf s) (sendbuf s) v (chClean s) (rd s) (wd s) (headerSize s)
    (writeDelay s) (recvSynOnce s) (sendFinOnce s) (chSendFinEvent s)
    (recvFinOnce s) (chRecvFinEvent s) (rstOnce s) (chRst s) (closeOnce s)
    (chClose s) (chDialEvent s) (chReadEvent s) (chWriteEvent s) (msgss s)
    (parallelXmit s) (parallelTime s) (parallelExpire s).

Definition set_chClean (v : option Z) (s : UDPStream) : UDPStream :=
  mkUDPStream (uuid s) (sel s) (kcp s) (tunnels s) (remotes s) (accepted s)
    (recvbuf s) (sendbuf s) (bufptr s) v (rd s) (wd s) (headerSize s)
    (writeDelay s) (recvSynOnce s) (sendFinOnce s) (chSendFinEvent s)
    (recvFinOnce s) (chRecvFinEvent s) (rstOnce s) (chRst s) (closeOnce s)
    (chClose s) (chDialEvent s) (chReadEvent s) (chWriteEvent s) (msgss s)
    (parallelXmit s) (parallelTime s) (parallelExpire s).

Definition set_recvSynOnce (v : bool) (s : UDPStream) : UDPStream :=
  mkUDPStream (uuid s) (sel s) (kcp s) (tunnels s) (remotes s) (accepted s)
    (recvbuf s) (sendbuf s) (bufptr s) (chClean s) (rd s) (wd s)
    (headerSize s) (writeDelay s) v (sendFinOnce s) (chSendFinEvent s)
    (recvFinOnce s) (chRecvFinEvent s) (rstOnce s) (chRst s) (closeOnce s)
    (chClose s) (chDialEvent s) (chReadEvent s) (chWriteEvent s) (msgss s)
    (parallelXmit s) (parallelTime s) (parallelExpire s).

Definition set_sendFinOnce (v : bool) (s : UDPStream) : UDPStream :=
  mkUDPStream (uuid s) (sel s) (kcp s) (tunnels s) (remotes s) (accepted s)
    (recvbuf s) (sendbuf s) (bufptr s) (chClean s) (rd s) (wd s)
    (headerSize s) (writeDelay s) (recvSynOnce s) v (chSendFinEvent s)
    (recvFinOnce s) (chRecvFinEvent s) (rstOnce s) (chRst s) (closeOnce s)
    (chClose s) (chDialEvent s) (chReadEvent s) (chWriteEvent s) (msgss s)
    (parallelXmit s) (parallelTime s) (parallelExpire s).

Definition set_chSendFinEvent (v : bool) (s : UDPStream) : UDPStream :=
  mkUDPStream (uuid s) (sel s) (kcp s) (tunnels s) (remotes s) (accepted s)
    (recvbuf s) (sendbuf s) (bufptr s) (chClean s) (rd s) (wd s)
    (headerSize s) (writeDelay s) (recvSynOnce s) (sendFinOnce s) v
    (recvFinOnce s) (chRecvFinEvent s) (rstOnce s) (chRst s) (closeOnce s)
    (chClose s) (chDialEvent s) (chReadEvent s) (chWriteEvent s) (msgss s)
    (parallelXmit s) (parallelTime s) (parallelExpire s).

Definition set_recvFinOnce (v : bool) (s : UDPStream) : UDPStream :=
  mkUDPStream (uuid s) (sel s) (kcp s) (tunnels s) (remotes s) (accepted s)
    (recvbuf s) (sendbuf s) (bufptr s) (chClean s) (rd s) (wd s)
    (headerSize s) (writeDelay s) (recvSynOnce s) (sendFinOnce s)
    (chSendFinEvent s) v (chRecvFinEvent s) (rstOnce s) (chRst s)
    (closeOnce s) (chClose s) (chDialEvent s) (chReadEvent s) (chWriteEvent s)
    (msgss s) (parallelXmit s) (parallelTime s) (parallelExpire s).

Definition set_chRecvFinEvent (v : bool) (s : UDPStream) : UDPStream :=
  mkUDPStream (uuid s) (sel s) (kcp s) (tunnels s) (remotes s) (accepted s)
    (recvbuf s) (sendbuf s) (bufptr s) (chClean s) (rd s) (wd s)
    (headerSize s) (writeDelay s) (recvSynOnce s) (sendFinOnce s)
    (chSendFinEvent s) (recvFinOnce s) v (rstOnce s) (chRst s) (closeOnce s)
    (chClose s) (chDialEvent s) (chReadEvent s) (chWriteEvent s) (msgss s)
    (parallelXmit s) (parallelTime s) (parallelExpire s).

Definition set_rstOnce (v : bool) (s : UDPStream) : UDPStream :=
  mkUDPStream (uuid s) (sel s) (kcp s) (tunnels s) (remotes s) (accepted s)
    (recvbuf s) (sendbuf s) (bufptr s) (chClean s) (rd s) (wd s)
    (headerSize s) (writeDelay s) (recvSynOnce s) (sendFinOnce s)
    (chSendFinEvent s) (recvFinOnce s) (chRecvFinEvent s) v (chRst s)
    (closeOnce s) (chClose s) (chDialEvent s) (chReadEvent s) (chWriteEvent s)
    (msgss s) (parallelXmit s) (parallelTime s) (parallelExpire s).

Definition set_chRst (v : bool) (s : UDPStream) : UDPStream :=
  mkUDPStream (uuid s) (sel s) (kcp s) (tunnels s) (remotes s) (accepted s)
    (recvbuf s) (sendbuf s) (bufptr s) (chClean s) (rd s) (wd s)
    (headerSize s) (writeDelay s) (recvSynOnce s) (sendFinOnce s)
    (chSendFinEvent s) (recvFinOnce s) (chRecvFinEvent s) (rstOnce s) v
    (closeOnce s) (chClose s) (chDialEvent s) (chReadEvent s) (chWriteEvent s)
    (msgss s) (parallelXmit s) (parallelTime s) (parallelExpire s).

Definition set_closeOnce (v : bool) (s : UDPStream) : UDPStream :=
  mkUDPStream (uuid s) (sel s) (kcp s) (tunnels s) (remotes s) (accepted s)
    (recvbuf s) (sendbuf s) (bufptr s) (chClean s) (rd s) (wd s)
    (headerSize s) (writeDelay s) (recvSynOnce s) (sendFinOnce s)
    (chSendFinEvent s) (recvFinOnce s) (chRecvFinEvent s) (rstOnce s)
    (chRst s) v (chClose s) (chDialEvent s) (chReadEvent s) (chWriteEvent s)
    (msgss s) (parallelXmit s) (parallelTime s) (parallelExpire s).

Definition set_chClose (v : bool) (s : UDPStream) : UDPStream :=
  mkUDPStream (uuid s) (sel s) (kcp s) (tunnels s) (remotes s) (accepted s)
    (recvbuf s) (sendbuf s) (bufptr s) (chClean s) (rd s) (wd s)
    (headerSize s) (writeDelay s) (recvSynOnce s) (sendFinOnce s)
    (chSendFinEvent s) (recvFinOnce s) (chRecvFinEvent s) (rstOnce s)
    (chRst s) (closeOnce s) v (chDialEvent s) (chReadEvent s) (chWriteEvent s)
    (msgss s) (parallelXmit s) (parallelTime s) (parallelExpire s).

Definition set_chDialEvent (v : bool) (s : UDPStream) : UDPStream :=
  mkUDPStream (uuid s) (sel s) (kcp s) (tunnels s) (remotes s) (accepted s)
    (recvbuf s) (sendbuf s) (bufptr s) (chClean s) (rd s) (wd s)
    (headerSize s) (writeDelay s) (recvSynOnce s) (sendFinOnce s)
    (chSendFinEvent s) (recvFinOnce s) (chRecvFinEvent s) (rstOnce s)
    (chRst s) (closeOnce s) (chClose s) v (chReadEvent s) (chWriteEvent s)
    (msgss s) (parallelXmit s) (parallelTime s) (parallelExpire s).

Definition set_chReadEvent (v : bool) (s : UDPStream) : UDPStream :=
  mkUDPStream (uuid s) (sel s) (kcp s) (tunnels s) (remotes s) (accepted s)
    (recvbuf s) (sendbuf s) (bufptr s) (chClean s) (rd s) (wd s)
    (headerSize s) (writeDelay s) (recvSynOnce s) (sendFinOnce s)
    (chSendFinEvent s) (recvFinOnce s) (chRecvFinEvent s) (rstOnce s)
    (chRst s) (closeOnce s) (chClose s) (chDialEvent s) v (chWriteEvent s)
    (msgss s) (parallelXmit s) (parallelTime s) (parallelExpire s).

Definition set_chWriteEvent (v : bool) (s : UDPStream) : UDPStream :=
  mkUDPStream (uuid s) (sel s) (kcp s) (tunnels s) (remotes s) (accepted s)
    (recvbuf s) (sendbuf s) (bufptr s) (chClean s) (rd s) (wd s)
    (headerSize s) (writeDelay s) (recvSynOnce s) (sendFinOnce s)
    (chSendFinEvent s) (recvFinOnce s) (chRecvFinEvent s) (rstOnce s)
    (chRst s) (closeOnce s) (chClose s) (chDialEvent s) (chReadEvent s) v
    (msgss s) (parallelXmit s) (parallelTime s) (parallelExpire s).

Definition set_msgss (v : list (list Message)) (s : UDPStream) : UDPStream :=
  mkUDPStream (uuid s) (sel s) (kcp s) (tunnels s) (remotes s) (accepted s)
    (recvbuf s) (sendbuf s) (bufptr s) (chClean s) (rd s) (wd s)
    (headerSize s) (writeDelay s) (recvSynOnce s) (sendFinOnce s)
    (chSendFinEvent s) (recvFinOnce s) (chRecvFinEvent s) (rstOnce s)
    (chRst s) (closeOnce s) (chClose s) (chDialEvent s) (chReadEvent s)
    (chWriteEvent s) v (parallelXmit s) (parallelTime s) (parallelExpire s).

Definition set_parallelExpire (v : Z) (s : UDPStream) : UDPStream :=
  mkUDPStream (uuid s) (sel s) (kcp s) (tunnels s) (remotes s) (accepted s)
    (recvbuf s) (sendbuf s) (bufptr s) (chClean s) (rd s) (wd s)
    (headerSize s) (writeDelay s) (recvSynOnce s) (sendFinOnce s)
    (chSendFinEvent s) (recvFinOnce s) (chRecvFinEvent s) (rstOnce s)
    (chRst s) (closeOnce s) (chClose s) (chDialEvent s) (chReadEvent s)
    (chWriteEvent s) (msgss s) (parallelXmit s) (parallelTime s) v.

(** ** The world a call runs in *)

(** What happens while a call is parked in a blocking [select]: the other
    goroutines transform the stream, time passes, and the runtime looks at
    the cases of the [select] again.  A [select] that finds a case ready at
    once is a wake-up with the identity and the same clock. *)
Record wake : Type := mkWake {
  wk_env : UDPStream -> UDPStream;
  wk_now : Z
}.

(** The stream, the wall clock, the choices the runtime makes when several
    cases of a [select] are ready, the wake-ups still to come, the batches
    handed to the tunnels so far ([tunnels[i].output(msgs)], oldest first),
    and the process-wide counters. *)
Record World : Type := mkWorld {
  strm : UDPStream;
  clock : Z;
  picks : list nat;
  wakes : list wake;
  wire : list (UDPTunnel * list Message);
  DefaultSnmp : Snmp
}.

Definition with_strm (v : UDPStream) (w : World) : World :=
  mkWorld v (clock w) (picks w) (wakes w) (wire w) (DefaultSnmp w).

Definition with_clock (v : Z) (w : World) : World :=
  mkWorld (strm w) v (picks w) (wakes w) (wire w) (DefaultSnmp w).

Definition with_picks (v : list nat) (w : World) : World :=
  mkWorld (strm w) (clock w) v (wakes w) (wire w) (DefaultSnmp w).

Definition with_wakes (v : list wake) (w : World) : World :=
  mkWorld (strm w) (clock w) (picks w) v (wire w) (DefaultSnmp w).

Definition with_wire (v : list (UDPTunnel * list Message)) (w : World) : World :=
  mkWorld (strm w) (clock w) (picks w) (wakes w) v (DefaultSnmp w).

Definition with_DefaultSnmp (v : Snmp) (w : World) : World :=
  mkWorld (strm w) (clock w) (picks w) (wakes w) (wire w) v.


(** ** Outcomes of a call *)

(** A call returns, stays parked in a [select] when the wake-ups run out,
    panics, or spins for ever. *)
Inductive res (A : Type) : Type :=
| Ret (a : A) (w : World)
| Blocked (w : World)
| Panicked
| Diverged.
Arguments Blocked {A} w.
Arguments Panicked {A}.
Arguments Diverged {A}.

Definition M (A : Type) : Type := World -> res A.

Definition ret {A} (a : A) : M A := fun w => Ret a w.

Definition bind {A B} (c : M A) (k : A -> M B) : M B :=
  fun w => match c w with
           | Ret a w' => k a w'
           | Blocked w' => Blocked w'
           | Panicked => Panicked
           | Diverged => Diverged
           end.

Notation "x <- c ;; k" := (bind c (fun x => k))
  (at level 61, c at next level, right associativity).
Notation "' pat <- c ;; k" := (bind c (fun x => match x with pat => k end))
  (at level 61, pat pattern, c at next level, right associativity).
Notation "c ;; k" := (bind c (fun _ => k))
  (at level 61, right associativity).

Definition get : M UDPStream := fun w => Ret (strm w) w.

Definition modify (f : UDPStream -> UDPStream) : M unit :=
  fun w => Ret tt (with_strm (f (strm w)) w).

Definition panic {A} : M A := fun _ => Panicked.

Definition diverge {A} : M A := fun _ => Diverged.

(** A slice operation that may be out of range. *)
Definition must {A} (o : option A) : M A :=
  match o with Some a => ret a | None => panic end.

(** [time.Now()] *)
Definition Now : M Z := fun w => Ret (clock w) w.

Definition skip : M unit := ret tt.

Fixpoint for_each {A} (l : list A) (body : A -> M unit) : M unit :=
  match l with
  | [] => skip
  | x :: l' => body x ;; for_each l' body
  end.

(** The values [i] takes in [for i := lo; i < hi; i++]. *)
Definition range (lo hi : Z) : list Z :=
  map (fun k => lo + Z.of_nat k) (seq 0 (Z.to_nat (hi - lo))).

(** [once.Do(func() { once = true })]: the value of [once] afterwards. *)
Definition once_Do (done : UDPStream -> bool)
    (set : bool -> UDPStream -> UDPStream) : M bool :=
  s <- get ;;
  if done s then ret false else modify (set true) ;; ret true.

(** [close(ch)]; closing a closed channel panics. *)
Definition close (closed : UDPStream -> bool)
    (set : bool -> UDPStream -> UDPStream) : M unit :=
  s <- get ;;
  if closed s then panic else modify (set true).

(** [atomic.AddUint64(&DefaultSnmp.X, d)] *)
Definition add_BytesSent (d : Z) : M unit := fun w =>
  let c := DefaultSnmp w in
  Ret tt (with_DefaultSnmp
            (mkSnmp (uint64 (BytesSent c + d)) (BytesReceived c) (CurrEstab c)) w).

Definition add_BytesReceived (d : Z) : M unit := fun w =>
  let c := DefaultSnmp w in
  Ret tt (with_DefaultSnmp
            (mkSnmp (BytesSent c) (uint64 (BytesReceived c + d)) (CurrEstab c)) w).

Definition add_CurrEstab (d : Z) : M unit := fun w =>
  let c := DefaultSnmp w in
  Ret tt (with_DefaultSnmp
            (mkSnmp (BytesSent c) (BytesReceived c) (uint64 (CurrEstab c + d))) w).

(** ** [select] *)

(** The cases of a [select] that can proceed, in source order. *)
Definition ready {A} (cases : list (bool * A)) : list A :=
  map snd (filter fst cases).

(** The runtime picks one of the ready cases. *)
Definition choose {A} (p : nat) (d : A) (r : list A) : A :=
  nth (p mod length (d :: r)) (d :: r) d.

Definition pop_pick (w : World) : nat * World :=
  match picks w with
  | [] => (0%nat, w)
  | p :: ps => (p, with_picks ps w)
  end.

(** A [select] with a [default] branch: [None] is the default. *)
Definition select_default {A} (cases : UDPStream -> list (bool * A))
  : M (option A) :=
  fun w => match ready (cases (strm w)) with
           | [] => Ret None w
           | d :: r => let (p, w') := pop_pick w in Ret (Some (choose p d r)) w'
           end.

Definition wake_apply (k : wake) (w : World) : World :=
  with_clock (wk_now k) (with_strm (wk_env k (strm w)) w).

(** One wake-up of a parked [select]: the case that fires, if any. *)
Definition wake_select {A} (cases : UDPStream -> Z -> list (bool * A))
    (k : wake) (w : World) : option (A * World) :=
  let w' := wake_apply k w in
  match ready (cases (strm w') (clock w')) with
  | [] => None
  | d :: r => let (p, w'') := pop_pick w' in Some (choose p d r, w'')
  end.

(** A [select] without [default]. *)
Fixpoint park {A} (cases : UDPStream -> Z -> list (bool * A))
    (ws : list wake) (w : World) : res A :=
  match ws with
  | [] => Blocked (with_wakes [] w)
  | k :: ws' =>
      match wake_select cases k w with
      | None => park cases ws' (wake_apply k w)
      | Some (a, w') => Ret a (with_wakes ws' w')
      end
  end.

Definition select_wait {A} (cases : UDPStream -> Z -> list (bool * A)) : M A :=
  fun w => park cases (wakes w) w.

(** The shape shared by Read and WriteBuffer:
    [for { body; select { cases } }].  The body either returns a result or
    reaches the [select] with its timer channel ([None] is the nil
    channel); the handler of the case that fires either returns or goes
    round the loop again ([None]). *)
Fixpoint loop_select {R E} (body : M (R + option Z))
    (cases : option Z -> UDPStream -> Z -> list (bool * E))
    (handle : E -> M (option R))
    (ws : list wake) (w : World) {struct ws} : res R :=
  match body w with
  | Ret (inl r) w1 => Ret r (with_wakes ws w1)
  | Ret (inr c) w1 =>
      (fix parked (ws : list wake) (w1 : World) {struct ws} : res R :=
         match ws with
         | [] => Blocked (with_wakes [] w1)
         | k :: ws' =>
             match wake_select (cases c) k w1 with
             | None => parked ws' (wake_apply k w1)
             | Some (ev, w2) =>
                 match handle ev w2 with
                 | Ret (Some r) w3 => Ret r (with_wakes ws' w3)
                 | Ret None w3 => loop_select body cases handle ws' w3
                 | Blocked w3 => Blocked w3
                 | Panicked => Panicked
                 | Diverged => Diverged
                 end
             end
         end) ws w1
  | Blocked w1 => Blocked w1
  | Panicked => Panicked
  | Diverged => Diverged
  end.

(** A timer channel can be received from once its instant has come. *)
Definition timer_ready (c : option Z) (now : Z) : bool :=
  match c with
  | Some t => t <=? now
  | None => false
  end.

(** ** Notifications *)

(** [select { case ch <- struct{}{}: default: }] on a channel of capacity
    one: the slot is full afterwards. *)
Definition notifyDialEvent : M unit := modify (set_chDialEvent true).
Definition notifyReadEvent : M unit := modify (set_chReadEvent true).
Definition notifyWriteEvent : M unit := modify (set_chWriteEvent true).

(** ** The dispatcher *)

Definition parallelTun (xmitMax : Z) : M Z :=
  s <- get ;;
  now <- Now ;;
  if parallelXmit s <=? xmitMax then
    modify (set_parallelExpire (now + parallelTime s)) ;;
    ret (len (tunnels s))
  else if parallelExpire s =? 0 then
    ret 1
  else if now <? parallelExpire s then
    ret (len (tunnels s))
  else
    modify (set_parallelExpire 0) ;;
    ret 1.

(** The datagram [output] builds for one tunnel. *)
Definition stamp (buf : list byte) : M (list byte) :=
  s <- get ;;
  bts <- must (slice_to (len buf) xmitBuf) ;;
  let bts := copy bts (uuid s) in
  dst <- must (slice_from uuid_Size bts) ;;
  src <- must (slice_from uuid_Size buf) ;;
  ret (firstn (Z.to_nat uuid_Size) bts ++ copy dst src).

(** One round of the first loop of [output]: a new empty queue. *)
Definition grow : M unit :=
  modify (fun s => set_msgss (msgss s ++ [[]]) s).

(** One round of the second loop of [output]: the copy for tunnel [i]. *)
Definition queue_copy (buf : list byte) (i : Z) : M unit :=
  bts <- stamp buf ;;
  s <- get ;;
  addr <- must (index i (remotes s)) ;;
  q <- must (index i (msgss s)) ;;
  m <- must (store i (q ++ [mkMessage [bts] addr]) (msgss s)) ;;
  modify (set_msgss m).

Definition output (buf : list byte) (xmitMax : Z) : M unit :=
  appendCount <- parallelTun xmitMax ;;
  s <- get ;;
  for_each (range (len (msgss s)) appendCount) (fun _ => grow) ;;
  for_each (range 0 appendCount) (queue_copy buf).

(** The callback given to [NewKCP]. *)
Definition kcp_output (e : emission) : M unit :=
  let '(buf, size, xmitMax) := e in
  s <- get ;;
  if IKCP_OVERHEAD + headerSize s <=? size then
    b <- must (slice_to size buf) ;;
    output b xmitMax
  else skip.

(** [tunnels[i].output(msgs)] *)
Definition tunnel_output (i : Z) (msgs : list Message) : M unit :=
  s <- get ;;
  t <- must (index i (tunnels s)) ;;
  fun w => Ret tt (with_wire (wire w ++ [(t, msgs)]) w).

Fixpoint enumerate {A} (i : Z) (l : list A) : list (Z * A) :=
  match l with
  | [] => []
  | x :: l' => (i, x) :: enumerate (i + 1) l'
  end.

Definition window_open (s : UDPStream) : bool :=
  let waitsnd := WaitSnd (kcp s) in
  (waitsnd <? kcp_snd_wnd (kcp s)) && (waitsnd <? kcp_rmt_wnd (kcp s)).

(** [interval = s.kcp.flush(false)], with the calls of the output
    callback the engine makes meanwhile. *)
Definition kcp_flush_now : M Z :=
  s <- get ;;
  now <- Now ;;
  let '(k, out, interval) := kcp_flush (kcp s) now false in
  modify (set_kcp k) ;;
  for_each out kcp_output ;;
  ret interval.

(** One round of the last loop of [flush]. *)
Definition hand_over (im : Z * list Message) : M unit :=
  let (i, msgs) := im in
  if 0 <? len msgs then tunnel_output i msgs else skip.

Definition flush (kcpFlush : bool) : M Z :=
  interval <- (if kcpFlush then kcp_flush_now else ret 0) ;;
  s <- get ;;
  let notifyWrite := window_open s in
  if len (msgss s) =? 0 then
    (if notifyWrite then notifyWriteEvent else skip) ;;
    ret interval
  else
    let batches := msgss s in
    modify (set_msgss []) ;;
    (if notifyWrite then notifyWriteEvent else skip) ;;
    for_each (enumerate 0 batches) hand_over ;;
    ret interval.

(** ** Write *)

(** [s.sendbuf[0] = flag; copy(s.sendbuf[1:], payload)] *)
Definition frame (flag : byte) (payload : list byte) : M unit :=
  s <- get ;;
  sb <- must (store 0 flag (sendbuf s)) ;;
  dst <- must (slice_from 1 sb) ;;
  modify (set_sendbuf (firstn 1 sb ++ copy dst payload)).

(** [s.kcp.Send(s.sendbuf[:n])] *)
Definition submit (n : Z) : M unit :=
  s <- get ;;
  seg <- must (slice_to n (sendbuf s)) ;;
  modify (set_kcp (Send (kcp s) seg)).

(** The inner [for] of WriteBuffer: frame [b] with the command tag, at most
    [mss - 1] bytes at a time, and submit each frame to the engine.  The
    result is [b] as the loop leaves it.  [kcp.mss] is a [uint32], so
    [mss - 1] wraps; it is read again after [Send] for [b = b[mss-1:]]. *)
Fixpoint send_loop (fuel : nat) (flag : byte) (b : list byte)
  : M (list byte) :=
  match fuel with
  | O => diverge
  | S fuel' =>
      s <- get ;;
      let mss := kcp_mss (kcp s) in
      if len b <? mss then
        frame flag b ;;
        submit (len b + 1) ;;
        ret b
      else
        head <- must (slice_to (uint32 (mss - 1)) b) ;;
        frame flag head ;;
        submit mss ;;
        s <- get ;;
        b <- must (slice_from (uint32 (kcp_mss (kcp s) - 1)) b) ;;
        send_loop fuel' flag b
  end.

Definition write_entry_cases (s : UDPStream) : list (bool * error) :=
  [ (chClose s, ErrClosedPipe);
    (chRst s, ErrUnexpectedEOF);
    (chSendFinEvent s, ErrClosedPipe) ].

Inductive write_event : Type :=
| WClose | WRst | WSendFin | WWriteEvent | WTimer.

Definition write_wait_cases (c : option Z) (s : UDPStream) (now : Z)
  : list (bool * write_event) :=
  [ (chClose s, WClose);
    (chRst s, WRst);
    (chSendFinEvent s, WSendFin);
    (chWriteEvent s, WWriteEvent);
    (timer_ready c now, WTimer) ].

(** The deadline check before a blocking [select]: time out at once, or
    the timer channel to wait on. *)
Definition deadline {R} (d : Z) (timed_out : R) : M (R + option Z) :=
  now <- Now ;;
  if negb (d =? 0) then
    if d <? now then ret (inl timed_out)
    else ret (inr (Some (now + (d - now))))
  else ret (inr None).

(** The part of WriteBuffer's loop that runs under the mutex, with the
    flush that follows it. *)
Definition WriteBuffer_body (flag : byte) (b : list byte)
  : M (Z * option error + option Z) :=
  s <- get ;;
  if window_open s then
    b <- send_loop (S (length b)) flag b ;;
    s <- get ;;
    let waitsnd := WaitSnd (kcp s) in
    let needFlush := (kcp_snd_wnd (kcp s) <=? waitsnd)
                     || (kcp_rmt_wnd (kcp s) <=? waitsnd)
                     || negb (writeDelay s) in
    (if needFlush then flush true ;; skip else skip) ;;
    add_BytesSent (uint64 (len b)) ;;
    ret (inl (len b, None))
  else
    deadline (wd s) (0, Some errTimeout).

Definition WriteBuffer_wake (ev : write_event) : M (option (Z * option error)) :=
  match ev with
  | WClose => ret (Some (0, Some ErrClosedPipe))
  | WRst => ret (Some (0, Some ErrUnexpectedEOF))
  | WSendFin => ret (Some (0, Some EOF))
  | WWriteEvent => modify (set_chWriteEvent false) ;; ret None
  | WTimer => ret (Some (0, Some errTimeout))
  end.

Definition WriteBuffer (flag : byte) (b : list byte) : M (Z * option error) :=
  e <- select_default write_entry_cases ;;
  match e with
  | Some err => ret (0, Some err)
  | None =>
      fun w => loop_select (WriteBuffer_body flag b) write_wait_cases
                 WriteBuffer_wake (wakes w) w
  end.

Definition Write (b : list byte) : M (Z * option error) :=
  WriteBuffer PSH b.

Definition WriteFlag (flag : byte) (b : list byte) : M (Z * option error) :=
  WriteBuffer flag b.

(** ** Dial *)

Inductive dial_event : Type :=
| DClose | DRst | DRecvFin | DDialEvent | DTimer.

Definition dial_cases (c : option Z) (s : UDPStream) (now : Z)
  : list (bool * dial_event) :=
  [ (chClose s, DClose);
    (chRst s, DRst);
    (chRecvFinEvent s, DRecvFin);
    (chDialEvent s, DDialEvent);
    (timer_ready c now, DTimer) ].

Definition Dial (locals : list (list byte)) (timeout : Z) : M (option error) :=
  s <- get ;;
  if accepted s then ret None
  else if len locals =? 0 then ret (Some errDialParam)
  else
    WriteFlag SYN (Join locals space) ;;
    flush true ;;
    now <- Now ;;
    ev <- select_wait (dial_cases (Some (now + timeout))) ;;
    match ev with
    | DClose => ret (Some ErrClosedPipe)
    | DRst => ret (Some ErrUnexpectedEOF)
    | DRecvFin => ret (Some EOF)
    | DDialEvent => modify (set_chDialEvent false) ;; ret None
    | DTimer => ret (Some errTimeout)
    end.

(** ** Close, CloseWrite, reset *)

Definition Close : M (option error) :=
  once <- once_Do closeOnce set_closeOnce ;;
  if negb once then ret (Some ErrClosedPipe)
  else
    WriteFlag RST [] ;;
    close chClose set_chClose ;;
    now <- Now ;;
    modify (set_chClean (Some (now + CleanTimeout))) ;;
    add_CurrEstab (2 ^ 64 - 1) ;;
    ret None.

Definition CloseWrite : M (option error) :=
  once <- once_Do sendFinOnce set_sendFinOnce ;;
  if negb once then ret None
  else
    WriteFlag FIN [] ;;
    close chSendFinEvent set_chSendFinEvent ;;
    ret None.

Definition reset : M unit :=
  once <- once_Do rstOnce set_rstOnce ;;
  if negb once then skip
  else
    close chRst set_chRst ;;
    modify (fun s => set_kcp (ReleaseTX (kcp s)) s).

(** ** Commands received *)

(** [copy(b, data)]: the count, and [b] afterwards. *)
Definition recvPsh (data b : list byte) : M (Z * option error * list byte) :=
  ret (copied b data, None, copy b data).

(** The loop over [remotes] that resolves each endpoint and stops at the
    first error. *)
Fixpoint resolve_all (remotes : list (list byte)) : option (list NetAddr) :=
  match remotes with
  | [] => Some []
  | remote :: rest =>
      match ResolveUDPAddr remote with
      | None => None
      | Some remoteAddr =>
          match resolve_all rest with
          | None => None
          | Some remoteAddrs => Some (remoteAddr :: remoteAddrs)
          end
      end
  end.

Definition recvSyn (data : list byte) : M (Z * option error) :=
  once <- once_Do recvSynOnce set_recvSynOnce ;;
  if negb once then ret (len data, None)
  else
    let remotes := Split data space in
    if len remotes =? 0 then ret (len data, Some errSynInfo)
    else
      s <- get ;;
      let tunnels := sel s remotes in
      if (len tunnels =? 0) || negb (len tunnels =? len remotes) then
        ret (len data, Some errSynInfo)
      else
        match resolve_all remotes with
        | None => ret (len data, Some errResolve)
        | Some remoteAddrs =>
            modify (fun s => set_remotes remoteAddrs (set_tunnels tunnels s)) ;;
            ret (len data, None)
        end.

Definition recvFin (data : list byte) : M (Z * option error) :=
  once <- once_Do recvFinOnce set_recvFinOnce ;;
  (if once then close chRecvFinEvent set_chRecvFinEvent else skip) ;;
  ret (len data, Some EOF).

Definition recvHrt (data : list byte) : M (Z * option error) :=
  ret (len data, None).

Definition recvRst (data : list byte) : M (Z * option error) :=
  reset ;;
  ret (len data, Some ErrUnexpectedEOF).

(** The user's buffer [b] is returned along with [(n, err)]. *)
Definition cmdRead (flag : byte) (data b : list byte)
  : M (Z * option error * list byte) :=
  let keep (c : M (Z * option error)) := r <- c ;; ret (r, b) in
  if Byte.eqb flag PSH then recvPsh data b
  else if Byte.eqb flag SYN then keep (recvSyn data)
  else if Byte.eqb flag FIN then keep (recvFin data)
  else if Byte.eqb flag HRT then keep (recvHrt data)
  else if Byte.eqb flag RST then keep (recvRst data)
  else ret (0, Some errStreamFlag, b).

(** ** Read *)

Definition read_entry_cases (s : UDPStream) : list (bool * error) :=
  [ (chClose s, ErrClosedPipe);
    (chRst s, ErrUnexpectedEOF);
    (chRecvFinEvent s, EOF) ].

Inductive read_event : Type :=
| RClose | RRst | RRecvFin | RReadEvent | RTimer.

Definition read_wait_cases (c : option Z) (s : UDPStream) (now : Z)
  : list (bool * read_event) :=
  [ (chClose s, RClose);
    (chRst s, RRst);
    (chRecvFinEvent s, RRecvFin);
    (chReadEvent s, RReadEvent);
    (timer_ready c now, RTimer) ].

(** The part of Read's loop that runs under the mutex.  The result is
    [(n, err)] and the caller's buffer afterwards. *)
Definition Read_body (b : list byte)
  : M (Z * option error * list byte + option Z) :=
  s <- get ;;
  if 0 <? len (bufptr s) then
    let n := copied b (bufptr s) in
    rest <- must (slice_from n (bufptr s)) ;;
    modify (set_bufptr rest) ;;
    add_BytesReceived (uint64 n) ;;
    ret (inl (n, None, copy b (bufptr s)))
  else
    let size := PeekSize (kcp s) in
    if 0 <? size then
      (if len (recvbuf s) <? size
       then modify (set_recvbuf (repeat x00 (Z.to_nat size)))
       else skip) ;;
      s <- get ;;
      buf <- must (slice_to size (recvbuf s)) ;;
      let (buf, k) := Recv (kcp s) buf in
      modify (fun s => set_kcp k
                (set_recvbuf (buf ++ skipn (Z.to_nat size) (recvbuf s)) s)) ;;
      flag <- must (index 0 buf) ;;
      data <- must (slice_from 1 buf) ;;
      ' (n, err, b') <- cmdRead flag data b ;;
      rest <- must (slice_from (n + 1) buf) ;;
      modify (set_bufptr rest) ;;
      add_BytesReceived (uint64 (n + 1)) ;;
      ret (inl (if Byte.eqb flag PSH then n else 0, err, b'))
    else
      deadline (rd s) (0, Some errTimeout, b).

Definition Read_wake (b : list byte) (ev : read_event)
  : M (option (Z * option error * list byte)) :=
  match ev with
  | RClose => ret (Some (0, Some ErrClosedPipe, b))
  | RRst => ret (Some (0, Some ErrUnexpectedEOF, b))
  | RRecvFin => ret (Some (0, Some EOF, b))
  | RReadEvent => modify (set_chReadEvent false) ;; ret None
  | RTimer => ret (Some (0, Some errTimeout, b))
  end.

Definition Read (b : list byte) : M (Z * option error * list byte) :=
  e <- select_default read_entry_cases ;;
  match e with
  | Some err => ret (0, Some err, b)
  | None =>
      fun w => loop_select (Read_body b) read_wait_cases (Read_wake b)
                 (wakes w) w
  end.

(** ** Accept *)

(** In the code the read cursor [bufptr] is a slice of the array of
    [recvbuf], so the [Recv] of Accept overwrites what is left behind the
    cursor.  [UDPStream] keeps the cursor as a list of its own and does not
    record where in the array it lies: [bufend] is the index at which it
    ends.  This is the cursor once [buf] has been written at the start of
    the array. *)
Definition overwritten (bufend : Z) (buf cursor : list byte) : list byte :=
  map (fun pc : Z * byte =>
         match index (fst pc) buf with
         | Some x => x
         | None => snd pc
         end)
    (enumerate (bufend - len cursor) cursor).

Definition Accept (bufend : Z) : M (option error) :=
  e <- select_default read_entry_cases ;;
  match e with
  | Some err => ret (Some err)
  | None =>
      s <- get ;;
      let size := PeekSize (kcp s) in
      if size <=? 0 then ret (Some errRemoteStream)
      else
        buf <- must (slice_to size (recvbuf s)) ;;
        let (buf, k) := Recv (kcp s) buf in
        modify (fun s => set_kcp k
                  (set_recvbuf (buf ++ skipn (Z.to_nat size) (recvbuf s))
                     (set_bufptr (overwritten bufend buf (bufptr s)) s))) ;;
        flag <- must (index 0 buf) ;;
        if negb (Byte.eqb flag SYN) then ret (Some errRemoteStream)
        else
          data <- must (slice_from 1 buf) ;;
          r <- recvSyn data ;;
          ret (snd r)
  end.

(** A call made [n] times in a row, with the results in order. *)
Fixpoint times {A} (n : nat) (c : M A) : M (list A) :=
  match n with
  | O => ret []
  | S n' => a <- c ;; rest <- times n' c ;; ret (a :: rest)
  end.

(** [recvSyn] on each payload in turn. *)
Fixpoint recvSyn_each (payloads : list (list byte))
  : M (list (Z * option error)) :=
  match payloads with
  | [] => ret []
  | data :: rest =>
      r <- recvSyn data ;; rs <- recvSyn_each rest ;; ret (r :: rs)
  end.

(** ** Vocabulary for the properties *)

(** The [select] of [loop_select] on its own: what a call parked with the
    timer channel [c] does with the wake-ups [ws]. *)
Definition parked_sel {R E} (body : M (R + option Z))
    (cases : option Z -> UDPStream -> Z -> list (bool * E))
    (handle : E -> M (option R)) (c : option Z)
  : list wake -> World -> res R :=
  fix parked (ws : list wake) (w1 : World) {struct ws} : res R :=
    match ws with
    | [] => Blocked (with_wakes [] w1)
    | k :: ws' =>
        match wake_select (cases c) k w1 with
        | None => parked ws' (wake_apply k w1)
        | Some (ev, w2) =>
            match handle ev w2 with
            | Ret (Some r) w3 => Ret r (with_wakes ws' w3)
            | Ret None w3 => loop_select body cases handle ws' w3
            | Blocked w3 => Blocked w3
            | Panicked => Panicked
            | Diverged => Diverged
            end
        end
    end.

(** The computation [c] does not change the observation [f] of the stream. *)
Definition keeps {B A} (f : UDPStream -> B) (c : M A) : Prop :=
  forall w a w', c w = Ret a w' -> f (strm w') = f (strm w).

(** The observation [f] does not look at the fields the write path
    assigns to. *)
Definition write_blind {B} (f : UDPStream -> B) : Prop :=
  forall s,
    (forall v, f (set_kcp v s) = f s) /\
    (forall v, f (set_sendbuf v s) = f s) /\
    (forall v, f (set_msgss v s) = f s) /\
    (forall v, f (set_parallelExpire v s) = f s) /\
    (forall v, f (set_chWriteEvent v s) = f s).

(** The wake-ups leave the observation [f] alone. *)
Definition undisturbed {B} (f : UDPStream -> B) (ws : list wake) : Prop :=
  Forall (fun k => forall s, f (wk_env k s) = f s) ws.

(** The world after the first Close, given the world [w'] its RST write
    left. *)
Definition closed_from (w' : World) : World :=
  with_DefaultSnmp
    (mkSnmp (BytesSent (DefaultSnmp w')) (BytesReceived (DefaultSnmp w'))
       (uint64 (CurrEstab (DefaultSnmp w') + (2 ^ 64 - 1))))
    (with_strm
       (set_chClean (Some (clock w' + CleanTimeout))
          (set_chClose true (strm w')))
       w').

(** The queue of tunnel [i], empty when there is none yet. *)
Definition queue_at (i : Z) (qs : list (list Message)) : list Message :=
  match index i qs with
  | Some q => q
  | None => []
  end.

(** One of the five command tags. *)
Definition known_tag (flag : byte) : bool :=
  Byte.eqb flag PSH || Byte.eqb flag SYN || Byte.eqb flag FIN
  || Byte.eqb flag HRT || Byte.eqb flag RST.

(** The slice Read hands to [kcp.Recv]: [recvbuf], reallocated when its
    capacity is below the size of the next message, cut to that size. *)
Definition recv_window (s : UDPStream) : list byte :=
  let size := PeekSize (kcp s) in
  firstn (Z.to_nat size)
    (if len (recvbuf s) <? size then repeat x00 (Z.to_nat size)
     else recvbuf s).

(** The message queued for tunnel [j], when there is an address for it. *)
Definition copy_for (s : UDPStream) (buf : list byte) (j : nat)
  : option Message :=
  option_map
    (mkMessage [uuid s ++ skipn (Z.to_nat uuid_Size) buf])
    (nth_error (remotes s) j).

(** A call of the output callback whose size is within its buffer and
    within a pool buffer. *)
Definition emission_ok (e : emission) : Prop :=
  0 <= snd (fst e) <= len (fst (fst e)) /\ snd (fst e) <= len xmitBuf.

(** The engine calls back with nothing else. *)
Definition engine_ok : Prop :=
  forall k now ackOnly,
    Forall emission_ok (snd (fst (kcp_flush k now ackOnly))).

(** What NewUDPStream establishes and the stream keeps: a UUID of 16
    bytes, a header of that size, as many remotes as tunnels and at least
    one, and no more queues than tunnels. *)
Definition stream_ok (s : UDPStream) : Prop :=
  len (uuid s) = uuid_Size /\
  headerSize s = uuid_Size /\
  len (tunnels s) = len (remotes s) /\
  1 <= len (remotes s) /\
  len (msgss s) <= len (tunnels s).

(** The length of what the inner loop of WriteBuffer leaves of a buffer
    of [l] bytes: the bytes of the last segment. *)
Definition tail_len (l mss : Z) : Z :=
  if l =? 0 then 0 else (l - 1) mod (mss - 1) + 1.

(** The observation [f] does not look at the fields the inner loop of
    WriteBuffer assigns to. *)
Definition send_blind {B} (f : UDPStream -> B) : Prop :=
  forall s,
    (forall v, f (set_kcp v s) = f s) /\
    (forall v, f (set_sendbuf v s) = f s).

End Stream.

Arguments Blocked {net arq A} w.
Arguments Panicked {net arq A}.
Arguments Diverged {net arq A}.

Notation "x <- c ;; k" := (bind c (fun x => k))
  (at level 61, c at next level, right associativity).
Notation "c ;; k" := (bind c (fun _ => k))
  (at level 61, right associativity).

(** * The rest of [stream.go] *)

(** The further fields and entry points of the engine that the
    constructor, [input] and the updater use, and the MTU limit of the
    session layer.  Nothing is assumed about them either. *)
Class Host {arq : ARQ} : Type := {
  mtuLimit : Z;
  (** [NewKCP(conv, callback)] *)
  NewKCP : Z -> KCP;
  (** [kcp.ReserveBytes(n)] *)
  ReserveBytes : KCP -> Z -> KCP;
  kcp_state : KCP -> Z;       (* uint32 *)
  kcp_snd_una : KCP -> Z;     (* uint32 *)
  kcp_snd_nxt : KCP -> Z;     (* uint32 *)
  (** [len(kcp.snd_queue)] *)
  kcp_snd_queue : KCP -> Z;
  calc_cwnd : KCP -> Z;       (* uint32 *)
  (** [Input(data, regular, ackNoDelay)]: the new state and the code it
      returns. *)
  Input : KCP -> list byte -> bool -> bool -> KCP * Z
}.

Section Rest.

Context {net : Net} {arq : ARQ} {host : Host}.

Definition set_rd (v : Z) (s : UDPStream) : UDPStream :=
  mkUDPStream (uuid s) (sel s) (kcp s) (tunnels s) (remotes s) (accepted s)
    (recvbuf s) (sendbuf s) (bufptr s) (chClean s) v (wd s) (headerSize s)
    (writeDelay s) (recvSynOnce s) (sendFinOnce s) (chSendFinEvent s)
    (recvFinOnce s) (chRecvFinEvent s) (rstOnce s) (chRst s) (closeOnce s)
    (chClose s) (chDialEvent s) (chReadEvent s) (chWriteEvent s) (msgss s)
    (parallelXmit s) (parallelTime s) (parallelExpire s).

Definition set_wd (v : Z) (s : UDPStream) : UDPStream :=
  mkUDPStream (uuid s) (sel s) (kcp s) (tunnels s) (remotes s) (accepted s)
    (recvbuf s) (sendbuf s) (bufptr s) (chClean s) (rd s) v (headerSize s)
    (writeDelay s) (recvSynOnce s) (sendFinOnce s) (chSendFinEvent s)
    (recvFinOnce s) (chRecvFinEvent s) (rstOnce s) (chRst s) (closeOnce s)
    (chClose s) (chDialEvent s) (chReadEvent s) (chWriteEvent s) (msgss s)
    (parallelXmit s) (parallelTime s) (parallelExpire s).

Definition set_writeDelay (v : bool) (s : UDPStream) : UDPStream :=
  mkUDPStream (uuid s) (sel s) (kcp s) (tunnels s) (remotes s) (accepted s)
    (recvbuf s) (sendbuf s) (bufptr s) (chClean s) (rd s) (wd s)
    (headerSize s) v (recvSynOnce s) (sendFinOnce s) (chSendFinEvent s)
    (recvFinOnce s) (chRecvFinEvent s) (rstOnce s) (chRst s) (closeOnce s)
    (chClose s) (chDialEvent s) (chReadEvent s) (chWriteEvent s) (msgss s)
    (parallelXmit s) (parallelTime s) (parallelExpire s).

(** ** Deadlines and the write delay *)

Definition SetDeadline (t : Z) : M (option error) :=
  modify (set_rd t) ;;
  modify (set_wd t) ;;
  notifyReadEvent ;;
  notifyWriteEvent ;;
  ret None.

Definition SetReadDeadline (t : Z) : M (option error) :=
  modify (set_rd t) ;;
  notifyReadEvent ;;
  ret None.

Definition SetWriteDeadline (t : Z) : M (option error) :=
  modify (set_wd t) ;;
  notifyWriteEvent ;;
  ret None.

Definition SetWriteDelay (delay : bool) : M unit :=
  modify (set_writeDelay delay).

(** ** The constructor *)

(** [NewUDPStream].  The counters [CurrEstab] and [MaxConn] of
    [DefaultSnmp] are passed in and handed back; the tickers, the clean
    callback and the updater goroutine it starts are left out, as in
    [UDPStream]. *)
Definition NewUDPStream (uuid : list byte) (accepted : bool)
    (remotes : list (list byte))
    (sel : list (list byte) -> list UDPTunnel)
    (counters : Snmp) (MaxConn : Z)
  : UDPStream * Snmp * Z + error :=
  let tunnels := sel remotes in
  if (len tunnels =? 0) || negb (len tunnels =? len remotes) then
    inr errTunnelPick
  else
    match resolve_all remotes with
    | None => inr errResolve
    | Some remoteAddrs =>
        let stream :=
          mkUDPStream uuid sel (ReserveBytes (NewKCP 1) uuid_Size)
            tunnels remoteAddrs accepted
            (repeat x00 (Z.to_nat mtuLimit)) (repeat x00 (Z.to_nat mtuLimit))
            [] None 0 0 uuid_Size false
            false false false false false false false false false
            false false false
            [] (uint32 DefaultParallelXmit) DefaultParallelTime 0 in
        let currestab := uint64 (CurrEstab counters + 1) in
        let maxconn := MaxConn in
        inl (stream,
             mkSnmp (BytesSent counters) (BytesReceived counters) currestab,
             if maxconn <? currestab then currestab else MaxConn)
    end.

(** ** The updater *)

(** The case of the updater's [select] that fires. *)
Inductive update_event : Type :=
| UClean | UHeartbeat | UFlushTimer.

(** How the updater returns: after the clean callback was called with the
    UUID, or after the reset on a dead link. *)
Inductive update_exit : Type :=
| Cleaned (uuid : list byte)
| DeadLink.

(** What happens while the updater is parked in its [select]: a wake-up,
    and whether a tick of the heartbeat ticker and of the flush timer is
    waiting by then (the two tickers are not fields of [UDPStream]). *)
Record tick : Type := mkTick {
  tk_wake : wake;
  tk_hrt : bool;
  tk_flush : bool
}.

(** The cases of the updater's [select].  [c] is [s.chClean] as the
    [select] found it when it was entered: Close assigns the field, and a
    [select] already parked does not see the new channel. *)
Definition update_cases (c : option Z) (hrt flushTimer : bool)
    (s : UDPStream) (now : Z) : list (bool * update_event) :=
  [ (timer_ready c now, UClean);
    (hrt, UHeartbeat);
    (flushTimer, UFlushTimer) ].

(** The body of the case that fired: [Some] when the goroutine returns. *)
Definition update_serve (ev : update_event) : M (option update_exit) :=
  s <- get ;;
  match ev with
  | UClean =>
      modify (set_kcp (ReleaseTX (kcp s))) ;;
      ret (Some (Cleaned (uuid s)))
  | UHeartbeat =>
      WriteFlag HRT [] ;;
      ret None
  | UFlushTimer =>
      if kcp_state (kcp s) =? 4294967295 then
        reset ;;
        ret (Some DeadLink)
      else
        flush true ;;
        ret None
  end.

(** [update]: [for { select { ... } }]; it stays parked when the ticks run
    out. *)
Fixpoint update (ticks : list tick) (w : World) : res update_exit :=
  match ticks with
  | [] => Blocked w
  | t :: rest =>
      match
        wake_select (update_cases (chClean (strm w)) (tk_hrt t) (tk_flush t))
          (tk_wake t) w
      with
      | None => update rest (wake_apply (tk_wake t) w)
      | Some (ev, w1) =>
          match update_serve ev w1 with
          | Ret (Some exit) w2 => Ret exit w2
          | Ret None w2 => update rest w2
          | Blocked w2 => Blocked w2
          | Panicked => Panicked
          | Diverged => Diverged
          end
      end
  end.

(** ** Input *)

(** The counters of [DefaultSnmp] that [input] updates. *)
Record InSnmp : Type := mkInSnmp {
  InPkts : Z;
  InBytes : Z;
  KCPInErrors : Z
}.

(** [input].  The field [ackNoDelay], which [UDPStream] leaves out, and
    the counters are passed in. *)
Definition input (ackNoDelay : bool) (data : list byte) (counters : InSnmp)
  : M InSnmp :=
  payload <- must (slice_from uuid_Size data) ;;
  s <- get ;;
  let (k, code) := Input (kcp s) payload true ackNoDelay in
  let kcpInErrors := if code =? 0 then 0 else 1 in
  modify (set_kcp k) ;;
  s <- get ;;
  (if 0 <? PeekSize (kcp s) then notifyReadEvent else skip) ;;
  (if negb (accepted s) && (kcp_snd_una (kcp s) =? 1)
   then notifyDialEvent else skip) ;;
  s <- get ;;
  let kcpFlush :=
    negb (writeDelay s)
    && negb (kcp_snd_queue (kcp s) =? 0)
    && (kcp_snd_nxt (kcp s)
        <? uint32 (kcp_snd_una (kcp s) + calc_cwnd (kcp s))) in
  flush kcpFlush ;;
  ret (mkInSnmp
         (uint64 (InPkts counters + 1))
         (uint64 (InBytes counters + uint64 (len data)))
         (if 0 <? kcpInErrors
          then uint64 (KCPInErrors counters + kcpInErrors)
          else KCPInErrors counters)).

(** ** Vocabulary for the properties of this part *)

(** The segments the inner loop of WriteBuffer submits for [b]. *)
Fixpoint frames (fuel : nat) (flag : byte) (b : list byte) (mss : Z)
  : list (list byte) :=
  match fuel with
  | O => []
  | S fuel' =>
      if len b <? mss then [flag :: b]
      else (flag :: firstn (Z.to_nat (mss - 1)) b)
           :: frames fuel' flag (skipn (Z.to_nat (mss - 1)) b) mss
  end.

(** The batches [flush] hands to the tunnels: each queue that is not
    empty, with the tunnel of its index. *)
Fixpoint handed (ts : list UDPTunnel) (batches : list (list Message))
    {struct batches} : list (UDPTunnel * list Message) :=
  match batches, ts with
  | msgs :: batches', t :: ts' =>
      (if 0 <? len msgs then [(t, msgs)] else []) ++ handed ts' batches'
  | _, _ => []
  end.

(** The stream once Read's loop has taken the message [buf] out of the
    engine, which is left as [k]: [recvbuf] holds the message, in a new
    array when the old one was too small. *)
Definition received (s : UDPStream) (buf : list byte) (k : KCP) : UDPStream :=
  let size := PeekSize (kcp s) in
  set_kcp k
    (set_recvbuf
       (buf ++ skipn (Z.to_nat size)
                 (if len (recvbuf s) <? size then repeat x00 (Z.to_nat size)
                  else recvbuf s))
       s).

(** The observation [f] does not look at the fields the output callback
    and the hand-over to the tunnels assign to. *)
Definition flush_blind {B} (f : UDPStream -> B) : Prop :=
  forall s,
    (forall v, f (set_msgss v s) = f s) /\
    (forall v, f (set_parallelExpire v s) = f s) /\
    (forall v, f (set_chWriteEvent v s) = f s).

(** The computation [c] leaves the clock, the wake-ups to come and the
    choices of the runtime alone. *)
Definition timeless {A} (c : M A) : Prop :=
  forall w a w', c w = Ret a w' ->
    clock w' = clock w /\ wakes w' = wakes w /\ picks w' = picks w.

(** The computation [c] touches nothing but the stream. *)
Definition stream_only {A} (c : M A) : Prop :=
  forall w a w', c w = Ret a w' -> w' = with_strm (strm w') w.

(** No terminal signal is closed. *)
Definition live (s : UDPStream) : Prop :=
  chClose s = false /\ chRst s = false /\
  chSendFinEvent s = false /\ chRecvFinEvent s = false.

(** Nothing to read: no byte behind the cursor, no message assembled. *)
Definition idle (s : UDPStream) : Prop :=
  bufptr s = [] /\ PeekSize (kcp s) <= 0.

End Rest.

(** * A concrete engine and network, for running the model *)

Module Example.

(** Modelled from the spec: the ARQ engine, whose source ([kcp.go]) is not
    at hand.  "submit(bytes): enqueue a payload for sending";
    "waitsnd(): current count of unacknowledged + unsent segments";
    "peek(): returns the size of the next fully assembled in-order
    message, or zero"; "recv(out): copies the next assembled message into
    out"; "flush: emits all eligible segments now; returns the interval in
    milliseconds until the next flush is required"; "release: returns all
    buffers to their pool".  Here a segment is eligible until it has been
    emitted once, provided it fits the MTU limit; no peer acknowledges
    anything, and every emission reports the transmission count
    [q_xmit]. *)
Record QueueKCP : Type := mkQueueKCP {
  q_mss : Z;
  q_snd_wnd : Z;
  q_rmt_wnd : Z;
  q_snd : list (list byte);
  q_emitted : nat;
  q_xmit : Z;
  q_rcv : list (list byte)
}.

Definition q_overhead : Z := 24.

Definition q_Send (k : QueueKCP) (seg : list byte) : QueueKCP :=
  mkQueueKCP (q_mss k) (q_snd_wnd k) (q_rmt_wnd k) (q_snd k ++ [seg])
    (q_emitted k) (q_xmit k) (q_rcv k).

Definition q_PeekSize (k : QueueKCP) : Z :=
  match q_rcv k with
  | [] => 0
  | m :: _ => len m
  end.

Definition q_Recv (k : QueueKCP) (buffer : list byte)
  : list byte * QueueKCP :=
  match q_rcv k with
  | [] => (buffer, k)
  | m :: rest =>
      (copy buffer m,
       mkQueueKCP (q_mss k) (q_snd_wnd k) (q_rmt_wnd k) (q_snd k)
         (q_emitted k) (q_xmit k) rest)
  end.

Definition q_datagram (k : QueueKCP) (seg : list byte) : emission :=
  let buf := repeat x00 (Z.to_nat (uuid_Size + q_overhead)) ++ seg in
  (buf, len buf, q_xmit k).

(** The MTU limit, and the segments a datagram of that size can carry. *)
Definition q_limit : Z := 1500.

Definition q_fits (seg : list byte) : bool :=
  len seg <=? q_limit - (uuid_Size + q_overhead).

Definition q_flush (k : QueueKCP) (now : Z) (ackOnly : bool)
  : QueueKCP * list emission * Z :=
  (mkQueueKCP (q_mss k) (q_snd_wnd k) (q_rmt_wnd k) (q_snd k)
     (length (q_snd k)) (q_xmit k) (q_rcv k),
   map (q_datagram k) (filter q_fits (skipn (q_emitted k) (q_snd k))),
   10).

Definition q_ReleaseTX (k : QueueKCP) : QueueKCP :=
  mkQueueKCP (q_mss k) (q_snd_wnd k) (q_rmt_wnd k) [] 0 (q_xmit k) (q_rcv k).

Definition queue_arq : ARQ :=
  {| KCP := QueueKCP;
     kcp_mss := q_mss;
     kcp_snd_wnd := q_snd_wnd;
     kcp_rmt_wnd := q_rmt_wnd;
     WaitSnd := fun k => len (q_snd k);
     Send := q_Send;
     PeekSize := q_PeekSize;
     Recv := q_Recv;
     kcp_flush := q_flush;
     ReleaseTX := q_ReleaseTX;
     IKCP_OVERHEAD := q_overhead |}.

Definition colon : byte := ":"%byte.

(** A stand-in for [net.ResolveUDPAddr] on the addresses the runs below
    resolve: the empty string resolves (to the zero address), anything
    else needs a port.  It looks no further: a host or a port that package
    [net] would refuse is not refused here, so it is used on the empty
    string, on well-formed [host:port] addresses and on strings without a
    colon only. *)
Definition resolve (remote : list byte) : option (list byte) :=
  match remote with
  | [] => Some []
  | _ => if existsb (Byte.eqb colon) remote then Some remote else None
  end.

(** Tunnels are numbered; addresses are the strings they resolve from. *)
Definition plain_net : Net :=
  {| UDPTunnel := nat;
     NetAddr := list byte;
     ResolveUDPAddr := resolve;
     xmitBuf := repeat x00 (Z.to_nat q_limit) |}.

#[local] Existing Instance queue_arq.
#[local] Existing Instance plain_net.

(** A selector with a tunnel for every endpoint it is asked about. *)
Definition pick_each (remotes : list (list byte)) : list nat :=
  seq 0 (length remotes).

Definition uuid0 : list byte :=
  [x10; x11; x12; x13; x14; x15; x16; x17;
   x18; x19; x1a; x1b; x1c; x1d; x1e; x1f].

(** "10.0.0.1:7001" and "10.0.0.2:7001" *)
Definition remote1 : list byte :=
  [x31; x30; x2e; x30; x2e; x30; x2e; x31; x3a; x37; x30; x30; x31].
Definition remote2 : list byte :=
  [x31; x30; x2e; x30; x2e; x30; x2e; x32; x3a; x37; x30; x30; x31].

(** An engine with MTU 50 (so [mss] is 50 - 24 - 16), windows of 32. *)
Definition kcp0 : QueueKCP := mkQueueKCP 10 32 32 [] 0 1 [].

(** A stream as NewUDPStream leaves it, with two tunnels. *)
Definition stream0 (accepted : bool) : UDPStream :=
  mkUDPStream uuid0 pick_each kcp0 [0%nat; 1%nat] [remote1; remote2] accepted
    (repeat x00 (Z.to_nat q_limit)) (repeat x00 (Z.to_nat q_limit)) [] None
    0 0 uuid_Size false
    false false false false false false false false false false false false
    [] DefaultParallelXmit DefaultParallelTime 0.

Definition snmp0 : Snmp := mkSnmp 0 0 1.

(** Some instant in 2026, in nanoseconds since year 1. *)
Definition t0 : Z := 63900000000 * second.

Definition world_of (s : UDPStream) (ws : list wake) : World :=
  mkWorld s t0 [] ws [] snmp0.

(** "abcdefghijkl" *)
Definition b12 : list byte :=
  [x61; x62; x63; x64; x65; x66; x67; x68; x69; x6a; x6b; x6c].

(** A fresh active stream, and a fresh passive one. *)
Definition w_active : World := world_of (stream0 false) [].
Definition w_passive : World := world_of (stream0 true) [].

(** An engine whose send window of one segment is taken. *)
Definition kcp_full : QueueKCP := mkQueueKCP 10 1 32 [[PSH; x61]] 1 1 [].

(** What a CloseWrite on another goroutine has done by the time the parked
    writer looks again: the segment in flight was acknowledged, the FIN
    took its place in the window, the send-FIN signal is closed. *)
Definition other_CloseWrite (s : UDPStream) : UDPStream :=
  set_chSendFinEvent true
    (set_sendFinOnce true
       (set_kcp (mkQueueKCP 10 1 32 [[FIN]] 1 1 []) s)).

(** A stream whose window is full, and the wake-up above a second later. *)
Definition w_full : World :=
  world_of (set_kcp kcp_full (stream0 false))
    [mkWake other_CloseWrite (t0 + second)].

(** What the peer's acknowledgement does: the segment in flight leaves
    the window and the write event is signalled. *)
Definition acknowledged (s : UDPStream) : UDPStream :=
  set_chWriteEvent true (set_kcp (mkQueueKCP 10 1 32 [] 0 1 []) s).

(** A stream whose window is full, drained a second later. *)
Definition w_full_then_drained : World :=
  world_of (set_kcp kcp_full (stream0 false))
    [mkWake acknowledged (t0 + second)].

(** A stream on which CloseWrite has been called. *)
Definition w_half_closed : World :=
  world_of (set_chSendFinEvent true (set_sendFinOnce true (stream0 false))) [].

(** A message with the tag '9' and the payload "ab", assembled and waiting
    in the engine, which also has a segment in flight. *)
Definition kcp_tag9 : QueueKCP :=
  mkQueueKCP 10 32 32 [[PSH; x61]] 1 1 [[x39; x61; x62]].

Definition w_tag9 : World := world_of (set_kcp kcp_tag9 (stream0 false)) [].

(** The caller's buffer for a Read. *)
Definition buf8 : list byte := repeat x00 8.

(** A segment as the engine emits it: 16 reserved bytes, the header, and
    the payload "1a". *)
Definition segment : list byte := repeat xff 40 ++ [PSH; x61].

(** The parallel window is open: both tunnels get a copy. *)
Definition w_parallel : World :=
  world_of (set_parallelExpire (t0 + second) (stream0 false)) [].

(** Modelled from the spec: the rest of the engine.  "input(datagram):
    ingest a received wire segment; updates send queue (ACKs), reorder
    buffer (data), and window advertisements"; "the ARQ engine never sees
    the UUID prefix; it is reserved as header space"; "the first peer ACK
    (detected at the ARQ level as snd_una == 1)"; "the ARQ state machine
    has reached its terminal (dead-link) state".  Here a new engine has
    an MTU of 1400; the link counts as dead once the transmission count is
    20; a datagram carries one message behind the engine's header, and a
    shorter one is an input error; [una] is what the engine reports as
    [snd_una]. *)
Definition q_NewKCP (conv : Z) : QueueKCP :=
  mkQueueKCP (1400 - q_overhead) 32 32 [] 0 1 [].

Definition q_ReserveBytes (k : QueueKCP) (n : Z) : QueueKCP :=
  mkQueueKCP (q_mss k - n) (q_snd_wnd k) (q_rmt_wnd k) (q_snd k)
    (q_emitted k) (q_xmit k) (q_rcv k).

Definition q_state (k : QueueKCP) : Z :=
  if 20 <=? q_xmit k then 4294967295 else 0.

Definition q_Input (k : QueueKCP) (data : list byte) (regular ackNoDelay : bool)
  : QueueKCP * Z :=
  if len data <? q_overhead then (k, -1)
  else
    (mkQueueKCP (q_mss k) (q_snd_wnd k) (q_rmt_wnd k) (q_snd k)
       (q_emitted k) (q_xmit k)
       (q_rcv k ++ [skipn (Z.to_nat q_overhead) data]),
     0).

Definition queue_host (una : Z) : Host :=
  {| mtuLimit := q_limit;
     NewKCP := q_NewKCP;
     ReserveBytes := q_ReserveBytes;
     kcp_state := q_state;
     kcp_snd_una := fun _ => una;
     kcp_snd_nxt := fun k => una + Z.of_nat (q_emitted k);
     kcp_snd_queue := fun k => len (q_snd k) - Z.of_nat (q_emitted k);
     calc_cwnd := fun k => Z.min (q_snd_wnd k) (q_rmt_wnd k);
     Input := q_Input |}.

(** ** More worlds *)

(** "abcde" *)
Definition abcde : list byte := [x61; x62; x63; x64; x65].

(** A caller's buffer of three bytes. *)
Definition buf3 : list byte := repeat x00 3.

(** An engine with a segment in flight that holds the assembled messages
    [msgs]. *)
Definition kcp_holding (msgs : list (list byte)) : QueueKCP :=
  mkQueueKCP 10 32 32 [[PSH; x61]] 1 1 msgs.

(** An active stream whose engine holds [msgs], and a passive one. *)
Definition w_holding (msgs : list (list byte)) : World :=
  world_of (set_kcp (kcp_holding msgs) (stream0 false)) [].

Definition w_accepting (msgs : list (list byte)) : World :=
  world_of (set_kcp (kcp_holding msgs) (stream0 true)) [].

(** A stream with "abcde" left behind the read cursor, and the same
    stream after a Close. *)
Definition w_cursor : World :=
  world_of (set_bufptr abcde (stream0 false)) [].

Definition w_closed : World :=
  world_of
    (set_chClose true (set_closeOnce true (set_bufptr abcde (stream0 false))))
    [].

(** Nothing happens but time passes. *)
Definition tick_at (t : Z) : wake := mkWake (fun s => s) t.

(** An idle stream whose read deadline passed a second ago, and one whose
    read deadline is a second ahead. *)
Definition w_read_due : World :=
  world_of (set_rd (t0 - second) (stream0 false)) [].

Definition w_read_ahead (ws : list wake) : World :=
  world_of (set_rd (t0 + second) (stream0 false)) ws.

(** A stream whose window is full. *)
Definition w_window_full (ws : list wake) : World :=
  world_of (set_kcp kcp_full (stream0 false)) ws.

(** The same with a write deadline that passed a second ago. *)
Definition w_write_due : World :=
  world_of (set_wd (t0 - second) (set_kcp kcp_full (stream0 false))) [].

(** Another goroutine calls [SetReadDeadline] (resp. [SetWriteDeadline])
    with an instant a second before [t0], a millisecond after [t0]. *)
Definition other_SetReadDeadline : wake :=
  mkWake (fun s => set_chReadEvent true (set_rd (t0 - second) s))
    (t0 + 1000000).

Definition other_SetWriteDeadline : wake :=
  mkWake (fun s => set_chWriteEvent true (set_wd (t0 - second) s))
    (t0 + 1000000).



(** A passive stream with a receive buffer of four bytes whose first
    message has six. *)
Definition w_oversized : World :=
  world_of
    (set_recvbuf (repeat x00 4)
       (set_kcp (kcp_holding [SYN :: abcde]) (stream0 true)))
    [].

(** A passive stream that holds the message [PSH "a"] and has the two
    bytes "bc" left behind the read cursor, at the indices 1 and 2 of the
    array of the receive buffer. *)
Definition w_accepting_behind : World :=
  world_of
    (set_bufptr [x62; x63]
       (set_kcp (kcp_holding [[PSH; x61]]) (stream0 true)))
    [].

(** An engine that has transmitted a segment twenty times. *)
Definition kcp_dead : QueueKCP :=
  mkQueueKCP 10 32 32 [[PSH; x61]] 1 20 [].

Definition w_dead : World := world_of (set_kcp kcp_dead (stream0 false)) [].


(** A datagram for the stream: the UUID, the engine's header, and the
    message [PSH "a"]. *)
Definition datagram : list byte := uuid0 ++ repeat x00 24 ++ [PSH; x61].




(** The input counters at zero. *)
Definition counters0 : InSnmp := mkInSnmp 0 0 0.

End Example.

(** * Properties *)

Unset Implicit Arguments.

(** ** Tactics *)

(** Reads of a field after a sequence of updates. *)
Ltac st :=
  cbn [strm clock picks wakes wire DefaultSnmp
       with_strm with_clock with_picks with_wakes with_wire with_DefaultSnmp
       uuid sel kcp tunnels remotes accepted recvbuf sendbuf bufptr chClean rd wd
       headerSize writeDelay recvSynOnce sendFinOnce chSendFinEvent
       recvFinOnce chRecvFinEvent rstOnce chRst closeOnce chClose chDialEvent
       chReadEvent chWriteEvent msgss parallelXmit parallelTime parallelExpire
       set_kcp set_tunnels set_remotes set_recvbuf set_sendbuf set_bufptr set_chClean
       set_recvSynOnce set_sendFinOnce set_chSendFinEvent set_recvFinOnce
       set_chRecvFinEvent set_rstOnce set_chRst set_closeOnce set_chClose
       set_chDialEvent set_chReadEvent set_chWriteEvent set_msgss
       set_parallelExpire
       BytesSent BytesReceived CurrEstab fst snd] in *.

(** The monad laid bare. *)
Ltac munfold :=
  unfold bind, ret, get, modify, must, panic, diverge, Now, skip in *.

(** Run the monad as far as it goes. *)
Ltac mrun := repeat (progress (munfold; cbv beta iota; st)).

(** Case analysis on the condition of the first conditional in the goal. *)
Ltac case_if :=
  match goal with
  | |- context [if ?c then _ else _] => destruct c eqn:?
  end.

Section Properties.

Context {net : Net} {arq : ARQ}.

(** ** Slices and strings *)

Lemma len_nonneg {A} (l : list A) : 0 <= len l.
Proof. unfold len. lia. Qed.

Lemma len_app {A} (l1 l2 : list A) : len (l1 ++ l2) = len l1 + len l2.
Proof. unfold len. rewrite length_app. lia. Qed.

Lemma len_nil {A} : len (@nil A) = 0.
Proof. reflexivity. Qed.

Lemma len_cons {A} (x : A) (l : list A) : len (x :: l) = len l + 1.
Proof. unfold len. cbn [length]. lia. Qed.

(** [strings.Split] never returns an empty slice. *)
Lemma Split_nonempty (s : list byte) (sep : byte) : Split s sep <> [].
Proof.
  destruct s as [|c s]; cbn; [discriminate|].
  destruct (Byte.eqb c sep); [discriminate|].
  destruct (Split s sep); discriminate.
Qed.

Lemma Split_len_pos (s : list byte) (sep : byte) : 0 < len (Split s sep).
Proof.
  pose proof (Split_nonempty s sep) as H.
  destruct (Split s sep) as [|e rest]; [congruence|]. rewrite len_cons.
  pose proof (len_nonneg rest). lia.
Qed.

(** ** The replication policy *)

(** C3.  The replication factor [parallelTun] chooses for a segment with
    transmission count [xmitMax]: when [xmitMax >= parallelXmit] it is the
    number of tunnels and the expiry of the parallel window becomes
    [now + parallelTime]; otherwise, when the expiry is a set instant in
    the future, it is the number of tunnels; otherwise it is 1. *)
Theorem parallelTun_policy (w : World) (xmitMax : Z) :
  exists k w',
    parallelTun xmitMax w = Ret k w' /\
    (parallelXmit (strm w) <= xmitMax ->
       k = len (tunnels (strm w)) /\
       parallelExpire (strm w') = clock w + parallelTime (strm w)) /\
    (xmitMax < parallelXmit (strm w) ->
       parallelExpire (strm w) <> 0 /\ clock w < parallelExpire (strm w) ->
       k = len (tunnels (strm w))) /\
    (xmitMax < parallelXmit (strm w) ->
       ~ (parallelExpire (strm w) <> 0 /\ clock w < parallelExpire (strm w)) ->
       k = 1).
Proof.
  unfold parallelTun, bind, get, Now, modify, ret.
  destruct (Z.leb_spec (parallelXmit (strm w)) xmitMax) as [Hx|Hx].
  - eexists _, _. split; [reflexivity|]. cbn. repeat split; intros; lia.
  - destruct (Z.eqb_spec (parallelExpire (strm w)) 0) as [Hz|Hz].
    + eexists _, _. split; [reflexivity|]. repeat split; intros; (lia || tauto).
    + destruct (Z.ltb_spec (clock w) (parallelExpire (strm w))) as [Hf|Hf].
      * eexists _, _. split; [reflexivity|]. repeat split; intros; (lia || tauto).
      * eexists _, _. split; [reflexivity|]. repeat split; intros; lia.
Qed.

(** ** Dial on the passive side *)

(** C9.  On an accepted stream Dial returns nil at once, whatever the
    endpoints and the timeout: the world is left exactly as it was, so no
    SYN was submitted, nothing was flushed and no wake-up was awaited. *)
Theorem Dial_accepted (w : World) (locals : list (list byte)) (timeout : Z) :
  accepted (strm w) = true ->
  Dial locals timeout w = Ret None w.
Proof.
  intros Hacc. unfold Dial, bind, get, ret. rewrite Hacc. reflexivity.
Qed.

(** ** SYN *)

Lemma recvSyn_done (w : World) (data : list byte) :
  recvSynOnce (strm w) = true ->
  recvSyn data w = Ret (len data, None) w.
Proof.
  intros Hd. unfold recvSyn, once_Do, bind, get, ret. rewrite Hd. reflexivity.
Qed.

Lemma recvSyn_returns (w : World) (data : list byte) :
  exists r w', recvSyn data w = Ret r w' /\ recvSynOnce (strm w') = true.
Proof.
  destruct (recvSynOnce (strm w)) eqn:Hd.
  - eexists _, _. split; [apply recvSyn_done; assumption | assumption].
  - unfold recvSyn, once_Do. munfold. rewrite Hd. cbn [negb].
    repeat case_if; try (eexists _, _; split; reflexivity).
    destruct (resolve_all (Split data space));
      eexists _, _; split; reflexivity.
Qed.

Lemma recvSyn_each_done (payloads : list (list byte)) (w : World) :
  recvSynOnce (strm w) = true ->
  recvSyn_each payloads w = Ret (map (fun d => (len d, None)) payloads) w.
Proof.
  intros Hd. induction payloads as [|d ds IH]; [reflexivity|].
  cbn [recvSyn_each map]. unfold bind at 1. rewrite (recvSyn_done _ _ Hd).
  unfold bind at 1. rewrite IH. reflexivity.
Qed.

(** C6.  [recvSyn] returns the length of its payload.  On a stream that
    has received no SYN it replaces the tunnel and remote arrays, by the
    selector's pick for the endpoints of the payload and by their resolved
    addresses, exactly when the pick has one tunnel per endpoint and every
    endpoint resolves; otherwise it reports the error and leaves both
    arrays alone.  On a stream that has received one it returns no error
    and changes nothing.  And whatever the first SYN did, every SYN after
    it is consumed: it returns the length of its payload and no error, and
    leaves the world, hence the tunnel and remote arrays, as the first one
    left them. *)
Theorem recvSyn_idempotent (w : World) (first : list byte)
    (later : list (list byte)) :
  let eps := Split first space in
  let picked := sel (strm w) eps in
  exists err w1,
    recvSyn first w = Ret (len first, err) w1 /\
    (recvSynOnce (strm w) = false ->
     (forall addrs,
        len picked = len eps -> resolve_all eps = Some addrs ->
        err = None /\
        tunnels (strm w1) = picked /\ remotes (strm w1) = addrs) /\
     (len picked <> len eps -> err = Some errSynInfo) /\
     (len picked = len eps -> resolve_all eps = None ->
      err = Some errResolve) /\
     (err <> None ->
      tunnels (strm w1) = tunnels (strm w) /\
      remotes (strm w1) = remotes (strm w))) /\
    (recvSynOnce (strm w) = true -> err = None /\ w1 = w) /\
    recvSyn_each later w1 = Ret (map (fun d => (len d, None)) later) w1.
Proof.
  intros eps picked.
  pose proof (Split_len_pos first space) as Hpos. fold eps in Hpos.
  destruct (recvSynOnce (strm w)) eqn:Ho.
  - exists None, w. rewrite recvSyn_done by exact Ho.
    split; [reflexivity|]. split; [discriminate|].
    split; [intros _; split; reflexivity|].
    apply recvSyn_each_done. exact Ho.
  - unfold recvSyn, once_Do. mrun. rewrite Ho. cbn [negb]. mrun.
    fold eps. destruct (Z.eqb_spec (len eps) 0) as [|_]; [lia|]. st.
    fold picked.
    destruct (Z.eqb_spec (len picked) 0) as [Hz|Hnz]; cbn [orb].
    { mrun. exists (Some errSynInfo). eexists. split; [reflexivity|].
      split; [intros _|split; [discriminate|]].
      - st. split; [intros addrs He; lia|].
        split; [reflexivity|]. split; [intros He; lia|].
        split; reflexivity.
      - apply recvSyn_each_done. reflexivity. }
    destruct (Z.eqb_spec (len picked) (len eps)) as [He|Hne]; cbn [negb].
    + destruct (resolve_all eps) as [addrs|] eqn:Er; mrun.
      * exists None. eexists. split; [reflexivity|].
        split; [intros _|split; [discriminate|]].
        -- st. split.
           { intros a _ Ha. inversion Ha. repeat split. }
           split; [intros Hc; contradiction|].
           split; [discriminate|]. intros Hc. congruence.
        -- apply recvSyn_each_done. reflexivity.
      * exists (Some errResolve). eexists. split; [reflexivity|].
        split; [intros _|split; [discriminate|]].
        -- st. split; [discriminate|].
           split; [intros Hc; contradiction|].
           split; [reflexivity|]. split; reflexivity.
        -- apply recvSyn_each_done. reflexivity.
    + mrun. exists (Some errSynInfo). eexists. split; [reflexivity|].
      split; [intros _|split; [discriminate|]].
      * st. split; [intros a Hc; contradiction|].
        split; [reflexivity|]. split; [intros Hc; contradiction|].
        split; reflexivity.
      * apply recvSyn_each_done. reflexivity.
Qed.

(** ** What a call leaves alone *)

Lemma keeps_ret {B A} (f : UDPStream -> B) (a : A) : keeps f (ret a).
Proof. intros w a' w' H. inversion H. reflexivity. Qed.

Lemma keeps_bind {B A C} (f : UDPStream -> B) (c : M A) (k : A -> M C) :
  keeps f c -> (forall a, keeps f (k a)) -> keeps f (bind c k).
Proof.
  intros Hc Hk w r w' H. unfold bind in H.
  destruct (c w) as [a w1| | |] eqn:E; try discriminate.
  rewrite (Hk a _ _ _ H). exact (Hc _ _ _ E).
Qed.

Lemma keeps_get {B} (f : UDPStream -> B) : keeps f get.
Proof. intros w a w' H. inversion H. reflexivity. Qed.

Lemma keeps_Now {B} (f : UDPStream -> B) : keeps f Now.
Proof. intros w a w' H. inversion H. reflexivity. Qed.

Lemma keeps_must {B A} (f : UDPStream -> B) (o : option A) : keeps f (must o).
Proof. destruct o; intros w a' w' H; inversion H. reflexivity. Qed.

Lemma keeps_modify {B} (f : UDPStream -> B) (g : UDPStream -> UDPStream) :
  (forall s, f (g s) = f s) -> keeps f (modify g).
Proof. intros Hg w a w' H. inversion H. st. apply Hg. Qed.

Lemma keeps_for_each {B A} (f : UDPStream -> B) (l : list A)
    (body : A -> M unit) :
  (forall x, keeps f (body x)) -> keeps f (for_each l body).
Proof.
  intros Hb. induction l as [|x l IH]; cbn [for_each].
  - apply keeps_ret.
  - apply keeps_bind; [apply Hb | intros _; exact IH].
Qed.

Lemma keeps_world {B A} (f : UDPStream -> B) (c : M A) :
  (forall w a w', c w = Ret a w' -> strm w' = strm w) -> keeps f c.
Proof. intros Hc w a w' H. rewrite (Hc _ _ _ H). reflexivity. Qed.

Lemma pop_pick_strm (w : World) : strm (snd (pop_pick w)) = strm w.
Proof. unfold pop_pick. destruct (picks w); reflexivity. Qed.

Lemma keeps_select_default {B A} (f : UDPStream -> B)
    (cases : UDPStream -> list (bool * A)) :
  keeps f (select_default cases).
Proof.
  apply keeps_world. intros w a w' H. unfold select_default in H.
  destruct (ready (cases (strm w))); [inversion H; reflexivity|].
  pose proof (pop_pick_strm w) as Hp.
  destruct (pop_pick w) as [p w1]. inversion H; subst. exact Hp.
Qed.

Section WriteBlind.

Context {B : Type} (f : UDPStream -> B) (Hf : write_blind f).

Ltac keeps_step :=
  first
    [ apply keeps_ret | apply keeps_get | apply keeps_Now | apply keeps_must
    | apply keeps_modify; intros; apply Hf
    | apply keeps_bind; [|intros]
    | apply keeps_for_each; intros
    | match goal with
      | |- keeps _ (if ?c then _ else _) => destruct c
      | |- keeps _ (match ?x with _ => _ end) => destruct x
      | |- keeps _ (let (_, _) := ?x in _) => destruct x
      end ].

Lemma keeps_frame flag payload : keeps f (frame flag payload).
Proof. unfold frame. repeat keeps_step. Qed.

Lemma keeps_submit n : keeps f (submit n).
Proof. unfold submit. repeat keeps_step. Qed.

Lemma keeps_send_loop fuel flag b : keeps f (send_loop fuel flag b).
Proof.
  revert b. induction fuel as [|fuel IH]; intros b; cbn [send_loop].
  - intros w a w' H. discriminate.
  - repeat first [apply keeps_frame | apply keeps_submit | apply IH | keeps_step].
Qed.

Lemma keeps_parallelTun x : keeps f (parallelTun x).
Proof. unfold parallelTun. repeat keeps_step. Qed.

Lemma keeps_stamp buf : keeps f (stamp buf).
Proof. unfold stamp. repeat keeps_step. Qed.

Lemma keeps_output buf x : keeps f (output buf x).
Proof.
  unfold output, grow, queue_copy.
  repeat first [apply keeps_parallelTun | apply keeps_stamp | keeps_step].
Qed.

Lemma keeps_kcp_output e : keeps f (kcp_output e).
Proof.
  destruct e as [[buf size] x]. unfold kcp_output, skip.
  repeat first [apply keeps_output | keeps_step].
Qed.

Lemma keeps_tunnel_output i msgs : keeps f (tunnel_output i msgs).
Proof.
  unfold tunnel_output. repeat keeps_step.
  intros w0 r w' H. inversion H. reflexivity.
Qed.

Lemma keeps_flush kcpFlush : keeps f (flush kcpFlush).
Proof.
  unfold flush, kcp_flush_now, hand_over, notifyWriteEvent, skip.
  repeat first [apply keeps_kcp_output | apply keeps_tunnel_output | keeps_step].
Qed.

Lemma keeps_add_BytesSent d : keeps f (add_BytesSent d).
Proof. intros w a w' H. inversion H. reflexivity. Qed.

Lemma keeps_deadline {R} d (r : R) : keeps f (deadline d r).
Proof. unfold deadline. repeat keeps_step. Qed.

Lemma keeps_WriteBuffer_body flag b : keeps f (WriteBuffer_body flag b).
Proof.
  unfold WriteBuffer_body, skip.
  repeat first [apply keeps_send_loop | apply keeps_flush
               | apply keeps_add_BytesSent | apply keeps_deadline | keeps_step].
Qed.

Lemma keeps_WriteBuffer_wake ev : keeps f (WriteBuffer_wake ev).
Proof. destruct ev; cbn [WriteBuffer_wake]; repeat keeps_step. Qed.

End WriteBlind.

Lemma loop_select_eq {R E} (body : M (R + option Z)) cases
    (handle : E -> M (option R)) ws w :
  loop_select body cases handle ws w =
  match body w with
  | Ret (inl r) w1 => Ret r (with_wakes ws w1)
  | Ret (inr c) w1 => parked_sel body cases handle c ws w1
  | Blocked w1 => Blocked w1
  | Panicked => Panicked
  | Diverged => Diverged
  end.
Proof. destruct ws; reflexivity. Qed.

Lemma wake_select_keeps {B E} (f : UDPStream -> B) cases k w (ev : E) w' :
  (forall s, f (wk_env k s) = f s) ->
  wake_select cases k w = Some (ev, w') -> f (strm w') = f (strm w).
Proof.
  intros Hk H. unfold wake_select in H.
  destruct (ready _); [discriminate|].
  pose proof (pop_pick_strm (wake_apply k w)) as Hp.
  destruct (pop_pick (wake_apply k w)) as [p w1]. inversion H; subst.
  cbn [snd] in Hp. rewrite Hp. unfold wake_apply. st. apply Hk.
Qed.

Lemma loop_select_keeps {B R E} (f : UDPStream -> B)
    (body : M (R + option Z)) cases (handle : E -> M (option R)) :
  keeps f body -> (forall ev, keeps f (handle ev)) ->
  forall ws, undisturbed f ws ->
  (forall w r w', loop_select body cases handle ws w = Ret r w' ->
                  f (strm w') = f (strm w)) /\
  (forall c w r w', parked_sel body cases handle c ws w = Ret r w' ->
                    f (strm w') = f (strm w)).
Proof.
  intros Hb Hh ws Hws. induction Hws as [|k ws Hk Hws [IHl IHp]].
  - assert (Hp : forall c w r w',
               parked_sel body cases handle c [] w = Ret r w' ->
               f (strm w') = f (strm w)) by (intros; discriminate).
    split; [|exact Hp].
    intros w r w' H. rewrite loop_select_eq in H.
    destruct (body w) as [[r1|c] w1| | |] eqn:E1; try discriminate.
    inversion H; subst. st. exact (Hb _ _ _ E1).
  - assert (Hp : forall c w r w',
               parked_sel body cases handle c (k :: ws) w = Ret r w' ->
               f (strm w') = f (strm w)).
    { intros c w r w' H. cbn [parked_sel] in H.
      destruct (wake_select (cases c) k w) as [[ev w2]|] eqn:E2.
      - pose proof (wake_select_keeps f _ _ _ _ _ Hk E2) as H2.
        destruct (handle ev w2) as [[r3|] w3| | |] eqn:E3; try discriminate.
        + inversion H; subst. st. rewrite (Hh _ _ _ _ E3). exact H2.
        + rewrite (IHl _ _ _ H), (Hh _ _ _ _ E3). exact H2.
      - rewrite (IHp _ _ _ _ H). unfold wake_apply. st. apply Hk. }
    split; [|exact Hp].
    intros w r w' H. rewrite loop_select_eq in H.
    destruct (body w) as [[r1|c] w1| | |] eqn:E1; try discriminate.
    + inversion H; subst. st. exact (Hb _ _ _ E1).
    + rewrite (Hp _ _ _ _ H). exact (Hb _ _ _ E1).
Qed.

Lemma WriteBuffer_keeps {B} (f : UDPStream -> B) flag b w r w' :
  write_blind f -> undisturbed f (wakes w) ->
  WriteBuffer flag b w = Ret r w' -> f (strm w') = f (strm w).
Proof.
  intros Hf Hws H. unfold WriteBuffer, bind in H.
  destruct (select_default write_entry_cases w) as [e w1| | |] eqn:E;
    try discriminate.
  pose proof (keeps_select_default f _ _ _ _ E) as H1.
  destruct e as [err|].
  - inversion H; subst. exact H1.
  - rewrite <- H1.
    assert (Hw1 : wakes w1 = wakes w).
    { unfold select_default in E. destruct (ready _).
      - inversion E; reflexivity.
      - unfold pop_pick in E. destruct (picks w); inversion E; reflexivity. }
    rewrite <- Hw1 in Hws.
    exact (proj1 (loop_select_keeps f _ write_wait_cases _
                    (keeps_WriteBuffer_body f Hf flag b)
                    (keeps_WriteBuffer_wake f Hf) _ Hws) _ _ _ H).
Qed.

(** ** Close and CloseWrite *)

Lemma write_blind_closeOnce : write_blind closeOnce.
Proof. intros s. repeat split. Qed.

Lemma write_blind_chClose : write_blind chClose.
Proof. intros s. repeat split. Qed.

Lemma write_blind_sendFinOnce : write_blind sendFinOnce.
Proof. intros s. repeat split. Qed.

Lemma write_blind_chSendFinEvent : write_blind chSendFinEvent.
Proof. intros s. repeat split. Qed.

Lemma Close_again (w : World) :
  closeOnce (strm w) = true -> Close w = Ret (Some ErrClosedPipe) w.
Proof.
  intros Hd. unfold Close, once_Do. munfold. rewrite Hd. reflexivity.
Qed.

Lemma times_Close_again (n : nat) (w : World) :
  closeOnce (strm w) = true ->
  times n Close w = Ret (repeat (Some ErrClosedPipe) n) w.
Proof.
  intros Hd. induction n as [|n IH]; [reflexivity|].
  cbn [times repeat]. unfold bind at 1. rewrite (Close_again _ Hd).
  unfold bind at 1. rewrite IH. reflexivity.
Qed.

Lemma Close_first (w : World) r w' :
  closeOnce (strm w) = false ->
  WriteFlag RST [] (with_strm (set_closeOnce true (strm w)) w) = Ret r w' ->
  chClose (strm w') = false ->
  Close w = Ret None (closed_from w').
Proof.
  intros Hd Hw Hc. unfold Close, once_Do, close, add_CurrEstab. munfold.
  rewrite Hd. cbn [negb]. rewrite Hw. rewrite Hc. reflexivity.
Qed.

Lemma CloseWrite_again (w : World) :
  sendFinOnce (strm w) = true -> CloseWrite w = Ret None w.
Proof.
  intros Hd. unfold CloseWrite, once_Do. munfold. rewrite Hd. reflexivity.
Qed.

Lemma times_CloseWrite_again (n : nat) (w : World) :
  sendFinOnce (strm w) = true ->
  times n CloseWrite w = Ret (repeat None n) w.
Proof.
  intros Hd. induction n as [|n IH]; [reflexivity|].
  cbn [times repeat]. unfold bind at 1. rewrite (CloseWrite_again _ Hd).
  unfold bind at 1. rewrite IH. reflexivity.
Qed.

Lemma CloseWrite_first (w : World) r w' :
  sendFinOnce (strm w) = false ->
  WriteFlag FIN [] (with_strm (set_sendFinOnce true (strm w)) w) = Ret r w' ->
  chSendFinEvent (strm w') = false ->
  CloseWrite w = Ret None (with_strm (set_chSendFinEvent true (strm w')) w').
Proof.
  intros Hd Hw Hc. unfold CloseWrite, once_Do, close. munfold.
  rewrite Hd. cbn [negb]. rewrite Hw. rewrite Hc. reflexivity.
Qed.

(** Once the RST write inside the first Close has come back, however long
    it was parked, Close returns nil, and calling Close [n] more times
    returns closed-pipe each time and leaves the world as the first call
    left it.  Likewise for CloseWrite and its FIN write, where every call
    returns nil.  The other goroutines are assumed not to undo the once
    nor to close the channel in the meantime. *)
Lemma Close_CloseWrite_after_write :
  (forall (w : World) r w' (n : nat),
     closeOnce (strm w) = false -> chClose (strm w) = false ->
     undisturbed closeOnce (wakes w) -> undisturbed chClose (wakes w) ->
     WriteFlag RST [] (with_strm (set_closeOnce true (strm w)) w) = Ret r w' ->
     exists w1,
       Close w = Ret None w1 /\
       times (S n) Close w
       = Ret (None :: repeat (Some ErrClosedPipe) n) w1) /\
  (forall (w : World) r w' (n : nat),
     sendFinOnce (strm w) = false -> chSendFinEvent (strm w) = false ->
     undisturbed sendFinOnce (wakes w) ->
     undisturbed chSendFinEvent (wakes w) ->
     WriteFlag FIN [] (with_strm (set_sendFinOnce true (strm w)) w)
     = Ret r w' ->
     exists w1,
       CloseWrite w = Ret None w1 /\
       times (S n) CloseWrite w = Ret (None :: repeat None n) w1).
Proof.
  split.
  - intros w r w' n Hd Hc Ho Hch Hw.
    pose proof (WriteBuffer_keeps closeOnce RST []
                  (with_strm (set_closeOnce true (strm w)) w) r w'
                  write_blind_closeOnce Ho Hw) as H1.
    pose proof (WriteBuffer_keeps chClose RST []
                  (with_strm (set_closeOnce true (strm w)) w) r w'
                  write_blind_chClose Hch Hw) as H2.
    st. rewrite Hc in H2.
    exists (closed_from w').
    pose proof (Close_first w r w' Hd Hw H2) as HC.
    split; [exact HC|].
    cbn [times]. unfold bind at 1. rewrite HC.
    unfold bind at 1. rewrite times_Close_again; [reflexivity|].
    unfold closed_from. st. exact H1.
  - intros w r w' n Hd Hc Ho Hch Hw.
    pose proof (WriteBuffer_keeps sendFinOnce FIN []
                  (with_strm (set_sendFinOnce true (strm w)) w) r w'
                  write_blind_sendFinOnce Ho Hw) as H1.
    pose proof (WriteBuffer_keeps chSendFinEvent FIN []
                  (with_strm (set_sendFinOnce true (strm w)) w) r w'
                  write_blind_chSendFinEvent Hch Hw) as H2.
    st. rewrite Hc in H2.
    eexists.
    pose proof (CloseWrite_first w r w' Hd Hw H2) as HC.
    split; [exact HC|].
    cbn [times]. unfold bind at 1. rewrite HC.
    unfold bind at 1. rewrite times_CloseWrite_again; [reflexivity|].
    st. exact H1.
Qed.


Lemma choose_one {A} (p : nat) (d : A) : choose p d [] = d.
Proof.
  unfold choose. change (length [d]) with 1%nat.
  rewrite Nat.mod_1_r. reflexivity.
Qed.

Lemma choose_two {A} (p : nat) (d e : A) :
  choose p d [e] = d \/ choose p d [e] = e.
Proof.
  unfold choose. change (length [d; e]) with 2%nat.
  destruct (p mod 2)%nat as [|[|[|k]]]; cbn [nth]; auto.
Qed.

(** A write attempted after the send side was closed fails at the first
    [select] and touches nothing but the runtime's choice. *)
Lemma WriteBuffer_after_send_fin (flag : byte) (b : list byte) (w : World) :
  chClose (strm w) = false -> chSendFinEvent (strm w) = true ->
  exists e,
    WriteBuffer flag b w = Ret (0, Some e) (snd (pop_pick w)) /\
    (e = ErrClosedPipe \/ e = ErrUnexpectedEOF) /\
    (chRst (strm w) = false -> e = ErrClosedPipe).
Proof.
  intros Hc Hf. unfold WriteBuffer, select_default, write_entry_cases.
  munfold. rewrite Hc, Hf. destruct (chRst (strm w)) eqn:Hr.
  - cbn [ready filter map fst snd]. destruct (pop_pick w) as [p w1].
    cbn [snd].
    destruct (choose_two p ErrUnexpectedEOF ErrClosedPipe) as [E|E];
      rewrite E; eexists; (split; [reflexivity|]); split; auto; discriminate.
  - cbn [ready filter map fst snd]. destruct (pop_pick w) as [p w1].
    cbn [snd]. rewrite choose_one. eexists. split; [reflexivity|]. auto.
Qed.

(** C10.  When CloseWrite has already closed the send-FIN signal, the
    first Close submits no RST: its write fails at once (with closed-pipe,
    unless the stream was reset as well) and changes nothing in the stream;
    Close still returns nil, closes the closed signal and arms the clean
    timer five seconds ahead, and nothing is handed to the tunnels. *)
Theorem Close_after_CloseWrite (w : World) :
  closeOnce (strm w) = false -> chClose (strm w) = false ->
  chSendFinEvent (strm w) = true ->
  exists e w0 w1,
    WriteFlag RST [] (with_strm (set_closeOnce true (strm w)) w)
    = Ret (0, Some e) w0 /\
    (chRst (strm w) = false -> e = ErrClosedPipe) /\
    strm w0 = set_closeOnce true (strm w) /\
    Close w = Ret None w1 /\
    strm w1 = set_chClean (Some (clock w + 5 * second))
                (set_chClose true (set_closeOnce true (strm w))) /\
    kcp (strm w1) = kcp (strm w) /\
    msgss (strm w1) = msgss (strm w) /\
    wire w1 = wire w.
Proof.
  intros Hd Hc Hf.
  set (wa := with_strm (set_closeOnce true (strm w)) w).
  destruct (WriteBuffer_after_send_fin RST [] wa) as (e & Hw & _ & He);
    [exact Hc | exact Hf |].
  assert (Hs : strm (snd (pop_pick wa)) = set_closeOnce true (strm w))
    by (rewrite pop_pick_strm; reflexivity).
  assert (Hk : clock (snd (pop_pick wa)) = clock w)
    by (unfold pop_pick; destruct (picks wa); reflexivity).
  assert (Hi : wire (snd (pop_pick wa)) = wire w)
    by (unfold pop_pick; destruct (picks wa); reflexivity).
  exists e, (snd (pop_pick wa)), (closed_from (snd (pop_pick wa))).
  split; [exact Hw|]. split; [exact He|]. split; [exact Hs|].
  split.
  - apply (Close_first w _ _ Hd Hw). rewrite Hs. exact Hc.
  - unfold closed_from. st. rewrite Hs, Hk. st.
    repeat split; try reflexivity. exact Hi.
Qed.

(** ** Read and the command tags *)

Lemma slice_to_ok {A} (n : Z) (l : list A) :
  0 <= n <= len l -> slice_to n l = Some (firstn (Z.to_nat n) l).
Proof.
  intros H. unfold slice_to.
  destruct (Z.leb_spec 0 n); [|lia]. destruct (Z.leb_spec n (len l)); [|lia].
  reflexivity.
Qed.

Lemma slice_from_ok {A} (n : Z) (l : list A) :
  0 <= n <= len l -> slice_from n l = Some (skipn (Z.to_nat n) l).
Proof.
  intros H. unfold slice_from.
  destruct (Z.leb_spec 0 n); [|lia]. destruct (Z.leb_spec n (len l)); [|lia].
  reflexivity.
Qed.

Lemma len_repeat {A} (x : A) (n : nat) : len (repeat x n) = Z.of_nat n.
Proof. unfold len. rewrite repeat_length. reflexivity. Qed.

Lemma cmdRead_unknown (flag : byte) (data b : list byte) (w : World) :
  known_tag flag = false ->
  cmdRead flag data b w = Ret (0, Some errStreamFlag, b) w.
Proof.
  unfold known_tag. intros H.
  repeat (apply orb_false_elim in H; destruct H as [H ?]).
  unfold cmdRead. repeat match goal with E : Byte.eqb _ _ = false |- _ => rewrite E; clear E end.
  reflexivity.
Qed.

(** What Read's loop body does with a message whose tag is unknown. *)
Lemma Read_body_unknown (w : World) (b : list byte) flag data k :
  bufptr (strm w) = [] ->
  0 < PeekSize (kcp (strm w)) ->
  Recv (kcp (strm w)) (recv_window (strm w)) = (flag :: data, k) ->
  known_tag flag = false ->
  exists w',
    Read_body b w = Ret (inl (0, Some errStreamFlag, b)) w' /\
    strm w' = set_bufptr data
                (set_kcp k
                   (set_recvbuf
                      ((flag :: data)
                       ++ skipn (Z.to_nat (PeekSize (kcp (strm w))))
                            (if len (recvbuf (strm w))
                                <? PeekSize (kcp (strm w))
                             then repeat x00
                                    (Z.to_nat (PeekSize (kcp (strm w))))
                             else recvbuf (strm w)))
                      (strm w))) /\
    wakes w' = wakes w.
Proof.
  intros Hb Hp Hr Hk. unfold recv_window in Hr. cbv zeta in Hr.
  assert (Hflag : Byte.eqb flag PSH = false).
  { unfold known_tag in Hk.
    repeat (apply orb_false_elim in Hk; destruct Hk as [Hk ?]). exact Hk. }
  unfold Read_body, add_BytesReceived, skip. mrun.
  rewrite Hb. change (0 <? len (@nil byte)) with false. cbv iota.
  destruct (Z.ltb_spec 0 (PeekSize (kcp (strm w)))) as [_|]; [|lia].
  assert (Hd : slice_from 1 (flag :: data) = Some data).
  { rewrite slice_from_ok; [reflexivity|].
    rewrite len_cons. pose proof (len_nonneg data). lia. }
  destruct (Z.ltb_spec (len (recvbuf (strm w))) (PeekSize (kcp (strm w))))
    as [Hlt|Hge]; mrun.
  - rewrite slice_to_ok by (rewrite len_repeat; lia). mrun.
    rewrite Hr. mrun. change (index 0 (flag :: data)) with (Some flag). mrun.
    rewrite Hd. mrun. rewrite cmdRead_unknown by exact Hk. mrun.
    change (0 + 1) with 1. rewrite Hd. mrun.
    rewrite Hflag. eexists. split; [reflexivity|]. st. split; reflexivity.
  - rewrite slice_to_ok by lia. mrun.
    rewrite Hr. mrun. change (index 0 (flag :: data)) with (Some flag). mrun.
    rewrite Hd. mrun. rewrite cmdRead_unknown by exact Hk. mrun.
    change (0 + 1) with 1. rewrite Hd. mrun.
    rewrite Hflag. eexists. split; [reflexivity|]. st. split; reflexivity.
Qed.


(** C2, as the code has it.  A message whose tag is none of the five makes
    the Read that consumes it return no bytes and the stream-flag error;
    the stream is not reset: the reset signal stays open, the reset once is
    untouched and the engine is as [Recv] left it (its buffers are not
    released); the rest of the message stays behind the read cursor. *)
Theorem Read_unknown_tag (w : World) (b : list byte) flag data k :
  chClose (strm w) = false -> chRst (strm w) = false ->
  chRecvFinEvent (strm w) = false ->
  bufptr (strm w) = [] ->
  0 < PeekSize (kcp (strm w)) ->
  Recv (kcp (strm w)) (recv_window (strm w)) = (flag :: data, k) ->
  known_tag flag = false ->
  exists w',
    Read b w = Ret (0, Some errStreamFlag, b) w' /\
    chRst (strm w') = false /\
    rstOnce (strm w') = rstOnce (strm w) /\
    kcp (strm w') = k /\
    bufptr (strm w') = data.
Proof.
  intros Hc Hr Hf Hb Hp Hm Hk.
  destruct (Read_body_unknown w b flag data k Hb Hp Hm Hk)
    as (w1 & Hbody & Hs & _).
  unfold Read, select_default, read_entry_cases. munfold.
  rewrite Hc, Hr, Hf. cbn [ready filter map fst].
  rewrite loop_select_eq, Hbody.
  eexists. split; [reflexivity|]. st. rewrite Hs. st.
  repeat split; try reflexivity. exact Hr.
Qed.

(** ** The dispatcher *)

Lemma range_nil (lo hi : Z) : hi <= lo -> range lo hi = [].
Proof.
  intros H. unfold range. replace (Z.to_nat (hi - lo)) with 0%nat by lia.
  reflexivity.
Qed.

Lemma range_cons (lo hi : Z) : lo < hi -> range lo hi = lo :: range (lo + 1) hi.
Proof.
  intros H. unfold range.
  replace (Z.to_nat (hi - lo)) with (S (Z.to_nat (hi - (lo + 1)))) by lia.
  cbn [seq map]. f_equal; [lia|].
  rewrite <- seq_shift, map_map. apply map_ext. intros k. lia.
Qed.

Lemma range_length (lo hi : Z) : length (range lo hi) = Z.to_nat (hi - lo).
Proof. unfold range. rewrite length_map, length_seq. reflexivity. Qed.

Lemma index_nth {A} (i : Z) (l : list A) :
  0 <= i -> index i l = nth_error l (Z.to_nat i).
Proof. intros H. unfold index. destruct (Z.leb_spec 0 i); [reflexivity|lia]. Qed.

Lemma index_Some {A} (i : Z) (l : list A) :
  0 <= i < len l -> exists x, index i l = Some x.
Proof.
  intros H. rewrite index_nth by lia.
  destruct (nth_error l (Z.to_nat i)) eqn:E; [eauto|].
  apply nth_error_None in E. unfold len in H. lia.
Qed.

Lemma store_ok {A} (i : Z) (x : A) (l : list A) :
  0 <= i < len l ->
  store i x l
  = Some (firstn (Z.to_nat i) l ++ x :: skipn (S (Z.to_nat i)) l).
Proof.
  intros H. unfold store.
  destruct (Z.leb_spec 0 i); [|lia]. destruct (Z.ltb_spec i (len l)); [|lia].
  reflexivity.
Qed.

Lemma nth_error_replace {A} (n : nat) (x : A) (l : list A) (j : nat) :
  (n < length l)%nat ->
  nth_error (firstn n l ++ x :: skipn (S n) l) j
  = if Nat.eqb j n then Some x else nth_error l j.
Proof.
  revert l j. induction n as [|n IH]; intros [|y l] j Hn;
    cbn [length] in Hn; try lia.
  - destruct j; reflexivity.
  - destruct j as [|j]; [reflexivity|].
    cbn [firstn skipn app nth_error Nat.eqb]. apply IH. lia.
Qed.

Lemma length_replace {A} (n : nat) (x : A) (l : list A) :
  (n < length l)%nat ->
  length (firstn n l ++ x :: skipn (S n) l) = length l.
Proof.
  intros H. rewrite length_app, length_firstn. cbn [length].
  rewrite length_skipn. lia.
Qed.

(** The datagram [stamp] builds: the UUID, then the segment from byte 16
    on, whatever the pool buffer held. *)
Lemma stamp_ok (buf : list byte) (w : World) :
  len (uuid (strm w)) = uuid_Size ->
  uuid_Size <= len buf <= len xmitBuf ->
  stamp buf w
  = Ret (uuid (strm w) ++ skipn (Z.to_nat uuid_Size) buf) w.
Proof.
  intros Hu Hb. unfold stamp. mrun.
  rewrite slice_to_ok by (unfold uuid_Size in *; lia). mrun.
  set (bts := firstn (Z.to_nat (len buf)) xmitBuf).
  assert (Hbl : length bts = length buf).
  { unfold bts. rewrite length_firstn. unfold len in *. lia. }
  assert (Hul : length (uuid (strm w)) = 16%nat)
    by (unfold len, uuid_Size in Hu; lia).
  assert (Hbuf : (16 <= length buf)%nat)
    by (unfold len, uuid_Size in Hb; lia).
  assert (Hc : copy bts (uuid (strm w))
               = uuid (strm w) ++ skipn 16 bts).
  { unfold copy. rewrite firstn_all2 by lia. rewrite Hul. reflexivity. }
  rewrite Hc.
  assert (H1 : 0 <= uuid_Size <= len (uuid (strm w) ++ skipn 16 bts)).
  { unfold len, uuid_Size. rewrite length_app, length_skipn. lia. }
  rewrite (slice_from_ok _ _ H1). mrun.
  rewrite (slice_from_ok uuid_Size buf) by (unfold len, uuid_Size in *; lia).
  mrun.
  change (Z.to_nat uuid_Size) with 16%nat.
  rewrite skipn_app, firstn_app, Hul.
  rewrite (skipn_all2 (uuid (strm w))) by lia.
  rewrite (firstn_all2 (uuid (strm w))) by lia.
  change (16 - 16)%nat with 0%nat. rewrite skipn_O, firstn_O.
  cbn [app]. rewrite app_nil_r.
  unfold copy. rewrite !length_skipn, Hbl.
  rewrite (firstn_all2 (skipn 16 buf)) by (rewrite length_skipn; lia).
  rewrite (skipn_all2 (skipn 16 bts)) by (rewrite length_skipn; lia).
  rewrite app_nil_r. reflexivity.
Qed.

Lemma grow_loop {A} (l : list A) (w : World) :
  exists w',
    for_each l (fun _ => grow) w = Ret tt w' /\
    strm w' = set_msgss (msgss (strm w) ++ repeat [] (length l)) (strm w).
Proof.
  revert w. induction l as [|x l IH]; intros w.
  - exists w. split; [reflexivity|]. cbn [length repeat].
    rewrite app_nil_r. destruct (strm w); reflexivity.
  - cbn [for_each]. unfold grow at 1. mrun.
    destruct (IH (with_strm (set_msgss (msgss (strm w) ++ [[]]) (strm w)) w))
      as (w' & Hr & Hs).
    exists w'. split; [exact Hr|]. rewrite Hs. st.
    cbn [length repeat]. rewrite <- app_assoc. reflexivity.
Qed.

(** One copy queued. *)
Lemma queue_copy_ok (buf : list byte) (i : Z) (w : World) a q :
  len (uuid (strm w)) = uuid_Size ->
  uuid_Size <= len buf <= len xmitBuf ->
  0 <= i ->
  nth_error (remotes (strm w)) (Z.to_nat i) = Some a ->
  nth_error (msgss (strm w)) (Z.to_nat i) = Some q ->
  queue_copy buf i w
  = Ret tt
      (with_strm
         (set_msgss
            (firstn (Z.to_nat i) (msgss (strm w))
             ++ (q ++ [mkMessage
                         [uuid (strm w) ++ skipn (Z.to_nat uuid_Size) buf] a])
                :: skipn (S (Z.to_nat i)) (msgss (strm w)))
            (strm w))
         w).
Proof.
  intros Hu Hb Hi Ha Hq. unfold queue_copy. unfold bind at 1.
  rewrite stamp_ok by assumption. mrun.
  rewrite !index_nth by lia. rewrite Ha, Hq. mrun.
  rewrite store_ok; [reflexivity|].
  assert (Z.to_nat i < length (msgss (strm w)))%nat
    by (apply nth_error_Some; rewrite Hq; discriminate).
  unfold len. lia.
Qed.


(** The second loop of [output], from tunnel [lo] on: one message more in
    each of the queues [lo .. lo + n - 1], the others as they were. *)
Lemma copy_loop (buf : list byte) (n : nat) :
  forall (lo : Z) (w : World),
    len (uuid (strm w)) = uuid_Size ->
    uuid_Size <= len buf <= len xmitBuf ->
    0 <= lo ->
    lo + Z.of_nat n <= len (remotes (strm w)) ->
    lo + Z.of_nat n <= len (msgss (strm w)) ->
    exists w' qs,
      for_each (range lo (lo + Z.of_nat n)) (queue_copy buf) w = Ret tt w' /\
      strm w' = set_msgss qs (strm w) /\
      length qs = length (msgss (strm w)) /\
      forall j : nat,
        nth_error qs j
        = if (Z.to_nat lo <=? j)%nat && (j <? Z.to_nat lo + n)%nat
          then match nth_error (msgss (strm w)) j, copy_for (strm w) buf j with
               | Some q, Some m => Some (q ++ [m])
               | _, _ => None
               end
          else nth_error (msgss (strm w)) j.
Proof.
  induction n as [|n IH]; intros lo w Hu Hb Hlo Hr Hm.
  - rewrite range_nil by lia. exists w, (msgss (strm w)).
    split; [reflexivity|]. split; [destruct (strm w); reflexivity|].
    split; [reflexivity|]. intros j.
    destruct (Nat.leb_spec (Z.to_nat lo) j); [|reflexivity].
    destruct (Nat.ltb_spec j (Z.to_nat lo + 0)); [lia|reflexivity].
  - rewrite range_cons by lia. cbn [for_each]. unfold bind at 1.
    assert (Hlr : (Z.to_nat lo < length (remotes (strm w)))%nat)
      by (unfold len in Hr; lia).
    assert (Hlm : (Z.to_nat lo < length (msgss (strm w)))%nat)
      by (unfold len in Hm; lia).
    destruct (nth_error (remotes (strm w)) (Z.to_nat lo)) as [a|] eqn:Ea;
      [|apply nth_error_None in Ea; lia].
    destruct (nth_error (msgss (strm w)) (Z.to_nat lo)) as [q|] eqn:Eq;
      [|apply nth_error_None in Eq; lia].
    rewrite (queue_copy_ok buf lo w a q Hu Hb Hlo Ea Eq).
    set (m := mkMessage [uuid (strm w) ++ skipn (Z.to_nat uuid_Size) buf] a).
    set (q1 := firstn (Z.to_nat lo) (msgss (strm w))
               ++ (q ++ [m]) :: skipn (S (Z.to_nat lo)) (msgss (strm w))).
    set (w1 := with_strm (set_msgss q1 (strm w)) w).
    assert (Hl1 : length q1 = length (msgss (strm w)))
      by (apply length_replace; exact Hlm).
    destruct (IH (lo + 1) w1) as (w' & qs & Hrun & Hs & Hlen & Hnth).
    + exact Hu.
    + exact Hb.
    + lia.
    + unfold w1. st. lia.
    + unfold w1. st. unfold len in *. lia.
    + replace (lo + Z.of_nat (S n)) with (lo + 1 + Z.of_nat n) by lia.
      exists w', qs. split; [exact Hrun|].
      split; [rewrite Hs; unfold w1; st; reflexivity|].
      split; [rewrite Hlen; unfold w1; st; exact Hl1|].
      intros j. rewrite Hnth. unfold w1. st. unfold copy_for. st.
      unfold q1. rewrite nth_error_replace by exact Hlm.
      replace (Z.to_nat (lo + 1)) with (S (Z.to_nat lo)) by lia.
      destruct (Nat.eqb_spec j (Z.to_nat lo)) as [->|Hne].
      * rewrite Eq, Ea. cbn [option_map].
        destruct (Nat.leb_spec (S (Z.to_nat lo)) (Z.to_nat lo)); [lia|].
        destruct (Nat.leb_spec (Z.to_nat lo) (Z.to_nat lo)); [|lia].
        destruct (Nat.ltb_spec (Z.to_nat lo) (Z.to_nat lo + S n)); [|lia].
        reflexivity.
      * destruct (Nat.leb_spec (S (Z.to_nat lo)) j),
                 (Nat.leb_spec (Z.to_nat lo) j),
                 (Nat.ltb_spec j (S (Z.to_nat lo) + n)),
                 (Nat.ltb_spec j (Z.to_nat lo + S n));
          try lia; reflexivity.
Qed.


Lemma parallelTun_frame (xmitMax : Z) (w : World) :
  exists k w0,
    parallelTun xmitMax w = Ret k w0 /\
    (k = 1 \/ k = len (tunnels (strm w))) /\
    exists e, strm w0 = set_parallelExpire e (strm w).
Proof.
  unfold parallelTun. mrun.
  repeat case_if; eexists _, _;
    (split; [reflexivity|]); (split; [auto|]); st;
    try (eexists; reflexivity).
  all: exists (parallelExpire (strm w)); destruct (strm w); reflexivity.
Qed.

Lemma nth_error_grown {A} (qs : list (list A)) (g i : nat) :
  (i < length qs + g)%nat ->
  nth_error (qs ++ repeat [] g) i
  = Some (match nth_error qs i with Some q => q | None => [] end).
Proof.
  intros H. destruct (Nat.lt_ge_cases i (length qs)) as [Hlt|Hge].
  - rewrite nth_error_app1 by exact Hlt.
    destruct (nth_error qs i) eqn:E; [reflexivity|].
    apply nth_error_None in E. lia.
  - rewrite nth_error_app2 by exact Hge.
    rewrite (proj2 (nth_error_None qs i) Hge).
    apply nth_error_repeat. lia.
Qed.

Lemma stamped_shape (u buf : list byte) :
  len u = uuid_Size -> uuid_Size <= len buf ->
  let d := u ++ skipn (Z.to_nat uuid_Size) buf in
  firstn (Z.to_nat uuid_Size) d = u /\
  skipn (Z.to_nat uuid_Size) d = skipn (Z.to_nat uuid_Size) buf /\
  len d = len buf.
Proof.
  unfold len, uuid_Size. intros Hu Hb. cbv zeta.
  change (Z.to_nat 16) with 16%nat.
  assert (Hl : length u = 16%nat) by lia.
  rewrite firstn_app, skipn_app, Hl. change (16 - 16)%nat with 0%nat.
  rewrite firstn_O, skipn_O, app_nil_r.
  rewrite (firstn_all2 u) by lia. rewrite (skipn_all2 u) by lia.
  repeat split. rewrite length_app, length_skipn. lia.
Qed.

(** What [output] does, queue by queue: [k] is the replication factor,
    [g] the number of queues the first loop adds. *)
Lemma output_run (w : World) (buf : list byte) (xmitMax : Z) :
  len (uuid (strm w)) = uuid_Size ->
  uuid_Size <= len buf <= len xmitBuf ->
  1 <= len (remotes (strm w)) ->
  len (tunnels (strm w)) <= len (remotes (strm w)) ->
  exists k w0 w' e qs,
    parallelTun xmitMax w = Ret k w0 /\
    (k = 1 \/ k = len (tunnels (strm w))) /\
    output buf xmitMax w = Ret tt w' /\
    strm w' = set_msgss qs (set_parallelExpire e (strm w)) /\
    let grown := msgss (strm w)
                 ++ repeat [] (Z.to_nat (k - len (msgss (strm w)))) in
    length qs = length grown /\
    forall j : nat,
      nth_error qs j
      = if (j <? Z.to_nat k)%nat
        then match nth_error grown j, copy_for (strm w) buf j with
             | Some q, Some m => Some (q ++ [m])
             | _, _ => None
             end
        else nth_error grown j.
Proof.
  intros Hu Hb Hr Ht.
  destruct (parallelTun_frame xmitMax w) as (k & w0 & Hk & Hkv & e & Hs0).
  assert (Hk0 : 0 <= k <= len (remotes (strm w))).
  { pose proof (len_nonneg (tunnels (strm w))). destruct Hkv; lia. }
  set (g := length (range (len (msgss (strm w0))) k)).
  destruct (grow_loop (range (len (msgss (strm w0))) k) w0)
    as (w1 & Hg & Hs1).
  fold g in Hs1.
  assert (Hm0 : msgss (strm w0) = msgss (strm w)) by (rewrite Hs0; reflexivity).
  assert (Hg1 : msgss (strm w1) = msgss (strm w) ++ repeat [] g)
    by (rewrite Hs1, Hm0; reflexivity).
  assert (Hgl : g = Z.to_nat (k - len (msgss (strm w))))
    by (unfold g; rewrite range_length, Hm0; reflexivity).
  assert (Hu1 : uuid (strm w1) = uuid (strm w))
    by (rewrite Hs1, Hs0; reflexivity).
  assert (Hr1 : remotes (strm w1) = remotes (strm w))
    by (rewrite Hs1, Hs0; reflexivity).
  destruct (copy_loop buf (Z.to_nat k) 0 w1) as (w' & qs & Hc & Hs & Hl & Hn).
  { rewrite Hu1. exact Hu. }
  { exact Hb. }
  { lia. }
  { rewrite Hr1. lia. }
  { rewrite Hg1, len_app, len_repeat. unfold len in *. lia. }
  exists k, w0, w', e, qs. split; [exact Hk|]. split; [exact Hkv|]. split.
  { unfold output. unfold bind at 1. rewrite Hk. unfold bind at 1, get at 1.
    unfold bind at 1. rewrite Hg.
    replace (range 0 k) with (range 0 (0 + Z.of_nat (Z.to_nat k)))
      by (f_equal; lia).
    exact Hc. }
  split; [rewrite Hs, Hs1, Hs0; reflexivity|].
  cbv zeta. rewrite <- Hgl, <- Hg1. split; [exact Hl|].
  intros j. rewrite Hn. change (Z.to_nat 0) with 0%nat.
  cbn [Nat.leb andb Nat.add]. unfold copy_for. rewrite Hu1, Hr1.
  reflexivity.
Qed.

(** C5.  Every copy [output] queues: the queue of tunnel [i], for each [i]
    below the replication factor [k], gets one message more, whose single
    buffer holds the stream UUID in bytes [0, 16) and the bytes of the
    segment from 16 on, has the length of the segment, and is addressed to
    [remotes[i]]; the other queues are left as they were.  The segment is
    at least 16 bytes long (the engine's callback passes on nothing
    shorter) and fits a pool buffer, and there is a remote for each
    tunnel. *)
Theorem output_stamps (w : World) (buf : list byte) (xmitMax : Z) :
  len (uuid (strm w)) = uuid_Size ->
  uuid_Size <= len buf <= len xmitBuf ->
  1 <= len (remotes (strm w)) ->
  len (tunnels (strm w)) <= len (remotes (strm w)) ->
  exists k w0 w',
    parallelTun xmitMax w = Ret k w0 /\
    output buf xmitMax w = Ret tt w' /\
    forall i, 0 <= i ->
      (i < k ->
       exists d a,
         index i (msgss (strm w'))
         = Some (queue_at i (msgss (strm w)) ++ [mkMessage [d] a]) /\
         index i (remotes (strm w)) = Some a /\
         firstn (Z.to_nat uuid_Size) d = uuid (strm w) /\
         skipn (Z.to_nat uuid_Size) d = skipn (Z.to_nat uuid_Size) buf /\
         len d = len buf) /\
      (k <= i -> index i (msgss (strm w')) = index i (msgss (strm w))).
Proof.
  intros Hu Hb Hr Ht.
  destruct (output_run w buf xmitMax Hu Hb Hr Ht)
    as (k & w0 & w' & e & qs & Hk & Hkv & Ho & Hs & _ & Hn).
  assert (Hk0 : 0 <= k <= len (remotes (strm w))).
  { pose proof (len_nonneg (tunnels (strm w))). destruct Hkv; lia. }
  exists k, w0, w'. split; [exact Hk|]. split; [exact Ho|].
  intros i Hi.
  assert (Hq : msgss (strm w') = qs) by (rewrite Hs; reflexivity).
  rewrite Hq. rewrite !index_nth by exact Hi. rewrite Hn.
  unfold copy_for. split.
  - intros Hik.
    destruct (Nat.ltb_spec (Z.to_nat i) (Z.to_nat k)); [|lia].
    rewrite nth_error_grown by (unfold len in *; lia).
    destruct (nth_error (remotes (strm w)) (Z.to_nat i)) as [a|] eqn:Ea;
      [|apply nth_error_None in Ea; unfold len in *; lia].
    cbn [option_map].
    exists (uuid (strm w) ++ skipn (Z.to_nat uuid_Size) buf), a.
    split.
    { unfold queue_at. rewrite index_nth by exact Hi. reflexivity. }
    split; [reflexivity|].
    apply stamped_shape; [exact Hu | lia].
  - intros Hik.
    destruct (Nat.ltb_spec (Z.to_nat i) (Z.to_nat k)); [lia|].
    destruct (Nat.lt_ge_cases (Z.to_nat i) (length (msgss (strm w))))
      as [Hlt|Hge].
    + apply nth_error_app1. exact Hlt.
    + rewrite (proj2 (nth_error_None (msgss (strm w)) _) Hge).
      apply nth_error_None. rewrite length_app, repeat_length.
      unfold len in *. lia.
Qed.

(** ** The count Write returns *)

Lemma slice_from_len {A} (n : Z) (l l' : list A) :
  slice_from n l = Some l' -> len l' = len l - n.
Proof.
  unfold slice_from. intros H.
  destruct (Z.leb_spec 0 n); [|discriminate].
  destruct (Z.leb_spec n (len l)); [|discriminate].
  inversion H. unfold len in *. rewrite length_skipn. lia.
Qed.

(** The inner loop only ever cuts bytes off the front of [b]. *)
Lemma send_loop_shrinks (fuel : nat) (flag : byte) :
  forall (b : list byte) (w : World) b' w',
    send_loop fuel flag b w = Ret b' w' -> len b' <= len b.
Proof.
  induction fuel as [|fuel IH]; intros b w b' w' H; [discriminate|].
  cbn [send_loop] in H. unfold bind at 1, get at 1 in H.
  destruct (len b <? kcp_mss (kcp (strm w))).
  - unfold bind in H.
    destruct (frame flag b w) as [[] w1| | |]; try discriminate.
    destruct (submit (len b + 1) w1) as [[] w2| | |]; try discriminate.
    inversion H; subst. lia.
  - unfold bind in H.
    destruct (must (slice_to _ b) w) as [hd w1| | |]; try discriminate.
    destruct (frame flag hd w1) as [[] w2| | |]; try discriminate.
    destruct (submit _ w2) as [[] w3| | |]; try discriminate.
    unfold get at 1 in H.
    destruct (slice_from (uint32 (kcp_mss (kcp (strm w3)) - 1)) b)
      as [b1|] eqn:E; [|discriminate].
    cbn [must] in H. unfold ret in H.
    apply IH in H. apply slice_from_len in E.
    assert (0 <= uint32 (kcp_mss (kcp (strm w3)) - 1))
      by (unfold uint32; apply Z.mod_pos_bound; lia).
    lia.
Qed.

Lemma frame_kcp (flag : byte) (payload : list byte) (w : World) u w' :
  frame flag payload w = Ret u w' -> kcp (strm w') = kcp (strm w).
Proof.
  unfold frame. mrun. intros H.
  destruct (store 0 flag (sendbuf (strm w))) as [sb|]; [|discriminate].
  mrun. destruct (slice_from 1 sb); [|discriminate].
  inversion H. reflexivity.
Qed.

Lemma submit_kcp (n : Z) (w : World) u w' :
  submit n w = Ret u w' ->
  exists seg, kcp (strm w') = Send (kcp (strm w)) seg.
Proof.
  unfold submit. mrun. intros H.
  destruct (slice_to n (sendbuf (strm w))) as [seg|]; [|discriminate].
  inversion H. exists seg. reflexivity.
Qed.

(** When [b] does not fit one segment, what is left of it after the loop
    is shorter than [b], for an engine whose [Send] leaves [mss] alone. *)
Lemma send_loop_tail (fuel : nat) (flag : byte) (b : list byte)
    (w : World) b' w' :
  (forall k seg, kcp_mss (Send k seg) = kcp_mss k) ->
  2 <= kcp_mss (kcp (strm w)) < 2 ^ 32 ->
  kcp_mss (kcp (strm w)) <= len b ->
  send_loop fuel flag b w = Ret b' w' -> len b' < len b.
Proof.
  intros Hsend Hm Hb H. destruct fuel as [|fuel]; [discriminate|].
  cbn [send_loop] in H. unfold bind at 1, get at 1 in H.
  destruct (Z.ltb_spec (len b) (kcp_mss (kcp (strm w)))); [lia|].
  unfold bind in H.
  destruct (must (slice_to _ b) w) as [hd w1| | |] eqn:E1; try discriminate.
  destruct (frame flag hd w1) as [[] w2| | |] eqn:E2; try discriminate.
  destruct (submit _ w2) as [[] w3| | |] eqn:E3; try discriminate.
  unfold get at 1 in H.
  assert (Hk : kcp_mss (kcp (strm w3)) = kcp_mss (kcp (strm w))).
  { destruct (submit_kcp _ _ _ _ E3) as (seg & ->). rewrite Hsend.
    rewrite (frame_kcp _ _ _ _ _ E2).
    unfold must in E1. destruct (slice_to _ b); [|discriminate].
    inversion E1. reflexivity. }
  rewrite Hk in H.
  destruct (slice_from (uint32 (kcp_mss (kcp (strm w)) - 1)) b)
    as [b1|] eqn:E; [|discriminate].
  cbn [must] in H. unfold ret in H.
  apply send_loop_shrinks in H. apply slice_from_len in E.
  unfold uint32 in E. rewrite Z.mod_small in E by lia. lia.
Qed.

(** A write that goes through while the window is open returns the length
    of what the inner loop left of [b]: less than [len b] as soon as [b]
    does not fit one segment. *)
Lemma WriteBuffer_body_count (flag : byte) (b : list byte) (w : World)
    n e w' :
  (forall k seg, kcp_mss (Send k seg) = kcp_mss k) ->
  window_open (strm w) = true ->
  2 <= kcp_mss (kcp (strm w)) < 2 ^ 32 ->
  kcp_mss (kcp (strm w)) <= len b ->
  WriteBuffer_body flag b w = Ret (inl (n, e)) w' ->
  n < len b /\ e = None.
Proof.
  intros Hsend Ho Hm Hb H. unfold WriteBuffer_body in H.
  unfold bind at 1, get at 1 in H. rewrite Ho in H.
  unfold bind at 1 in H.
  destruct (send_loop (S (length b)) flag b w) as [b' w1| | |] eqn:E;
    try discriminate.
  apply (send_loop_tail _ _ _ _ _ _ Hsend Hm Hb) in E.
  unfold bind at 1, get at 1 in H. unfold bind at 1 in H.
  match type of H with
  | match ?c with _ => _ end = _ =>
      destruct c as [[] w2| | |]; try discriminate
  end.
  unfold bind, add_BytesSent, ret in H. inversion H; subst.
  split; [exact E | reflexivity].
Qed.

(** ** A writer parked when the send side is closed *)

(** A writer that finds the window full and no deadline set, and is woken
    with nothing but the send-FIN signal closed, returns EOF. *)
Lemma WriteBuffer_parked_send_fin (flag : byte) (b : list byte)
    (w : World) (k : wake) (ws : list wake) :
  chClose (strm w) = false -> chRst (strm w) = false ->
  chSendFinEvent (strm w) = false ->
  window_open (strm w) = false -> wd (strm w) = 0 ->
  wakes w = k :: ws ->
  chClose (wk_env k (strm w)) = false ->
  chRst (wk_env k (strm w)) = false ->
  chSendFinEvent (wk_env k (strm w)) = true ->
  chWriteEvent (wk_env k (strm w)) = false ->
  exists w', WriteBuffer flag b w = Ret (0, Some EOF) w'.
Proof.
  intros Hc Hr Hf Ho Hd Hw Hc' Hr' Hf' He'.
  unfold WriteBuffer, select_default, write_entry_cases. munfold.
  rewrite Hc, Hr, Hf. cbn [ready filter map fst].
  rewrite loop_select_eq.
  assert (Hb : WriteBuffer_body flag b w = Ret (inr None) w).
  { unfold WriteBuffer_body, deadline. munfold. rewrite Ho, Hd.
    reflexivity. }
  rewrite Hb, Hw. cbn [parked_sel].
  unfold wake_select, write_wait_cases, wake_apply. st.
  rewrite Hc', Hr', Hf', He'. cbn [timer_ready ready filter map fst snd].
  destruct (pop_pick _) as [p w2]. rewrite choose_one.
  cbn [WriteBuffer_wake]. unfold ret. eexists. reflexivity.
Qed.

(** ** A SYN without endpoints *)

(** The check [len(remotes) == 0] in [recvSyn] never fires; an empty
    payload goes on to the selector and to the resolver as the one
    endpoint [""], and is accepted when they accept it. *)
Lemma recvSyn_empty_payload (w : World) (a : NetAddr) :
  recvSynOnce (strm w) = false ->
  len (sel (strm w) [[]]) = 1 ->
  ResolveUDPAddr [] = Some a ->
  recvSyn [] w
  = Ret (0, None)
      (with_strm
         (set_remotes [a]
            (set_tunnels (sel (strm w) [[]])
               (set_recvSynOnce true (strm w))))
         w).
Proof.
  intros Hd Hs Ha. unfold recvSyn, once_Do. munfold. rewrite Hd.
  cbn [negb Split]. change (len [[]] =? 0) with false. st.
  rewrite Hs. cbn [Z.eqb orb negb Pos.eqb].
  change (len [[]]) with 1. cbn [Z.eqb orb negb Pos.eqb resolve_all].
  rewrite Ha. reflexivity.
Qed.

(** ** Calls that return *)

Lemma output_ok (w : World) (buf : list byte) (xmitMax : Z) :
  stream_ok (strm w) ->
  uuid_Size <= len buf <= len xmitBuf ->
  exists w', output buf xmitMax w = Ret tt w' /\ stream_ok (strm w').
Proof.
  intros (Hu & Hh & Ht & Hr & Hm) Hb.
  destruct (output_run w buf xmitMax Hu Hb Hr ltac:(lia))
    as (k & w0 & w' & e & qs & _ & Hkv & Ho & Hs & Hl & _).
  exists w'. split; [exact Ho|]. rewrite Hs. unfold stream_ok. st.
  repeat split; try assumption.
  cbv zeta in Hl. unfold len in *. rewrite Hl, length_app, repeat_length.
  destruct Hkv; lia.
Qed.

Lemma kcp_output_ok (w : World) (e : emission) :
  0 <= IKCP_OVERHEAD ->
  stream_ok (strm w) -> emission_ok e ->
  exists w', kcp_output e w = Ret tt w' /\ stream_ok (strm w').
Proof.
  intros H0 Hs [Hsz Hx]. destruct e as [[buf size] x]. cbn [fst snd] in *.
  unfold kcp_output. mrun.
  destruct (Z.leb_spec (IKCP_OVERHEAD + headerSize (strm w)) size) as [Hg|Hg].
  - rewrite slice_to_ok by exact Hsz. mrun.
    apply output_ok; [exact Hs|].
    destruct Hs as (_ & Hh & _). unfold len in *.
    rewrite length_firstn. lia.
  - exists w. split; [reflexivity | exact Hs].
Qed.

Lemma emissions_ok (out : list emission) (w : World) :
  0 <= IKCP_OVERHEAD ->
  stream_ok (strm w) -> Forall emission_ok out ->
  exists w', for_each out kcp_output w = Ret tt w' /\ stream_ok (strm w').
Proof.
  intros H0 Hs Ho. revert w Hs.
  induction Ho as [|e out He Ho IH]; intros w Hs.
  - exists w. split; [reflexivity | exact Hs].
  - cbn [for_each]. unfold bind at 1.
    destruct (kcp_output_ok w e H0 Hs He) as (w1 & -> & Hs1).
    apply IH. exact Hs1.
Qed.

Lemma tunnel_outputs_ok (batches : list (list Message)) :
  forall (i : Z) (w : World),
    0 <= i -> i + len batches <= len (tunnels (strm w)) ->
    exists w',
      for_each (enumerate i batches) hand_over w = Ret tt w' /\
      strm w' = strm w.
Proof.
  induction batches as [|msgs batches IH]; intros i w Hi Hl.
  - exists w. split; reflexivity.
  - rewrite len_cons in Hl. pose proof (len_nonneg batches).
    cbn [enumerate for_each hand_over]. unfold bind at 1.
    destruct (0 <? len msgs).
    + unfold tunnel_output. mrun.
      destruct (index_Some i (tunnels (strm w)) ltac:(lia)) as (t & ->).
      mrun.
      destruct (IH (i + 1) (with_wire (wire w ++ [(t, msgs)]) w))
        as (w' & Hr & Hs); [lia | st; lia |].
      exists w'. split; [exact Hr | exact Hs].
    + unfold skip, ret.
      destruct (IH (i + 1) w) as (w' & Hr & Hs); [lia | lia |].
      exists w'. split; [exact Hr | exact Hs].
Qed.

Lemma kcp_flush_now_ok (w : World) :
  0 <= IKCP_OVERHEAD -> engine_ok ->
  stream_ok (strm w) ->
  exists interval w',
    kcp_flush_now w = Ret interval w' /\ stream_ok (strm w').
Proof.
  intros H0 He Hs. unfold kcp_flush_now. mrun.
  pose proof (He (kcp (strm w)) (clock w) false) as Hout.
  destruct (kcp_flush (kcp (strm w)) (clock w) false) as [[k out] iv].
  cbn [fst snd] in Hout. mrun.
  destruct (emissions_ok out (with_strm (set_kcp k (strm w)) w) H0)
    as (w1 & Hr & Hs1); [exact Hs | exact Hout |].
  rewrite Hr. exists iv, w1. split; [reflexivity | exact Hs1].
Qed.

(** [flush] returns for a well-formed stream and engine. *)
Lemma flush_ok (kcpFlush : bool) (w : World) :
  0 <= IKCP_OVERHEAD -> engine_ok ->
  stream_ok (strm w) ->
  exists interval w',
    flush kcpFlush w = Ret interval w' /\ stream_ok (strm w').
Proof.
  intros H0 He Hs. unfold flush. unfold bind at 1.
  assert (Hk : exists iv w1,
             (if kcpFlush then kcp_flush_now else ret 0) w = Ret iv w1 /\
             stream_ok (strm w1)).
  { destruct kcpFlush; [apply kcp_flush_now_ok; assumption|].
    exists 0, w. split; [reflexivity | exact Hs]. }
  destruct Hk as (iv & w1 & -> & Hs1).
  unfold notifyWriteEvent, skip. mrun.
  destruct (len (msgss (strm w1)) =? 0).
  - destruct (window_open (strm w1)); mrun;
      eexists _, _; (split; [reflexivity|]); exact Hs1.
  - destruct Hs1 as (Hu & Hh & Ht & Hr & Hm).
    destruct (window_open (strm w1)); mrun.
    all: match goal with
         | |- context [for_each _ hand_over ?w2] =>
             destruct (tunnel_outputs_ok (msgss (strm w1)) 0 w2)
               as (w' & Hrun & Hs'); [lia | st; lia |]
         end.
    all: rewrite Hrun; eexists _, _; (split; [reflexivity|]).
    all: rewrite Hs'; unfold stream_ok; st; rewrite len_nil.
    all: repeat split; try assumption; lia.
Qed.

(** A write of no bytes, as Close, CloseWrite and the heartbeat make it,
    goes through under the mutex when the window is open. *)
Lemma WriteBuffer_body_empty (flag : byte) (w : World) :
  0 <= IKCP_OVERHEAD -> engine_ok ->
  stream_ok (strm w) ->
  window_open (strm w) = true ->
  1 <= kcp_mss (kcp (strm w)) ->
  1 <= len (sendbuf (strm w)) ->
  exists w', WriteBuffer_body flag [] w = Ret (inl (0, None)) w'.
Proof.
  intros H0 He Hs Ho Hm Hb. unfold WriteBuffer_body.
  unfold bind at 1, get at 1. rewrite Ho. unfold bind at 1.
  cbn [length send_loop]. unfold bind at 1, get at 1.
  destruct (Z.ltb_spec (len (@nil byte)) (kcp_mss (kcp (strm w))))
    as [_|Hge]; [|rewrite len_nil in Hge; lia].
  unfold frame, submit. mrun.
  rewrite store_ok by lia. mrun.
  set (sb := firstn (Z.to_nat 0) (sendbuf (strm w))
             ++ flag :: skipn (S (Z.to_nat 0)) (sendbuf (strm w))).
  assert (Hsb : len sb = len (sendbuf (strm w))).
  { unfold len, sb. rewrite length_replace; [reflexivity|].
    unfold len in Hb. lia. }
  rewrite (slice_from_ok 1 sb) by lia. mrun.
  set (sb' := firstn 1 sb ++ copy (skipn (Z.to_nat 1) sb) []).
  assert (Hsb' : len sb' = len sb).
  { unfold len, sb', copy. rewrite firstn_nil. cbn [length].
    rewrite skipn_O. cbn [app].
    rewrite length_app, length_firstn, length_skipn.
    change (Z.to_nat 1) with 1%nat. unfold len in *. lia. }
  change (len [] + 1) with 1.
  rewrite (slice_to_ok 1 sb') by lia. mrun.
  unfold skip, add_BytesSent. mrun. case_if.
  - match goal with
    | |- context [flush true ?w1] =>
        destruct (flush_ok true w1 H0 He) as (iv & w2 & Hf & _);
          [exact Hs | rewrite Hf]
    end.
    eexists. reflexivity.
  - eexists. reflexivity.
Qed.

(** Such a write returns, whatever the terminal signals are. *)
Lemma WriteBuffer_empty_returns (flag : byte) (w : World) :
  0 <= IKCP_OVERHEAD -> engine_ok ->
  stream_ok (strm w) ->
  window_open (strm w) = true ->
  1 <= kcp_mss (kcp (strm w)) ->
  1 <= len (sendbuf (strm w)) ->
  exists r w',
    WriteBuffer flag [] w = Ret r w' /\
    forall (B : Type) (f : UDPStream -> B),
      write_blind f -> f (strm w') = f (strm w).
Proof.
  intros H0 He Hs Ho Hm Hb. unfold WriteBuffer. unfold bind at 1.
  destruct (select_default write_entry_cases w) as [e w1| | |] eqn:E.
  - assert (H1 : strm w1 = strm w).
    { unfold select_default in E. destruct (ready _).
      - inversion E; reflexivity.
      - pose proof (pop_pick_strm w) as Hp.
        destruct (pop_pick w) as [p w2]. inversion E; subst. exact Hp. }
    destruct e as [err|].
    + eexists _, _. split; [reflexivity|]. intros B f _. rewrite H1.
      reflexivity.
    + rewrite loop_select_eq.
      destruct (WriteBuffer_body_empty flag w1 H0 He) as (w2 & Hbody);
        try (rewrite H1; assumption).
      rewrite Hbody. eexists _, _. split; [reflexivity|].
      intros B f Hf. st.
      rewrite (keeps_WriteBuffer_body f Hf flag [] _ _ _ Hbody), H1.
      reflexivity.
  - unfold select_default in E. destruct (ready _); [discriminate|].
    destruct (pop_pick w); discriminate.
  - unfold select_default in E. destruct (ready _); [discriminate|].
    destruct (pop_pick w); discriminate.
  - unfold select_default in E. destruct (ready _); [discriminate|].
    destruct (pop_pick w); discriminate.
Qed.


(** Close on an open window: the RST goes out, Close returns nil, and
    every later Close returns closed-pipe and changes nothing. *)
Lemma Close_returns (w : World) (n : nat) :
  0 <= IKCP_OVERHEAD -> engine_ok ->
  stream_ok (strm w) ->
  window_open (strm w) = true ->
  1 <= kcp_mss (kcp (strm w)) ->
  1 <= len (sendbuf (strm w)) ->
  closeOnce (strm w) = false -> chClose (strm w) = false ->
  exists w1,
    Close w = Ret None w1 /\
    times (S n) Close w = Ret (None :: repeat (Some ErrClosedPipe) n) w1.
Proof.
  intros H0 He Hs Ho Hm Hb Hd Hc.
  destruct (WriteBuffer_empty_returns RST
              (with_strm (set_closeOnce true (strm w)) w) H0 He Hs Ho Hm Hb)
    as (r & w' & Hw & Hk).
  pose proof (Hk _ closeOnce write_blind_closeOnce) as H1.
  pose proof (Hk _ chClose write_blind_chClose) as H2.
  st. rewrite Hc in H2.
  pose proof (Close_first w r w' Hd Hw H2) as HC.
  exists (closed_from w'). split; [exact HC|].
  cbn [times]. unfold bind at 1. rewrite HC.
  unfold bind at 1. rewrite times_Close_again; [reflexivity|].
  unfold closed_from. st. exact H1.
Qed.

(** CloseWrite on an open window: the FIN goes out, and every call
    returns nil. *)
Lemma CloseWrite_returns (w : World) (n : nat) :
  0 <= IKCP_OVERHEAD -> engine_ok ->
  stream_ok (strm w) ->
  window_open (strm w) = true ->
  1 <= kcp_mss (kcp (strm w)) ->
  1 <= len (sendbuf (strm w)) ->
  sendFinOnce (strm w) = false -> chSendFinEvent (strm w) = false ->
  exists w1,
    CloseWrite w = Ret None w1 /\
    times (S n) CloseWrite w = Ret (None :: repeat None n) w1.
Proof.
  intros H0 He Hs Ho Hm Hb Hd Hc.
  destruct (WriteBuffer_empty_returns FIN
              (with_strm (set_sendFinOnce true (strm w)) w) H0 He Hs Ho Hm Hb)
    as (r & w' & Hw & Hk).
  pose proof (Hk _ sendFinOnce write_blind_sendFinOnce) as H1.
  pose proof (Hk _ chSendFinEvent write_blind_chSendFinEvent) as H2.
  st. rewrite Hc in H2.
  pose proof (CloseWrite_first w r w' Hd Hw H2) as HC.
  eexists. split; [exact HC|].
  cbn [times]. unfold bind at 1. rewrite HC.
  unfold bind at 1. rewrite times_CloseWrite_again; [reflexivity|].
  st. exact H1.
Qed.

(** C4.  Close and CloseWrite are idempotent.  On a stream whose send
    window is open the first Close returns nil, and [n] more calls return
    closed-pipe each and leave the world as the first call left it; the
    same holds, whatever the window, as soon as the RST write inside the
    first Close comes back from where it was parked.  Likewise for
    CloseWrite, where every call returns nil. *)
Theorem Close_CloseWrite_idempotent :
  (forall (w : World) (n : nat),
     0 <= IKCP_OVERHEAD -> engine_ok -> stream_ok (strm w) ->
     window_open (strm w) = true ->
     1 <= kcp_mss (kcp (strm w)) -> 1 <= len (sendbuf (strm w)) ->
     closeOnce (strm w) = false -> chClose (strm w) = false ->
     exists w1,
       Close w = Ret None w1 /\
       times (S n) Close w
       = Ret (None :: repeat (Some ErrClosedPipe) n) w1) /\
  (forall (w : World) (n : nat),
     0 <= IKCP_OVERHEAD -> engine_ok -> stream_ok (strm w) ->
     window_open (strm w) = true ->
     1 <= kcp_mss (kcp (strm w)) -> 1 <= len (sendbuf (strm w)) ->
     sendFinOnce (strm w) = false -> chSendFinEvent (strm w) = false ->
     exists w1,
       CloseWrite w = Ret None w1 /\
       times (S n) CloseWrite w = Ret (None :: repeat None n) w1) /\
  (forall (w : World) r w' (n : nat),
     closeOnce (strm w) = false -> chClose (strm w) = false ->
     undisturbed closeOnce (wakes w) -> undisturbed chClose (wakes w) ->
     WriteFlag RST [] (with_strm (set_closeOnce true (strm w)) w) = Ret r w' ->
     exists w1,
       Close w = Ret None w1 /\
       times (S n) Close w
       = Ret (None :: repeat (Some ErrClosedPipe) n) w1) /\
  (forall (w : World) r w' (n : nat),
     sendFinOnce (strm w) = false -> chSendFinEvent (strm w) = false ->
     undisturbed sendFinOnce (wakes w) ->
     undisturbed chSendFinEvent (wakes w) ->
     WriteFlag FIN [] (with_strm (set_sendFinOnce true (strm w)) w)
     = Ret r w' ->
     exists w1,
       CloseWrite w = Ret None w1 /\
       times (S n) CloseWrite w = Ret (None :: repeat None n) w1).
Proof.
  split; [|split; [|split]].
  - intros w n. apply Close_returns.
  - intros w n. apply CloseWrite_returns.
  - exact (proj1 Close_CloseWrite_after_write).
  - exact (proj2 Close_CloseWrite_after_write).
Qed.

(** ** The count Write returns, in full *)

Lemma copy_length {A} (dst src : list A) :
  length (copy dst src) = length dst.
Proof.
  unfold copy. rewrite length_app, length_firstn, length_skipn. lia.
Qed.

Lemma tail_len_small (l mss : Z) :
  0 <= l < mss -> tail_len l mss = l.
Proof.
  intros H. unfold tail_len. destruct (Z.eqb_spec l 0); [lia|].
  rewrite Z.mod_small by lia. lia.
Qed.

Lemma tail_len_step (l mss : Z) :
  2 <= mss -> mss <= l -> tail_len l mss = tail_len (l - (mss - 1)) mss.
Proof.
  intros Hm Hl. unfold tail_len.
  destruct (Z.eqb_spec l 0); [lia|].
  destruct (Z.eqb_spec (l - (mss - 1)) 0); [lia|].
  replace (l - 1) with (l - (mss - 1) - 1 + 1 * (mss - 1)) by lia.
  rewrite Z.mod_add by lia. reflexivity.
Qed.

Lemma tail_len_short (l mss : Z) :
  2 <= mss -> mss <= l -> 0 < tail_len l mss < mss.
Proof.
  intros Hm Hl. unfold tail_len. destruct (Z.eqb_spec l 0); [lia|].
  pose proof (Z.mod_pos_bound (l - 1) (mss - 1) ltac:(lia)). lia.
Qed.

Lemma frame_ok (flag : byte) (payload : list byte) (w : World) :
  1 <= len (sendbuf (strm w)) ->
  exists sb,
    frame flag payload w = Ret tt (with_strm (set_sendbuf sb (strm w)) w) /\
    len sb = len (sendbuf (strm w)).
Proof.
  intros Hb. unfold frame. mrun. rewrite store_ok by lia. mrun.
  set (sb := firstn (Z.to_nat 0) (sendbuf (strm w))
             ++ flag :: skipn (S (Z.to_nat 0)) (sendbuf (strm w))).
  assert (Hsb : len sb = len (sendbuf (strm w))).
  { unfold len, sb. rewrite length_replace; [reflexivity|].
    unfold len in Hb. lia. }
  rewrite (slice_from_ok 1 sb) by lia. mrun.
  eexists. split; [reflexivity|].
  unfold len in *. rewrite length_app, length_firstn, copy_length.
  rewrite length_skipn. change (Z.to_nat 1) with 1%nat. lia.
Qed.

Lemma submit_ok (n : Z) (w : World) :
  0 <= n <= len (sendbuf (strm w)) ->
  exists seg,
    submit n w = Ret tt (with_strm (set_kcp (Send (kcp (strm w)) seg) (strm w)) w).
Proof.
  intros Hn. unfold submit. mrun. rewrite slice_to_ok by exact Hn. mrun.
  eexists. reflexivity.
Qed.

(** The inner loop returns, within its fuel, what is left of [b], for an
    engine whose [Send] leaves [mss] alone and a send buffer that holds a
    segment. *)
Lemma send_loop_returns (flag : byte) (mss : Z) :
  (forall k seg, kcp_mss (Send k seg) = kcp_mss k) ->
  2 <= mss < 2 ^ 32 ->
  forall (fuel : nat) (b : list byte) (w : World),
    kcp_mss (kcp (strm w)) = mss ->
    mss <= len (sendbuf (strm w)) ->
    (length b < fuel)%nat ->
    exists b' w',
      send_loop fuel flag b w = Ret b' w' /\
      len b' = tail_len (len b) mss /\
      (forall (B : Type) (f : UDPStream -> B),
         send_blind f -> f (strm w') = f (strm w)).
Proof.
  intros Hsend Hm. induction fuel as [|fuel IH]; intros b w Hk Hb Hf; [lia|].
  cbn [send_loop]. unfold bind at 1, get at 1. rewrite Hk.
  pose proof (len_nonneg b) as Hb0.
  destruct (Z.ltb_spec (len b) mss) as [Hlt|Hge].
  - destruct (frame_ok flag b w ltac:(lia)) as (sb & Hfr & Hsb).
    unfold bind at 1. rewrite Hfr.
    destruct (submit_ok (len b + 1) (with_strm (set_sendbuf sb (strm w)) w))
      as (seg & Hsu); [st; lia|].
    unfold bind at 1. rewrite Hsu. st.
    eexists _, _. split; [reflexivity|].
    split; [symmetry; apply tail_len_small; lia|].
    intros B f Hwb. st.
    rewrite (proj1 (Hwb _)), (proj2 (Hwb _)). reflexivity.
  - unfold uint32. rewrite Z.mod_small by lia.
    unfold bind at 1. rewrite slice_to_ok by lia. cbn [must]. unfold ret.
    destruct (frame_ok flag (firstn (Z.to_nat (mss - 1)) b) w ltac:(lia))
      as (sb & Hfr & Hsb).
    unfold bind at 1. rewrite Hfr.
    destruct (submit_ok mss (with_strm (set_sendbuf sb (strm w)) w))
      as (seg & Hsu); [st; lia|].
    unfold bind at 1. rewrite Hsu. st. unfold bind at 1, get at 1. st.
    rewrite Hsend, Hk. rewrite Z.mod_small by lia.
    unfold bind at 1. rewrite slice_from_ok by lia. cbn [must]. unfold ret.
    set (w3 := with_strm _ _).
    destruct (IH (skipn (Z.to_nat (mss - 1)) b) w3) as (b' & w' & Hr & Hl & Hw).
    + unfold w3. st. rewrite Hsend. exact Hk.
    + unfold w3. st. lia.
    + rewrite length_skipn. unfold len in *. lia.
    + exists b', w'. split; [exact Hr|]. split.
      * rewrite Hl, (tail_len_step (len b) mss) by lia.
        f_equal. unfold len. rewrite length_skipn. unfold len in *. lia.
      * intros B f Hwb. rewrite (Hw B f Hwb). unfold w3. st.
        rewrite (proj1 (Hwb _)), (proj2 (Hwb _)). reflexivity.
Qed.


(** With [mss] at 1 the inner loop makes no progress on a non-empty [b]:
    it submits a segment that holds the tag alone and keeps [b] whole,
    round after round.  Running out of fuel is this, and nothing else (see
    [send_loop_returns]). *)
Lemma send_loop_spins (flag : byte) :
  (forall k seg, kcp_mss (Send k seg) = kcp_mss k) ->
  forall (fuel : nat) (b : list byte) (w : World),
    kcp_mss (kcp (strm w)) = 1 ->
    1 <= len (sendbuf (strm w)) ->
    1 <= len b ->
    send_loop fuel flag b w = Diverged.
Proof.
  intros Hsend. induction fuel as [|fuel IH]; intros b w Hk Hb Hl;
    [reflexivity|].
  cbn [send_loop]. unfold bind at 1, get at 1. rewrite Hk.
  destruct (Z.ltb_spec (len b) 1) as [|_]; [lia|].
  change (uint32 (1 - 1)) with 0.
  unfold bind at 1. rewrite slice_to_ok by lia. cbn [must]. unfold ret.
  destruct (frame_ok flag (firstn (Z.to_nat 0) b) w Hb) as (sb & Hfr & Hsb).
  unfold bind at 1. rewrite Hfr.
  destruct (submit_ok 1 (with_strm (set_sendbuf sb (strm w)) w))
    as (seg & Hsu); [st; lia|].
  unfold bind at 1. rewrite Hsu. st. unfold bind at 1, get at 1. st.
  rewrite Hsend, Hk. change (uint32 (1 - 1)) with 0.
  unfold bind at 1. rewrite slice_from_ok by lia. cbn [must]. unfold ret.
  change (skipn (Z.to_nat 0) b) with b.
  apply IH; st; [rewrite Hsend; exact Hk | lia | exact Hl].
Qed.

(** A write made while the window is open and no terminal signal is
    closed returns, with no error, the length of the last segment's
    payload. *)
Lemma Write_open_window (b : list byte) (w : World) :
  (forall k seg, kcp_mss (Send k seg) = kcp_mss k) ->
  0 <= IKCP_OVERHEAD -> engine_ok ->
  stream_ok (strm w) ->
  chClose (strm w) = false -> chRst (strm w) = false ->
  chSendFinEvent (strm w) = false ->
  window_open (strm w) = true ->
  2 <= kcp_mss (kcp (strm w)) < 2 ^ 32 ->
  kcp_mss (kcp (strm w)) <= len (sendbuf (strm w)) ->
  exists w',
    Write b w
    = Ret (tail_len (len b) (kcp_mss (kcp (strm w))), None) w'.
Proof.
  intros Hsend H0 He Hs Hc Hr Hf Ho Hm Hb.
  unfold Write, WriteBuffer, select_default, write_entry_cases.
  unfold bind at 1. rewrite Hc, Hr, Hf. cbn [ready filter map fst].
  rewrite loop_select_eq. unfold WriteBuffer_body.
  unfold bind at 1, get at 1. rewrite Ho. unfold bind at 1.
  destruct (send_loop_returns PSH _ Hsend Hm (S (length b)) b w
              eq_refl Hb ltac:(lia)) as (b' & w1 & -> & Hl & Hk).
  unfold bind at 1, get at 1. unfold bind at 1.
  assert (Hs1 : stream_ok (strm w1)).
  { destruct Hs as (Hu & Hh & Ht & Hre & Hms). unfold stream_ok.
    rewrite (Hk _ uuid), (Hk _ headerSize), (Hk _ tunnels), (Hk _ remotes),
      (Hk _ msgss) by (intros s; split; reflexivity).
    repeat split; assumption. }
  unfold skip, add_BytesSent.
  match goal with
  | |- context [if ?c then _ else _] => destruct c
  end.
  - unfold bind at 1. unfold bind at 1.
    destruct (flush_ok true w1 H0 He Hs1) as (iv & w2 & -> & _).
    mrun. rewrite Hl. eexists. reflexivity.
  - mrun. rewrite Hl. eexists. reflexivity.
Qed.

(** So the count Write returns is the length of [b] only when [b] fits
    one segment. *)
Lemma tail_len_lt (l mss : Z) :
  2 <= mss -> mss <= l -> tail_len l mss < l.
Proof.
  intros Hm Hl. pose proof (tail_len_short l mss Hm Hl). lia.
Qed.

End Properties.

(** * More of the stream *)

(** Reads of a field after a sequence of updates, with the setters of the
    deadlines and of the write delay. *)
Ltac stx :=
  cbn [strm clock picks wakes wire DefaultSnmp
       with_strm with_clock with_picks with_wakes with_wire with_DefaultSnmp
       uuid sel kcp tunnels remotes accepted recvbuf sendbuf bufptr chClean rd wd
       headerSize writeDelay recvSynOnce sendFinOnce chSendFinEvent
       recvFinOnce chRecvFinEvent rstOnce chRst closeOnce chClose chDialEvent
       chReadEvent chWriteEvent msgss parallelXmit parallelTime parallelExpire
       set_kcp set_tunnels set_remotes set_recvbuf set_sendbuf set_bufptr set_chClean
       set_recvSynOnce set_sendFinOnce set_chSendFinEvent set_recvFinOnce
       set_chRecvFinEvent set_rstOnce set_chRst set_closeOnce set_chClose
       set_chDialEvent set_chReadEvent set_chWriteEvent set_msgss
       set_parallelExpire set_rd set_wd set_writeDelay
       wk_env wk_now tk_wake tk_hrt tk_flush
       BytesSent BytesReceived CurrEstab InPkts InBytes KCPInErrors
       fst snd] in *.

Section Further.

Context {net : Net} {arq : ARQ} {host : Host}.

(** ** Helpers on [select] *)

Lemma choose_In {A} (p : nat) (d : A) (r : list A) : In (choose p d r) (d :: r).
Proof.
  unfold choose. apply nth_In. apply Nat.mod_upper_bound. discriminate.
Qed.

Lemma ready_In {A} (cases : list (bool * A)) (a : A) :
  In a (ready cases) <-> In (true, a) cases.
Proof.
  unfold ready. rewrite in_map_iff. split.
  - intros [[c x] [Hx Hin]]. apply filter_In in Hin. destruct Hin as [Hin Hc].
    cbn in Hx, Hc. subst. exact Hin.
  - intros Hin. exists (true, a). split; [reflexivity|].
    apply filter_In. split; [exact Hin | reflexivity].
Qed.

Lemma select_default_fires {A} (cases : UDPStream -> list (bool * A)) (w : World) :
  ready (cases (strm w)) <> [] ->
  exists a, select_default cases w = Ret (Some a) (snd (pop_pick w)) /\
            In (true, a) (cases (strm w)).
Proof.
  intros Hr. unfold select_default.
  destruct (ready (cases (strm w))) as [|d r] eqn:E; [congruence|].
  destruct (pop_pick w) as [p w1] eqn:Ep. cbn [snd].
  exists (choose p d r). split; [reflexivity|].
  apply ready_In. rewrite E. apply choose_In.
Qed.

Lemma select_default_none {A} (cases : UDPStream -> list (bool * A)) (w : World) :
  ready (cases (strm w)) = [] ->
  select_default cases w = Ret None w.
Proof. intros Hr. unfold select_default. rewrite Hr. reflexivity. Qed.

Lemma pop_pick_frame (w : World) :
  strm (snd (pop_pick w)) = strm w /\
  clock (snd (pop_pick w)) = clock w /\
  wakes (snd (pop_pick w)) = wakes w /\
  wire (snd (pop_pick w)) = wire w /\
  DefaultSnmp (snd (pop_pick w)) = DefaultSnmp w.
Proof. unfold pop_pick. destruct (picks w); cbn; repeat split. Qed.

Lemma live_read_entry (s : UDPStream) :
  live s -> ready (read_entry_cases s) = [].
Proof.
  intros (Hc & Hr & _ & Hf). unfold read_entry_cases, ready.
  rewrite Hc, Hr, Hf. reflexivity.
Qed.

Lemma live_write_entry (s : UDPStream) :
  live s -> ready (write_entry_cases s) = [].
Proof.
  intros (Hc & Hr & Hs & _). unfold write_entry_cases, ready.
  rewrite Hc, Hr, Hs. reflexivity.
Qed.

(** X1: Read on a stream whose closed, reset or receive-FIN signal is
    closed returns at once no bytes and the error of one of the closed
    signals (closed pipe, unexpected EOF, EOF), and touches neither the
    caller's buffer nor the stream, the wire or the counters, even when
    bytes are still waiting behind the read cursor. *)
Theorem Read_after_terminal (b : list byte) (w : World) :
  chClose (strm w) || chRst (strm w) || chRecvFinEvent (strm w) = true ->
  exists e w',
    Read b w = Ret (0, Some e, b) w' /\
    In (true, e) (read_entry_cases (strm w)) /\
    strm w' = strm w /\ wire w' = wire w /\ DefaultSnmp w' = DefaultSnmp w.
Proof.
  intros H.
  destruct (select_default_fires read_entry_cases w) as (e & He & Hin).
  { unfold read_entry_cases, ready.
    destruct (chClose (strm w)); [discriminate|].
    destruct (chRst (strm w)); [discriminate|].
    destruct (chRecvFinEvent (strm w)); [discriminate|]. discriminate H. }
  exists e, (snd (pop_pick w)). split.
  - unfold Read, bind. rewrite He. reflexivity.
  - split; [exact Hin|]. pose proof (pop_pick_frame w). tauto.
Qed.



Lemma with_wakes_same (w : World) : with_wakes (wakes w) w = w.
Proof. destruct w; reflexivity. Qed.

(** A Read that finds no terminal signal runs the body of its loop. *)
Lemma Read_live (b : list byte) (w : World) :
  live (strm w) ->
  Read b w =
  match Read_body b w with
  | Ret (inl r) w1 => Ret r (with_wakes (wakes w) w1)
  | Ret (inr c) w1 =>
      parked_sel (Read_body b) read_wait_cases (Read_wake b) c (wakes w) w1
  | Blocked w1 => Blocked w1
  | Panicked => Panicked
  | Diverged => Diverged
  end.
Proof.
  intros Hl. unfold Read, bind.
  rewrite select_default_none by (apply live_read_entry; exact Hl).
  apply loop_select_eq.
Qed.

Lemma copy_prefix {A} (dst src : list A) :
  copy dst src
  = firstn (Z.to_nat (copied dst src)) src
    ++ skipn (Z.to_nat (copied dst src)) dst.
Proof.
  unfold copy, copied, len.
  destruct (Nat.le_ge_cases (length dst) (length src)) as [H|H].
  - rewrite Z.min_l by lia. rewrite Nat2Z.id.
    rewrite (skipn_all2 dst) by lia. rewrite (skipn_all2 dst) by lia.
    reflexivity.
  - rewrite Z.min_r by lia. rewrite Nat2Z.id.
    rewrite (firstn_all2 src) by lia. rewrite (firstn_all2 src) by lia.
    reflexivity.
Qed.

Lemma copied_bounds {A} (dst src : list A) :
  0 <= copied dst src <= len src /\ copied dst src <= len dst.
Proof. unfold copied, len. lia. Qed.

(** The first branch of Read's loop: bytes are left behind the cursor. *)
Lemma Read_body_cursor (b : list byte) (w : World) :
  bufptr (strm w) <> [] ->
  let n := Z.min (len b) (len (bufptr (strm w))) in
  exists w',
    Read_body b w
    = Ret (inl (n, None,
                firstn (Z.to_nat n) (bufptr (strm w)) ++ skipn (Z.to_nat n) b))
        w' /\
    strm w' = set_bufptr (skipn (Z.to_nat n) (bufptr (strm w))) (strm w) /\
    BytesReceived (DefaultSnmp w')
    = uint64 (BytesReceived (DefaultSnmp w) + uint64 n) /\
    wakes w' = wakes w /\ wire w' = wire w.
Proof.
  intros Hne n.
  assert (Hpos : (0 <? len (bufptr (strm w))) = true).
  { apply Z.ltb_lt. destruct (bufptr (strm w)); [congruence|].
    unfold len. cbn [length]. lia. }
  unfold Read_body. mrun. rewrite Hpos.
  fold (@copied byte b (bufptr (strm w))).
  pose proof (copied_bounds b (bufptr (strm w))) as Hb.
  change (Z.min (len b) (len (bufptr (strm w)))) with (copied b (bufptr (strm w))) in n.
  rewrite slice_from_ok by lia.
  unfold add_BytesReceived. mrun.
  eexists. split.
  - rewrite copy_prefix. reflexivity.
  - st. repeat split; reflexivity.
Qed.

(** X2: when bytes are left behind the read cursor, Read on a live stream
    copies the first [min(len b, len bufptr)] of them to the front of the
    caller's buffer, leaves the rest of the buffer alone, advances the
    cursor by as many, does not call the engine, and adds that number to
    the received-bytes counter. *)
Theorem Read_drains_cursor (b : list byte) (w : World) :
  live (strm w) ->
  bufptr (strm w) <> [] ->
  let n := Z.min (len b) (len (bufptr (strm w))) in
  exists w',
    Read b w
    = Ret (n, None,
           firstn (Z.to_nat n) (bufptr (strm w)) ++ skipn (Z.to_nat n) b) w' /\
    bufptr (strm w') = skipn (Z.to_nat n) (bufptr (strm w)) /\
    kcp (strm w') = kcp (strm w) /\
    BytesReceived (DefaultSnmp w')
    = uint64 (BytesReceived (DefaultSnmp w) + uint64 n) /\
    wire w' = wire w.
Proof.
  intros Hl Hne n.
  destruct (Read_body_cursor b w Hne) as (w1 & Hbody & Hs & Hc & Hw & Hwire).
  rewrite Read_live by exact Hl. rewrite Hbody.
  eexists. split; [reflexivity|]. st. rewrite Hs. st.
  repeat split; assumption.
Qed.

(** What Read's loop does with the message it takes out of the engine. *)
Lemma Read_body_message (w : World) (b : list byte) flag data k :
  bufptr (strm w) = [] ->
  0 < PeekSize (kcp (strm w)) ->
  Recv (kcp (strm w)) (recv_window (strm w)) = (flag :: data, k) ->
  Read_body b w
  = bind (cmdRead flag data b)
      (fun r =>
         let '(n, err, b') := r in
         rest <- must (slice_from (n + 1) (flag :: data)) ;;
         modify (set_bufptr rest) ;;
         add_BytesReceived (uint64 (n + 1)) ;;
         ret (inl (if Byte.eqb flag PSH then n else 0, err, b')))
      (with_strm (received (strm w) (flag :: data) k) w).
Proof.
  intros Hb Hp Hr. unfold recv_window in Hr. cbv zeta in Hr.
  unfold Read_body, received. cbv zeta.
  unfold bind at 1. unfold get at 1. cbv beta iota.
  rewrite Hb. change (0 <? len (@nil byte)) with false. cbv iota.
  destruct (Z.ltb_spec 0 (PeekSize (kcp (strm w)))) as [_|]; [|lia].
  assert (Hd : slice_from 1 (flag :: data) = Some data).
  { rewrite slice_from_ok; [reflexivity|].
    rewrite len_cons. pose proof (len_nonneg data). lia. }
  destruct (Z.ltb_spec (len (recvbuf (strm w))) (PeekSize (kcp (strm w))))
    as [Hlt|Hge].
  - unfold bind at 1. unfold modify at 1. cbv beta iota.
    unfold bind at 1. unfold get at 1. cbv beta iota. st.
    rewrite slice_to_ok by (rewrite len_repeat; lia).
    unfold bind at 1. unfold must at 1, ret at 1. cbv beta iota.
    rewrite Hr.
    unfold bind at 1. unfold modify at 1. cbv beta iota. st.
    change (index 0 (flag :: data)) with (Some flag).
    unfold bind at 1. unfold must at 1, ret at 1. cbv beta iota.
    rewrite Hd.
    unfold bind at 1. unfold must at 1, ret at 1. cbv beta iota.
    reflexivity.
  - unfold bind at 1. unfold skip at 1, ret at 1. cbv beta iota.
    unfold bind at 1. unfold get at 1. cbv beta iota.
    rewrite slice_to_ok by lia.
    unfold bind at 1. unfold must at 1, ret at 1. cbv beta iota.
    rewrite Hr.
    unfold bind at 1. unfold modify at 1. cbv beta iota. st.
    change (index 0 (flag :: data)) with (Some flag).
    unfold bind at 1. unfold must at 1, ret at 1. cbv beta iota.
    rewrite Hd.
    unfold bind at 1. unfold must at 1, ret at 1. cbv beta iota.
    reflexivity.
Qed.

(** The second branch of Read's loop, for a PSH message. *)
Lemma Read_body_payload (b : list byte) (w : World) data k :
  bufptr (strm w) = [] ->
  0 < PeekSize (kcp (strm w)) ->
  Recv (kcp (strm w)) (recv_window (strm w)) = (PSH :: data, k) ->
  let n := Z.min (len b) (len data) in
  exists w',
    Read_body b w
    = Ret (inl (n, None, firstn (Z.to_nat n) data ++ skipn (Z.to_nat n) b))
        w' /\
    strm w' = set_bufptr (skipn (Z.to_nat n) data)
                (received (strm w) (PSH :: data) k) /\
    BytesReceived (DefaultSnmp w')
    = uint64 (BytesReceived (DefaultSnmp w) + uint64 (n + 1)) /\
    wakes w' = wakes w /\ wire w' = wire w.
Proof.
  intros Hb Hp Hr n.
  rewrite (Read_body_message w b PSH data k Hb Hp Hr).
  unfold cmdRead. change (Byte.eqb PSH PSH) with true. cbv iota.
  unfold recvPsh.
  pose proof (copied_bounds b data) as Hc.
  change (Z.min (len b) (len data)) with (copied b data) in n.
  unfold bind at 1. unfold ret at 1. cbv beta iota.
  assert (Hs : slice_from (copied b data + 1) (PSH :: data)
               = Some (skipn (Z.to_nat (copied b data)) data)).
  { rewrite slice_from_ok by (rewrite len_cons; lia).
    replace (Z.to_nat (copied b data + 1)) with (S (Z.to_nat (copied b data)))
      by lia. reflexivity. }
  rewrite Hs. unfold add_BytesReceived. mrun.
  eexists. split.
  - rewrite copy_prefix. reflexivity.
  - st. repeat split; reflexivity.
Qed.

(** X3: when the cursor is empty and the engine holds a message tagged
    PSH, Read takes the message out of the engine, copies the first
    [min(len b, len data)] bytes of its payload into the caller's buffer,
    returns that count without error, keeps the rest of the payload behind
    the cursor, and counts the bytes copied plus the tag as received. *)
Theorem Read_delivers_payload (b : list byte) (w : World) data k :
  live (strm w) ->
  bufptr (strm w) = [] ->
  0 < PeekSize (kcp (strm w)) ->
  Recv (kcp (strm w)) (recv_window (strm w)) = (PSH :: data, k) ->
  let n := Z.min (len b) (len data) in
  exists w',
    Read b w
    = Ret (n, None, firstn (Z.to_nat n) data ++ skipn (Z.to_nat n) b) w' /\
    bufptr (strm w') = skipn (Z.to_nat n) data /\
    kcp (strm w') = k /\
    BytesReceived (DefaultSnmp w')
    = uint64 (BytesReceived (DefaultSnmp w) + uint64 (n + 1)) /\
    wire w' = wire w.
Proof.
  intros Hl Hb Hp Hr n.
  destruct (Read_body_payload b w data k Hb Hp Hr)
    as (w1 & Hbody & Hs & Hc & Hw & Hwire).
  rewrite Read_live by exact Hl. rewrite Hbody.
  eexists. split; [reflexivity|]. st. rewrite Hs. unfold received. st.
  repeat split; assumption.
Qed.

Lemma live_received (s : UDPStream) buf k rest :
  live s -> live (set_bufptr rest (received s buf k)).
Proof. unfold live, received. stx. tauto. Qed.

Lemma firstn_app_skipn_exact {A} (b1 : list A) (data : list A) (b2 : list A) :
  (length b1 < length data)%nat ->
  (length data - length b1 <= length b2)%nat ->
  (firstn (length b1) data ++ skipn (length b1) b1)
  ++ firstn (length data - length b1)
       (firstn (length data - length b1) (skipn (length b1) data)
        ++ skipn (length data - length b1) b2)
  = data.
Proof.
  intros H1 H2.
  rewrite (skipn_all2 b1) by lia. rewrite app_nil_r.
  rewrite firstn_app.
  rewrite (firstn_all2 (skipn (length b1) data)) by (rewrite length_skipn; lia).
  rewrite (firstn_all2 (skipn (length b1) data)) by (rewrite length_skipn; lia).
  replace (length data - length b1 - length (skipn (length b1) data))%nat
    with 0%nat by (rewrite length_skipn; lia).
  cbn [firstn]. rewrite app_nil_r. apply firstn_skipn.
Qed.

(** X4: a PSH payload longer than the caller's buffer is not lost: the
    first Read fills the buffer, a second Read with room for the rest
    returns exactly the rest, the two pieces in order are the payload, and
    the cursor is empty afterwards. *)
Theorem Read_message_in_two (b1 b2 : list byte) (w : World) data k :
  live (strm w) ->
  bufptr (strm w) = [] ->
  0 < PeekSize (kcp (strm w)) ->
  Recv (kcp (strm w)) (recv_window (strm w)) = (PSH :: data, k) ->
  len b1 < len data ->
  len data - len b1 <= len b2 ->
  exists b1' w1 b2' w2,
    Read b1 w = Ret (len b1, None, b1') w1 /\
    Read b2 w1 = Ret (len data - len b1, None, b2') w2 /\
    b1' ++ firstn (Z.to_nat (len data - len b1)) b2' = data /\
    bufptr (strm w2) = [] /\
    kcp (strm w2) = k.
Proof.
  intros Hl Hb Hp Hr H1 H2.
  destruct (Read_body_payload b1 w data k Hb Hp Hr)
    as (w1 & HR1 & Hs1 & _ & Hw1 & _).
  rewrite Z.min_l in HR1, Hs1 by lia.
  set (w1' := with_wakes (wakes w) w1).
  assert (Hs1' : strm w1' = strm w1) by reflexivity.
  assert (Hl1 : live (strm w1')).
  { rewrite Hs1', Hs1. apply live_received. exact Hl. }
  assert (Hb1 : bufptr (strm w1') = skipn (Z.to_nat (len b1)) data)
    by (rewrite Hs1', Hs1; reflexivity).
  assert (Hlen : len (bufptr (strm w1')) = len data - len b1).
  { rewrite Hb1. unfold len. rewrite length_skipn. unfold len in H1. lia. }
  assert (Hne : bufptr (strm w1') <> []).
  { intros E. rewrite E in Hlen. unfold len in Hlen at 1. cbn in Hlen. lia. }
  destruct (Read_body_cursor b2 w1' Hne) as (w2 & HR2 & Hs2 & _).
  rewrite Hlen in HR2, Hs2. rewrite Z.min_r in HR2, Hs2 by lia.
  exists (firstn (Z.to_nat (len b1)) data ++ skipn (Z.to_nat (len b1)) b1), w1'.
  do 2 eexists. split; [|split; [|split; [|split]]].
  - rewrite Read_live by exact Hl. rewrite HR1. reflexivity.
  - rewrite Read_live by exact Hl1. rewrite HR2. reflexivity.
  - rewrite Hb1. unfold len in *. rewrite Nat2Z.id.
    replace (Z.to_nat (Z.of_nat (length data) - Z.of_nat (length b1)))
      with (length data - length b1)%nat by lia.
    apply firstn_app_skipn_exact; lia.
  - st. rewrite Hs2. st. apply skipn_all2. unfold len in *. lia.
  - st. rewrite Hs2. st. unfold w1'. st. rewrite Hs1. reflexivity.
Qed.

(** The second branch of Read's loop, for a control message: nothing is
    handed to the caller and nothing stays behind the cursor. *)
Lemma Read_body_control (b : list byte) (w : World) flag data k err w2 :
  bufptr (strm w) = [] ->
  0 < PeekSize (kcp (strm w)) ->
  Recv (kcp (strm w)) (recv_window (strm w)) = (flag :: data, k) ->
  Byte.eqb flag PSH = false ->
  cmdRead flag data b (with_strm (received (strm w) (flag :: data) k) w)
  = Ret (len data, err, b) w2 ->
  exists w',
    Read_body b w = Ret (inl (0, err, b)) w' /\
    strm w' = set_bufptr [] (strm w2) /\
    BytesReceived (DefaultSnmp w')
    = uint64 (BytesReceived (DefaultSnmp w2) + uint64 (len data + 1)) /\
    wakes w' = wakes w2 /\ wire w' = wire w2.
Proof.
  intros Hb Hp Hr Hf Hc.
  rewrite (Read_body_message w b flag data k Hb Hp Hr).
  unfold bind at 1. rewrite Hc. cbv beta iota.
  rewrite slice_from_ok.
  2:{ rewrite len_cons. pose proof (len_nonneg data). lia. }
  rewrite skipn_all2.
  2:{ cbn [length]. unfold len. lia. }
  rewrite Hf. unfold add_BytesReceived. mrun.
  eexists. split; [reflexivity|]. st. repeat split; reflexivity.
Qed.

Lemma cmdRead_HRT (data b : list byte) (w : World) :
  cmdRead HRT data b w = Ret (len data, None, b) w.
Proof. reflexivity. Qed.

Lemma cmdRead_SYN_again (data b : list byte) (w : World) :
  recvSynOnce (strm w) = true ->
  cmdRead SYN data b w = Ret (len data, None, b) w.
Proof.
  intros H. unfold cmdRead. change (Byte.eqb SYN PSH) with false.
  change (Byte.eqb SYN SYN) with true. cbv iota.
  unfold bind. rewrite recvSyn_done by exact H. reflexivity.
Qed.

(** X5: a heartbeat, or a SYN after the first one, is consumed by Read
    as a read of zero bytes with no error: the caller's buffer is
    untouched, nothing stays behind the cursor, and the whole message
    (payload and tag) is counted as received. *)
Theorem Read_silent_control (b : list byte) (w : World) flag data k :
  live (strm w) ->
  bufptr (strm w) = [] ->
  0 < PeekSize (kcp (strm w)) ->
  Recv (kcp (strm w)) (recv_window (strm w)) = (flag :: data, k) ->
  flag = HRT \/ (flag = SYN /\ recvSynOnce (strm w) = true) ->
  exists w',
    Read b w = Ret (0, None, b) w' /\
    strm w' = set_bufptr [] (received (strm w) (flag :: data) k) /\
    BytesReceived (DefaultSnmp w')
    = uint64 (BytesReceived (DefaultSnmp w) + uint64 (len data + 1)) /\
    wire w' = wire w.
Proof.
  intros Hl Hb Hp Hr Hflag.
  assert (Hc : cmdRead flag data b
                 (with_strm (received (strm w) (flag :: data) k) w)
               = Ret (len data, None, b)
                   (with_strm (received (strm w) (flag :: data) k) w)).
  { destruct Hflag as [->|[-> Ho]]; [apply cmdRead_HRT|].
    apply cmdRead_SYN_again. exact Ho. }
  assert (Hf : Byte.eqb flag PSH = false)
    by (destruct Hflag as [->|[-> _]]; reflexivity).
  destruct (Read_body_control b w flag data k _ _ Hb Hp Hr Hf Hc)
    as (w1 & Hbody & Hs & Hn & Hw & Hwire).
  rewrite Read_live by exact Hl. rewrite Hbody.
  eexists. split; [reflexivity|]. st. repeat split; assumption.
Qed.

Lemma cmdRead_FIN (data b : list byte) (w : World) :
  recvFinOnce (strm w) = false -> chRecvFinEvent (strm w) = false ->
  cmdRead FIN data b w
  = Ret (len data, Some EOF, b)
      (with_strm (set_chRecvFinEvent true (set_recvFinOnce true (strm w))) w).
Proof.
  intros Ho Hc. unfold cmdRead. change (Byte.eqb FIN PSH) with false.
  change (Byte.eqb FIN SYN) with false. change (Byte.eqb FIN FIN) with true.
  cbv iota. unfold recvFin, once_Do, close. mrun. rewrite Ho. mrun.
  rewrite Hc. mrun. reflexivity.
Qed.

Lemma cmdRead_RST (data b : list byte) (w : World) :
  rstOnce (strm w) = false -> chRst (strm w) = false ->
  cmdRead RST data b w
  = Ret (len data, Some ErrUnexpectedEOF, b)
      (with_strm
         (set_kcp (ReleaseTX (kcp (strm w)))
            (set_chRst true (set_rstOnce true (strm w)))) w).
Proof.
  intros Ho Hc. unfold cmdRead. change (Byte.eqb RST PSH) with false.
  change (Byte.eqb RST SYN) with false. change (Byte.eqb RST FIN) with false.
  change (Byte.eqb RST HRT) with false. change (Byte.eqb RST RST) with true.
  cbv iota. unfold recvRst, reset, once_Do, close. mrun. rewrite Ho.
  cbn [negb]. mrun. rewrite Hc. mrun. reflexivity.
Qed.

(** The entry [select] of Read and of WriteBuffer with one signal closed. *)
Lemma Read_at_signal (b : list byte) (w : World) (e : error) :
  ready (read_entry_cases (strm w)) = [e] ->
  Read b w = Ret (0, Some e, b) (snd (pop_pick w)).
Proof.
  intros H. unfold Read, bind, select_default. rewrite H.
  destruct (pop_pick w) as [p w1]. rewrite choose_one. reflexivity.
Qed.

Lemma WriteBuffer_at_signal (flag : byte) (b : list byte) (w : World) (e : error) :
  ready (write_entry_cases (strm w)) = [e] ->
  WriteBuffer flag b w = Ret (0, Some e) (snd (pop_pick w)).
Proof.
  intros H. unfold WriteBuffer, bind, select_default. rewrite H.
  destruct (pop_pick w) as [p w1]. rewrite choose_one. reflexivity.
Qed.

(** X6: Read of a FIN message returns zero bytes and EOF, closes the
    receive-FIN signal and leaves the cursor empty; every Read after it
    returns EOF at once without changing the stream. *)
Theorem Read_fin_then_eof (b b2 : list byte) (w : World) data k :
  live (strm w) ->
  recvFinOnce (strm w) = false ->
  bufptr (strm w) = [] ->
  0 < PeekSize (kcp (strm w)) ->
  Recv (kcp (strm w)) (recv_window (strm w)) = (FIN :: data, k) ->
  exists w1 w2,
    Read b w = Ret (0, Some EOF, b) w1 /\
    chRecvFinEvent (strm w1) = true /\
    bufptr (strm w1) = [] /\
    kcp (strm w1) = k /\
    Read b2 w1 = Ret (0, Some EOF, b2) w2 /\
    strm w2 = strm w1.
Proof.
  intros Hl Ho Hb Hp Hr.
  pose proof Hl as (Hc & Hrst & Hsf & Hrf).
  destruct (Read_body_control b w FIN data k (Some EOF) _ Hb Hp Hr eq_refl
              (cmdRead_FIN data b
                 (with_strm (received (strm w) (FIN :: data) k) w) Ho Hrf))
    as (w1 & Hbody & Hs & _).
  exists (with_wakes (wakes w) w1), (snd (pop_pick (with_wakes (wakes w) w1))).
  split; [|split; [|split; [|split; [|split]]]].
  - rewrite Read_live by exact Hl. rewrite Hbody. reflexivity.
  - st. rewrite Hs. reflexivity.
  - st. rewrite Hs. reflexivity.
  - st. rewrite Hs. reflexivity.
  - apply Read_at_signal. st. rewrite Hs. unfold read_entry_cases, received.
    st. rewrite Hc, Hrst. reflexivity.
  - apply pop_pick_frame.
Qed.

(** X7: Read of an RST message returns zero bytes and unexpected-EOF,
    closes the reset signal and releases the engine's buffers; after it a
    Read and a write both return unexpected-EOF at once and hand nothing
    to the engine or the wire. *)
Theorem Read_rst_resets (b b2 : list byte) (flag : byte) (w : World) data k :
  live (strm w) ->
  rstOnce (strm w) = false ->
  bufptr (strm w) = [] ->
  0 < PeekSize (kcp (strm w)) ->
  Recv (kcp (strm w)) (recv_window (strm w)) = (RST :: data, k) ->
  exists w1 w2 w3,
    Read b w = Ret (0, Some ErrUnexpectedEOF, b) w1 /\
    chRst (strm w1) = true /\
    kcp (strm w1) = ReleaseTX k /\
    Read b2 w1 = Ret (0, Some ErrUnexpectedEOF, b2) w2 /\
    strm w2 = strm w1 /\
    WriteBuffer flag b2 w1 = Ret (0, Some ErrUnexpectedEOF) w3 /\
    strm w3 = strm w1 /\ wire w3 = wire w.
Proof.
  intros Hl Ho Hb Hp Hr.
  pose proof Hl as (Hc & Hrst & Hsf & Hrf).
  destruct (Read_body_control b w RST data k (Some ErrUnexpectedEOF) _ Hb Hp Hr
              eq_refl
              (cmdRead_RST data b
                 (with_strm (received (strm w) (RST :: data) k) w) Ho Hrst))
    as (w1 & Hbody & Hs & _ & _ & Hwire).
  set (w1' := with_wakes (wakes w) w1).
  exists w1', (snd (pop_pick w1')), (snd (pop_pick w1')).
  assert (Hs' : strm w1' = strm w1) by reflexivity.
  split; [|split; [|split; [|split; [|split; [|split; [|split]]]]]].
  - rewrite Read_live by exact Hl. rewrite Hbody. reflexivity.
  - rewrite Hs', Hs. reflexivity.
  - rewrite Hs', Hs. reflexivity.
  - apply Read_at_signal. rewrite Hs', Hs. unfold read_entry_cases, received.
    st. rewrite Hc, Hrf. reflexivity.
  - apply pop_pick_frame.
  - apply WriteBuffer_at_signal. rewrite Hs', Hs.
    unfold write_entry_cases, received.
    st. rewrite Hc, Hsf. reflexivity.
  - apply pop_pick_frame.
  - destruct (pop_pick_frame w1') as (_ & _ & _ & Hw & _). rewrite Hw.
    unfold w1'. st. exact Hwire.
Qed.

(** The last branch of Read's loop, on an idle stream. *)
Lemma Read_body_idle (b : list byte) (w : World) :
  idle (strm w) ->
  Read_body b w = deadline (rd (strm w)) (0, Some errTimeout, b) w.
Proof.
  intros (Hb & Hp). unfold Read_body. unfold bind at 1, get at 1.
  rewrite Hb. change (0 <? len (@nil byte)) with false. cbv iota.
  destruct (Z.ltb_spec 0 (PeekSize (kcp (strm w)))); [lia|]. reflexivity.
Qed.

(** A WriteBuffer that finds no terminal signal runs the body of its loop. *)
Lemma WriteBuffer_live (flag : byte) (b : list byte) (w : World) :
  live (strm w) ->
  WriteBuffer flag b w =
  match WriteBuffer_body flag b w with
  | Ret (inl r) w1 => Ret r (with_wakes (wakes w) w1)
  | Ret (inr c) w1 =>
      parked_sel (WriteBuffer_body flag b) write_wait_cases WriteBuffer_wake
        c (wakes w) w1
  | Blocked w1 => Blocked w1
  | Panicked => Panicked
  | Diverged => Diverged
  end.
Proof.
  intros Hl. unfold WriteBuffer, bind.
  rewrite select_default_none by (apply live_write_entry; exact Hl).
  apply loop_select_eq.
Qed.

Lemma WriteBuffer_body_shut (flag : byte) (b : list byte) (w : World) :
  window_open (strm w) = false ->
  WriteBuffer_body flag b w = deadline (wd (strm w)) (0, Some errTimeout) w.
Proof.
  intros Ho. unfold WriteBuffer_body. unfold bind at 1, get at 1.
  rewrite Ho. reflexivity.
Qed.

Lemma deadline_passed {R} (d : Z) (r : R) (w : World) :
  d <> 0 -> d < clock w -> deadline d r w = Ret (inl r) w.
Proof.
  intros Hd Hlt. unfold deadline. mrun.
  destruct (Z.eqb_spec d 0); [contradiction|]. cbn [negb].
  destruct (Z.ltb_spec d (clock w)); [reflexivity|lia].
Qed.

Lemma deadline_ahead {R} (d : Z) (r : R) (w : World) :
  d <> 0 -> clock w <= d -> deadline d r w = Ret (inr (Some d)) w.
Proof.
  intros Hd Hlt. unfold deadline. mrun.
  destruct (Z.eqb_spec d 0); [contradiction|]. cbn [negb].
  destruct (Z.ltb_spec d (clock w)); [lia|].
  replace (clock w + (d - clock w)) with d by lia. reflexivity.
Qed.

Lemma deadline_none {R} (r : R) (w : World) :
  deadline 0 r w = Ret (inr None) w.
Proof. reflexivity. Qed.

(** X8: on a live stream, a Read with nothing to deliver whose read
    deadline has passed, and a write on a full window whose write deadline
    has passed, return a timeout at once and change nothing. *)
Theorem deadline_passed_at_entry (flag : byte) (b : list byte) (w : World) :
  live (strm w) ->
  (idle (strm w) -> rd (strm w) <> 0 -> rd (strm w) < clock w ->
   Read b w = Ret (0, Some errTimeout, b) w) /\
  (window_open (strm w) = false -> wd (strm w) <> 0 -> wd (strm w) < clock w ->
   WriteBuffer flag b w = Ret (0, Some errTimeout) w).
Proof.
  intros Hl. split.
  - intros Hi Hd Hlt. rewrite Read_live by exact Hl.
    rewrite Read_body_idle by exact Hi.
    rewrite deadline_passed by assumption. rewrite with_wakes_same. reflexivity.
  - intros Ho Hd Hlt. rewrite WriteBuffer_live by exact Hl.
    rewrite WriteBuffer_body_shut by exact Ho.
    rewrite deadline_passed by assumption. rewrite with_wakes_same. reflexivity.
Qed.

(** X9: a Read parked with a read deadline ahead does not time out
    before the deadline: woken earlier with no event it goes on waiting;
    woken at or after the deadline with no event it returns a timeout, and
    the stream is as the wake-up left it, so it stays usable. *)
Theorem Read_times_out_parked (b : list byte) (w : World) (k : wake) ws :
  live (strm w) -> idle (strm w) ->
  rd (strm w) <> 0 -> clock w <= rd (strm w) ->
  wakes w = k :: ws ->
  live (wk_env k (strm w)) ->
  chReadEvent (wk_env k (strm w)) = false ->
  (wk_now k < rd (strm w) ->
   Read b w
   = parked_sel (Read_body b) read_wait_cases (Read_wake b)
       (Some (rd (strm w))) ws (wake_apply k w)) /\
  (rd (strm w) <= wk_now k ->
   exists w',
     Read b w = Ret (0, Some errTimeout, b) w' /\
     strm w' = wk_env k (strm w) /\ clock w' = wk_now k /\ wakes w' = ws /\
     wire w' = wire w /\ DefaultSnmp w' = DefaultSnmp w).
Proof.
  intros Hl Hi Hd Hle Hw Hl' He'.
  destruct Hl' as (Hc' & Hr' & Hs' & Hf').
  rewrite Read_live by exact Hl. rewrite Read_body_idle by exact Hi.
  rewrite deadline_ahead by assumption. rewrite Hw. cbn [parked_sel].
  unfold wake_select, read_wait_cases. cbv zeta.
  change (strm (wake_apply k w)) with (wk_env k (strm w)).
  change (clock (wake_apply k w)) with (wk_now k).
  rewrite Hc', Hr', Hf', He'. cbn [timer_ready].
  split; intros Ht.
  - destruct (Z.leb_spec (rd (strm w)) (wk_now k)); [lia|].
    cbn [ready filter map fst snd]. reflexivity.
  - destruct (Z.leb_spec (rd (strm w)) (wk_now k)); [|lia].
    cbn [ready filter map fst snd].
    destruct (pop_pick _) as [p w2] eqn:Ep. rewrite choose_one.
    cbn [Read_wake]. unfold ret. eexists. split; [reflexivity|].
    pose proof (pop_pick_frame (wake_apply k w)) as Hf. rewrite Ep in Hf.
    cbn [snd] in Hf. destruct Hf as (F1 & F2 & F3 & F4 & F5).
    st. rewrite F1, F2, F4, F5. unfold wake_apply. st. repeat split; reflexivity.
Qed.

(** What a wake-up does to the stream when it is a call of one of the
    deadline setters. *)
Lemma env_of_call {A} (c : M A) (a : A) (k : wake) (g : UDPStream -> UDPStream)
    (w : World) :
  (forall w0, c w0 = Ret a (with_strm (g (strm w0)) w0)) ->
  (forall w0, c w0 = Ret a (with_strm (wk_env k (strm w0)) w0)) ->
  wk_env k (strm w) = g (strm w).
Proof.
  intros Hg Hk. specialize (Hg w). rewrite (Hk w) in Hg.
  injection Hg as Hg. exact Hg.
Qed.

Lemma SetReadDeadline_run (t : Z) (w : World) :
  SetReadDeadline t w
  = Ret None (with_strm (set_chReadEvent true (set_rd t (strm w))) w).
Proof. reflexivity. Qed.

Lemma SetWriteDeadline_run (t : Z) (w : World) :
  SetWriteDeadline t w
  = Ret None (with_strm (set_chWriteEvent true (set_wd t (strm w))) w).
Proof. reflexivity. Qed.

Lemma SetDeadline_run (t : Z) (w : World) :
  SetDeadline t w
  = Ret None
      (with_strm
         (set_chWriteEvent true
            (set_chReadEvent true (set_wd t (set_rd t (strm w))))) w).
Proof. reflexivity. Qed.

(** X10: a call of SetReadDeadline or SetDeadline with an instant
    already past, made while a Read is parked, wakes the reader, which
    returns a timeout; the deadline is stored and the stream stays live. *)
Theorem SetReadDeadline_wakes_reader (b : list byte) (w : World) (k : wake)
    (ws : list wake) (t : Z) :
  live (strm w) -> idle (strm w) ->
  rd (strm w) = 0 \/ clock w <= rd (strm w) ->
  wakes w = k :: ws ->
  (forall w0, SetReadDeadline t w0
              = Ret None (with_strm (wk_env k (strm w0)) w0)) \/
  (forall w0, SetDeadline t w0
              = Ret None (with_strm (wk_env k (strm w0)) w0)) ->
  t <> 0 -> t < wk_now k ->
  exists w',
    Read b w = Ret (0, Some errTimeout, b) w' /\
    rd (strm w') = t /\ wakes w' = ws /\
    live (strm w') /\ idle (strm w') /\
    wire w' = wire w /\ DefaultSnmp w' = DefaultSnmp w.
Proof.
  intros Hl Hi Hrd Hw Hk Ht Hlt.
  assert (He : wk_env k (strm w) = set_chReadEvent true (set_rd t (strm w)) \/
               wk_env k (strm w)
               = set_chWriteEvent true
                   (set_chReadEvent true (set_wd t (set_rd t (strm w))))).
  { destruct Hk as [Hk|Hk]; [left|right].
    - exact (env_of_call _ _ k (fun s => set_chReadEvent true (set_rd t s)) w
               (SetReadDeadline_run t) Hk).
    - exact (env_of_call _ _ k
               (fun s => set_chWriteEvent true
                           (set_chReadEvent true (set_wd t (set_rd t s)))) w
               (SetDeadline_run t) Hk). }
  pose proof Hl as (Hc & Hr & Hs & Hf). pose proof Hi as (Hb & Hp).
  assert (Hfacts : chClose (wk_env k (strm w)) = false /\
                   chRst (wk_env k (strm w)) = false /\
                   chSendFinEvent (wk_env k (strm w)) = false /\
                   chRecvFinEvent (wk_env k (strm w)) = false /\
                   chReadEvent (wk_env k (strm w)) = true /\
                   rd (wk_env k (strm w)) = t /\
                   bufptr (wk_env k (strm w)) = [] /\
                   kcp (wk_env k (strm w)) = kcp (strm w)).
  { destruct He as [-> | ->]; stx; repeat split; assumption. }
  destruct Hfacts as (Hc' & Hr' & Hs' & Hf' & He' & Hrd' & Hb' & Hk').
  rewrite Read_live by exact Hl. rewrite Read_body_idle by exact Hi.
  (* the world once the read event has been taken *)
  assert (Hround : forall w3,
            strm w3 = set_chReadEvent false (wk_env k (strm w)) ->
            clock w3 = wk_now k ->
            loop_select (Read_body b) read_wait_cases (Read_wake b) ws w3
            = Ret (0, Some errTimeout, b) (with_wakes ws w3)).
  { intros w3 H3 Hc3. rewrite loop_select_eq.
    rewrite Read_body_idle.
    2:{ split; rewrite H3; st; [exact Hb'|rewrite Hk'; exact Hp]. }
    rewrite deadline_passed; [reflexivity| |].
    - rewrite H3. st. rewrite Hrd'. exact Ht.
    - rewrite H3, Hc3. st. rewrite Hrd'. exact Hlt. }
  assert (Hpark : forall c,
            exists w',
              parked_sel (Read_body b) read_wait_cases (Read_wake b) c
                (k :: ws) w
              = Ret (0, Some errTimeout, b) w' /\
              rd (strm w') = t /\ wakes w' = ws /\
              live (strm w') /\ idle (strm w') /\
              wire w' = wire w /\ DefaultSnmp w' = DefaultSnmp w).
  { intros c. cbn [parked_sel]. unfold wake_select, read_wait_cases. cbv zeta.
    change (strm (wake_apply k w)) with (wk_env k (strm w)).
    change (clock (wake_apply k w)) with (wk_now k).
    rewrite Hc', Hr', Hf', He'.
    pose proof (pop_pick_frame (wake_apply k w)) as Hfr.
    destruct (pop_pick (wake_apply k w)) as [p w2] eqn:Ep. cbn [snd] in Hfr.
    destruct Hfr as (F1 & F2 & F3 & F4 & F5).
    change (strm (wake_apply k w)) with (wk_env k (strm w)) in F1.
    change (clock (wake_apply k w)) with (wk_now k) in F2.
    change (wire (wake_apply k w)) with (wire w) in F4.
    change (DefaultSnmp (wake_apply k w)) with (DefaultSnmp w) in F5.
    assert (Hev : forall ev, ev = RReadEvent \/ ev = RTimer ->
              exists w',
                match Read_wake b ev w2 with
                | Ret (Some r) w3 => Ret r (with_wakes ws w3)
                | Ret None w3 =>
                    loop_select (Read_body b) read_wait_cases (Read_wake b)
                      ws w3
                | Blocked w3 => Blocked w3
                | Panicked => Panicked
                | Diverged => Diverged
                end = Ret (0, Some errTimeout, b) w' /\
                rd (strm w') = t /\ wakes w' = ws /\
                live (strm w') /\ idle (strm w') /\
                wire w' = wire w /\ DefaultSnmp w' = DefaultSnmp w).
    { intros ev [->| ->]; cbn [Read_wake]; mrun.
      - rewrite Hround by (st; rewrite ?F1, ?F2; reflexivity).
        eexists. split; [reflexivity|]. st. rewrite F1, F4, F5. st.
        unfold live, idle. st. rewrite Hk'. tauto.
      - eexists. split; [reflexivity|]. st. rewrite F1, F4, F5.
        unfold live, idle. rewrite Hk'. tauto. }
    destruct (timer_ready c (wk_now k)); cbn [ready filter map fst snd].
    - destruct (choose_two p RReadEvent RTimer) as [-> | ->];
        apply Hev; tauto.
    - rewrite choose_one. apply Hev. tauto. }
  destruct Hrd as [H0|Hle].
  - rewrite H0. rewrite deadline_none. rewrite Hw. apply Hpark.
  - destruct (Z.eq_dec (rd (strm w)) 0) as [H0|Hn].
    + rewrite H0. rewrite deadline_none. rewrite Hw. apply Hpark.
    + rewrite deadline_ahead by assumption. rewrite Hw. apply Hpark.
Qed.

(** X11: a call of SetWriteDeadline or SetDeadline with an instant
    already past, made while a write is parked on a full window, wakes the
    writer, which returns a timeout without handing anything to the
    engine or the wire. *)
Theorem SetWriteDeadline_wakes_writer (flag : byte) (b : list byte) (w : World)
    (k : wake) (ws : list wake) (t : Z) :
  live (strm w) -> window_open (strm w) = false ->
  wd (strm w) = 0 \/ clock w <= wd (strm w) ->
  wakes w = k :: ws ->
  (forall w0, SetWriteDeadline t w0
              = Ret None (with_strm (wk_env k (strm w0)) w0)) \/
  (forall w0, SetDeadline t w0
              = Ret None (with_strm (wk_env k (strm w0)) w0)) ->
  t <> 0 -> t < wk_now k ->
  exists w',
    WriteBuffer flag b w = Ret (0, Some errTimeout) w' /\
    wd (strm w') = t /\ wakes w' = ws /\
    live (strm w') /\ kcp (strm w') = kcp (strm w) /\
    wire w' = wire w /\ DefaultSnmp w' = DefaultSnmp w.
Proof.
  intros Hl Ho Hwd Hw Hk Ht Hlt.
  assert (He : wk_env k (strm w) = set_chWriteEvent true (set_wd t (strm w)) \/
               wk_env k (strm w)
               = set_chWriteEvent true
                   (set_chReadEvent true (set_wd t (set_rd t (strm w))))).
  { destruct Hk as [Hk|Hk]; [left|right].
    - exact (env_of_call _ _ k (fun s => set_chWriteEvent true (set_wd t s)) w
               (SetWriteDeadline_run t) Hk).
    - exact (env_of_call _ _ k
               (fun s => set_chWriteEvent true
                           (set_chReadEvent true (set_wd t (set_rd t s)))) w
               (SetDeadline_run t) Hk). }
  pose proof Hl as (Hc & Hr & Hs & Hf).
  assert (Hfacts : chClose (wk_env k (strm w)) = false /\
                   chRst (wk_env k (strm w)) = false /\
                   chSendFinEvent (wk_env k (strm w)) = false /\
                   chRecvFinEvent (wk_env k (strm w)) = false /\
                   chWriteEvent (wk_env k (strm w)) = true /\
                   wd (wk_env k (strm w)) = t /\
                   kcp (wk_env k (strm w)) = kcp (strm w)).
  { destruct He as [-> | ->]; stx; repeat split; assumption. }
  destruct Hfacts as (Hc' & Hr' & Hs' & Hf' & He' & Hwd' & Hk').
  rewrite WriteBuffer_live by exact Hl.
  rewrite WriteBuffer_body_shut by exact Ho.
  assert (Hround : forall w3,
            strm w3 = set_chWriteEvent false (wk_env k (strm w)) ->
            clock w3 = wk_now k ->
            loop_select (WriteBuffer_body flag b) write_wait_cases
              WriteBuffer_wake ws w3
            = Ret (0, Some errTimeout) (with_wakes ws w3)).
  { intros w3 H3 Hc3. rewrite loop_select_eq.
    rewrite WriteBuffer_body_shut.
    2:{ rewrite H3. unfold window_open in *. st. rewrite Hk'. exact Ho. }
    rewrite deadline_passed; [reflexivity| |].
    - rewrite H3. st. rewrite Hwd'. exact Ht.
    - rewrite H3, Hc3. st. rewrite Hwd'. exact Hlt. }
  assert (Hpark : forall c,
            exists w',
              parked_sel (WriteBuffer_body flag b) write_wait_cases
                WriteBuffer_wake c (k :: ws) w
              = Ret (0, Some errTimeout) w' /\
              wd (strm w') = t /\ wakes w' = ws /\
              live (strm w') /\ kcp (strm w') = kcp (strm w) /\
              wire w' = wire w /\ DefaultSnmp w' = DefaultSnmp w).
  { intros c. cbn [parked_sel]. unfold wake_select, write_wait_cases. cbv zeta.
    change (strm (wake_apply k w)) with (wk_env k (strm w)).
    change (clock (wake_apply k w)) with (wk_now k).
    rewrite Hc', Hr', Hs', He'.
    pose proof (pop_pick_frame (wake_apply k w)) as Hfr.
    destruct (pop_pick (wake_apply k w)) as [p w2] eqn:Ep. cbn [snd] in Hfr.
    destruct Hfr as (F1 & F2 & F3 & F4 & F5).
    change (strm (wake_apply k w)) with (wk_env k (strm w)) in F1.
    change (clock (wake_apply k w)) with (wk_now k) in F2.
    change (wire (wake_apply k w)) with (wire w) in F4.
    change (DefaultSnmp (wake_apply k w)) with (DefaultSnmp w) in F5.
    assert (Hev : forall ev, ev = WWriteEvent \/ ev = WTimer ->
              exists w',
                match WriteBuffer_wake ev w2 with
                | Ret (Some r) w3 => Ret r (with_wakes ws w3)
                | Ret None w3 =>
                    loop_select (WriteBuffer_body flag b) write_wait_cases
                      WriteBuffer_wake ws w3
                | Blocked w3 => Blocked w3
                | Panicked => Panicked
                | Diverged => Diverged
                end = Ret (0, Some errTimeout) w' /\
                wd (strm w') = t /\ wakes w' = ws /\
                live (strm w') /\ kcp (strm w') = kcp (strm w) /\
                wire w' = wire w /\ DefaultSnmp w' = DefaultSnmp w).
    { intros ev [->| ->]; cbn [WriteBuffer_wake]; mrun.
      - rewrite Hround by (st; rewrite ?F1, ?F2; reflexivity).
        eexists. split; [reflexivity|]. st. rewrite F1, F4, F5. st.
        unfold live. st. tauto.
      - eexists. split; [reflexivity|]. st. rewrite F1, F4, F5.
        unfold live. tauto. }
    destruct (timer_ready c (wk_now k)); cbn [ready filter map fst snd].
    - destruct (choose_two p WWriteEvent WTimer) as [-> | ->];
        apply Hev; tauto.
    - rewrite choose_one. apply Hev. tauto. }
  destruct Hwd as [H0|Hle].
  - rewrite H0. rewrite deadline_none. rewrite Hw. apply Hpark.
  - destruct (Z.eq_dec (wd (strm w)) 0) as [H0|Hn].
    + rewrite H0. rewrite deadline_none. rewrite Hw. apply Hpark.
    + rewrite deadline_ahead by assumption. rewrite Hw. apply Hpark.
Qed.

(** A frame written into the send buffer and submitted: the engine gets
    the tag followed by the payload. *)
Lemma frame_then_submit (flag : byte) (payload : list byte) (w : World) :
  len payload + 1 <= len (sendbuf (strm w)) ->
  exists sb,
    frame flag payload w = Ret tt (with_strm (set_sendbuf sb (strm w)) w) /\
    len sb = len (sendbuf (strm w)) /\
    submit (len payload + 1) (with_strm (set_sendbuf sb (strm w)) w)
    = Ret tt
        (with_strm
           (set_kcp (Send (kcp (strm w)) (flag :: payload))
              (set_sendbuf sb (strm w))) w).
Proof.
  intros Hb. pose proof (len_nonneg payload) as Hp.
  unfold frame. mrun. rewrite store_ok by lia. mrun.
  change (Z.to_nat 0) with 0%nat. cbn [firstn app].
  set (rest := skipn 1 (sendbuf (strm w))).
  assert (Hrest : len rest = len (sendbuf (strm w)) - 1).
  { unfold rest, len. rewrite length_skipn. unfold len in Hb. lia. }
  rewrite (slice_from_ok 1 (flag :: rest)) by (rewrite len_cons; lia). mrun.
  change (Z.to_nat 1) with 1%nat. cbn [skipn firstn app].
  assert (Hcopy : copy rest payload
                  = payload ++ skipn (length payload) rest).
  { unfold copy. rewrite firstn_all2; [reflexivity|]. unfold len in *. lia. }
  rewrite Hcopy.
  eexists. split; [reflexivity|]. split.
  - rewrite len_cons, len_app. unfold len at 2. rewrite length_skipn.
    unfold len in *. lia.
  - unfold submit. mrun.
    rewrite slice_to_ok.
    2:{ rewrite len_cons, len_app. pose proof (len_nonneg (skipn (length payload) rest)). lia. }
    replace (Z.to_nat (len payload + 1)) with (S (length payload))
      by (unfold len; lia).
    cbn [firstn]. rewrite firstn_app, firstn_all, Nat.sub_diag. cbn [firstn].
    rewrite app_nil_r. mrun. reflexivity.
Qed.

(** The inner loop of WriteBuffer: the segments it submits. *)
Lemma send_loop_frames (flag : byte) (mss : Z) :
  (forall k seg, kcp_mss (Send k seg) = kcp_mss k) ->
  2 <= mss < 2 ^ 32 ->
  forall (fuel : nat) (b : list byte) (w : World),
    kcp_mss (kcp (strm w)) = mss ->
    mss <= len (sendbuf (strm w)) ->
    (length b < fuel)%nat ->
    exists b' w',
      send_loop fuel flag b w = Ret b' w' /\
      len b' = tail_len (len b) mss /\
      kcp (strm w') = fold_left Send (frames fuel flag b mss) (kcp (strm w)) /\
      (forall (B : Type) (f : UDPStream -> B),
         send_blind f -> f (strm w') = f (strm w)) /\
      w' = with_strm (strm w') w.
Proof.
  intros Hsend Hm. induction fuel as [|fuel IH]; intros b w Hk Hb Hf; [lia|].
  cbn [send_loop]. unfold bind at 1, get at 1. rewrite Hk.
  pose proof (len_nonneg b) as Hb0.
  destruct (Z.ltb_spec (len b) mss) as [Hlt|Hge].
  - destruct (frame_then_submit flag b w ltac:(lia)) as (sb & Hfr & Hsb & Hsu).
    unfold bind at 1. rewrite Hfr.
    unfold bind at 1. rewrite Hsu.
    eexists _, _. split; [reflexivity|].
    split; [symmetry; apply tail_len_small; lia|].
    cbn [frames]. destruct (Z.ltb_spec (len b) mss); [|lia].
    st. split; [reflexivity|].
    split; [|reflexivity].
    intros B f Hwb.
    rewrite (proj1 (Hwb _)), (proj2 (Hwb _)). reflexivity.
  - unfold uint32. rewrite Z.mod_small by lia.
    unfold bind at 1. rewrite slice_to_ok by lia. cbn [must]. unfold ret.
    set (head := firstn (Z.to_nat (mss - 1)) b).
    assert (Hhead : len head = mss - 1).
    { unfold head, len. rewrite length_firstn. unfold len in *. lia. }
    destruct (frame_then_submit flag head w ltac:(lia))
      as (sb & Hfr & Hsb & Hsu).
    rewrite Hhead in Hsu. replace (mss - 1 + 1) with mss in Hsu by lia.
    unfold bind at 1. rewrite Hfr.
    unfold bind at 1. rewrite Hsu. unfold bind at 1, get at 1. st.
    rewrite Hsend, Hk. rewrite Z.mod_small by lia.
    unfold bind at 1. rewrite slice_from_ok by lia. cbn [must]. unfold ret.
    set (w3 := with_strm _ _).
    destruct (IH (skipn (Z.to_nat (mss - 1)) b) w3)
      as (b' & w' & Hr & Hl & Hkc & Hw & Hww).
    + unfold w3. st. rewrite Hsend. exact Hk.
    + unfold w3. st. lia.
    + rewrite length_skipn. unfold len in *. lia.
    + exists b', w'. split; [exact Hr|]. split.
      { rewrite Hl, (tail_len_step (len b) mss) by lia.
        f_equal. unfold len. rewrite length_skipn. unfold len in *. lia. }
      split.
      { rewrite Hkc. cbn [frames]. destruct (Z.ltb_spec (len b) mss); [lia|].
        unfold w3. st. reflexivity. }
      split.
      * intros B f Hwb. rewrite (Hw B f Hwb). unfold w3. st.
        rewrite (proj1 (Hwb _)), (proj2 (Hwb _)). reflexivity.
      * rewrite Hww at 1. unfold w3. reflexivity.
Qed.

(** ** What the write path leaves alone *)

Lemma timeless_ret {A} (a : A) : timeless (ret a).
Proof. intros w r w' H. inversion H. repeat split. Qed.

Lemma timeless_bind {A C} (c : M A) (k : A -> M C) :
  timeless c -> (forall a, timeless (k a)) -> timeless (bind c k).
Proof.
  intros Hc Hk w r w' H. unfold bind in H.
  destruct (c w) as [a w1| | |] eqn:E; try discriminate.
  destruct (Hk a _ _ _ H) as (H1 & H2 & H3).
  destruct (Hc _ _ _ E) as (G1 & G2 & G3).
  rewrite H1, H2, H3. repeat split; assumption.
Qed.

Lemma timeless_get : timeless get.
Proof. intros w r w' H. inversion H. repeat split. Qed.

Lemma timeless_Now : timeless Now.
Proof. intros w r w' H. inversion H. repeat split. Qed.

Lemma timeless_must {A} (o : option A) : timeless (must o).
Proof. destruct o; intros w r w' H; inversion H. repeat split. Qed.

Lemma timeless_modify (g : UDPStream -> UDPStream) : timeless (modify g).
Proof. intros w r w' H. inversion H. repeat split. Qed.

Lemma timeless_for_each {A} (l : list A) (body : A -> M unit) :
  (forall x, timeless (body x)) -> timeless (for_each l body).
Proof.
  intros Hb. induction l as [|x l IH]; cbn [for_each].
  - apply timeless_ret.
  - apply timeless_bind; [apply Hb | intros _; exact IH].
Qed.

Ltac timeless_step :=
  first
    [ apply timeless_ret | apply timeless_get | apply timeless_Now
    | apply timeless_must | apply timeless_modify
    | apply timeless_bind; [|intros]
    | apply timeless_for_each; intros
    | match goal with
      | |- timeless (if ?c then _ else _) => destruct c
      | |- timeless (match ?x with _ => _ end) => destruct x
      | |- timeless (let (_, _) := ?x in _) => destruct x
      end ].

Lemma timeless_send_loop fuel flag b : timeless (send_loop fuel flag b).
Proof.
  revert b. induction fuel as [|fuel IH]; intros b; cbn [send_loop].
  - intros w a w' H. discriminate.
  - unfold frame, submit. repeat first [apply IH | timeless_step].
Qed.

Lemma timeless_tunnel_output i msgs : timeless (tunnel_output i msgs).
Proof.
  unfold tunnel_output. repeat timeless_step.
  intros w0 r w' H. inversion H. repeat split.
Qed.

Lemma timeless_kcp_output e : timeless (kcp_output e).
Proof.
  destruct e as [[buf size] x].
  unfold kcp_output, output, parallelTun, grow, queue_copy, stamp, skip.
  repeat timeless_step.
Qed.

Lemma timeless_flush kcpFlush : timeless (flush kcpFlush).
Proof.
  unfold flush, kcp_flush_now, hand_over, notifyWriteEvent, skip.
  repeat first [apply timeless_kcp_output | apply timeless_tunnel_output
               | timeless_step].
Qed.

Lemma timeless_add_BytesSent d : timeless (add_BytesSent d).
Proof. intros w a w' H. inversion H. repeat split. Qed.

Lemma timeless_WriteBuffer_body flag b : timeless (WriteBuffer_body flag b).
Proof.
  unfold WriteBuffer_body, deadline, skip.
  repeat first [apply timeless_send_loop | apply timeless_flush
               | apply timeless_add_BytesSent | timeless_step].
Qed.

(** ** What [flush] leaves alone *)

Section FlushBlind.

Context {B : Type} (f : UDPStream -> B) (Hf : flush_blind f).

Ltac blind_step :=
  first
    [ apply keeps_ret | apply keeps_get | apply keeps_Now | apply keeps_must
    | apply keeps_modify; intros; apply Hf
    | apply keeps_bind; [|intros]
    | apply keeps_for_each; intros
    | match goal with
      | |- keeps _ (if ?c then _ else _) => destruct c
      | |- keeps _ (match ?x with _ => _ end) => destruct x
      | |- keeps _ (let (_, _) := ?x in _) => destruct x
      end ].

Lemma blind_kcp_output e : keeps f (kcp_output e).
Proof.
  destruct e as [[buf size] x].
  unfold kcp_output, output, parallelTun, grow, queue_copy, stamp, skip.
  repeat blind_step.
Qed.

Lemma blind_tunnel_output i msgs : keeps f (tunnel_output i msgs).
Proof.
  unfold tunnel_output. repeat blind_step.
  intros w0 r w' H. inversion H. reflexivity.
Qed.

(** [flush] without the engine. *)
Lemma blind_flush_false : keeps f (flush false).
Proof.
  unfold flush, hand_over, notifyWriteEvent, skip.
  repeat first [apply blind_tunnel_output | blind_step].
Qed.

(** [flush] with the engine: the engine's state is replaced by the one
    its own flush leaves, and nothing else that [f] sees changes. *)
Lemma blind_flush_true (w : World) iv w' :
  flush true w = Ret iv w' ->
  f (strm w')
  = f (set_kcp (fst (fst (kcp_flush (kcp (strm w)) (clock w) false))) (strm w)) /\
  iv = snd (kcp_flush (kcp (strm w)) (clock w) false).
Proof.
  intros H. unfold flush in H. unfold bind at 1 in H.
  unfold kcp_flush_now in H. unfold bind at 1, get at 1 in H.
  unfold bind at 1, Now at 1 in H.
  destruct (kcp_flush (kcp (strm w)) (clock w) false) as [[k1 out] iv1] eqn:E.
  cbn [fst snd].
  unfold bind at 1, modify at 1 in H.
  unfold bind at 1 in H.
  destruct (for_each out kcp_output (with_strm (set_kcp k1 (strm w)) w))
    as [u w1| | |] eqn:E1; try discriminate.
  unfold ret at 1 in H.
  assert (H1 : f (strm w1) = f (set_kcp k1 (strm w))).
  { apply (keeps_for_each f out kcp_output blind_kcp_output) in E1.
    exact E1. }
  assert (Hrest : keeps f
            (s <- get ;;
             (if len (msgss s) =? 0
              then (if window_open s then notifyWriteEvent else skip) ;; ret iv1
              else
                modify (set_msgss []) ;;
                (if window_open s then notifyWriteEvent else skip) ;;
                for_each (enumerate 0 (msgss s)) hand_over ;; ret iv1))).
  { unfold hand_over, notifyWriteEvent, skip.
    repeat first [apply blind_tunnel_output | blind_step]. }
  pose proof (Hrest w1 iv w' H) as H2. rewrite H2, H1. split; [reflexivity|].
  clear - H. unfold notifyWriteEvent, skip in H.
  unfold bind, get, modify, ret in H.
  repeat match type of H with
         | context [if ?c then _ else _] => destruct c
         end;
    cbv beta iota in H;
    repeat match type of H with
           | match ?c with _ => _ end = _ => destruct c; try discriminate
           end;
    inversion H; reflexivity.
Qed.

End FlushBlind.
(** ** What touches the stream only *)

Lemma stream_only_ret {A} (a : A) : stream_only (ret a).
Proof. intros w r w' H. inversion H. destruct w'; reflexivity. Qed.

Lemma stream_only_bind {A C} (c : M A) (k : A -> M C) :
  stream_only c -> (forall a, stream_only (k a)) -> stream_only (bind c k).
Proof.
  intros Hc Hk w r w' H. unfold bind in H.
  destruct (c w) as [a w1| | |] eqn:E; try discriminate.
  rewrite (Hk a _ _ _ H). rewrite (Hc _ _ _ E). reflexivity.
Qed.

Lemma stream_only_get : stream_only get.
Proof. intros w r w' H. inversion H. destruct w'; reflexivity. Qed.

Lemma stream_only_Now : stream_only Now.
Proof. intros w r w' H. inversion H. destruct w'; reflexivity. Qed.

Lemma stream_only_must {A} (o : option A) : stream_only (must o).
Proof.
  destruct o; intros w r w' H; inversion H. destruct w'; reflexivity.
Qed.

Lemma stream_only_modify (g : UDPStream -> UDPStream) : stream_only (modify g).
Proof. intros w r w' H. inversion H. reflexivity. Qed.

Lemma stream_only_for_each {A} (l : list A) (body : A -> M unit) :
  (forall x, stream_only (body x)) -> stream_only (for_each l body).
Proof.
  intros Hb. induction l as [|x l IH]; cbn [for_each].
  - apply stream_only_ret.
  - apply stream_only_bind; [apply Hb | intros _; exact IH].
Qed.

Ltac stream_only_step :=
  first
    [ apply stream_only_ret | apply stream_only_get | apply stream_only_Now
    | apply stream_only_must | apply stream_only_modify
    | apply stream_only_bind; [|intros]
    | apply stream_only_for_each; intros
    | match goal with
      | |- stream_only (if ?c then _ else _) => destruct c
      | |- stream_only (match ?x with _ => _ end) => destruct x
      | |- stream_only (let (_, _) := ?x in _) => destruct x
      end ].

Lemma stream_only_kcp_output e : stream_only (kcp_output e).
Proof.
  destruct e as [[buf size] x].
  unfold kcp_output, output, parallelTun, grow, queue_copy, stamp, skip.
  repeat stream_only_step.
Qed.

Lemma stream_only_kcp_flush_now : stream_only kcp_flush_now.
Proof.
  unfold kcp_flush_now.
  repeat first [apply stream_only_kcp_output | stream_only_step].
Qed.

(** The last loop of [flush]. *)
Lemma hand_over_all (batches : list (list Message)) :
  forall (i : Z) (ts : list UDPTunnel) (w : World),
    0 <= i ->
    skipn (Z.to_nat i) (tunnels (strm w)) = ts ->
    len batches <= len ts ->
    for_each (enumerate i batches) hand_over w
    = Ret tt (with_wire (wire w ++ handed ts batches) w).
Proof.
  induction batches as [|msgs batches IH]; intros i ts w Hi Hts Hlen.
  - cbn. rewrite app_nil_r. destruct w; reflexivity.
  - destruct ts as [|t ts'].
    { rewrite len_cons, len_nil in Hlen. pose proof (len_nonneg batches). lia. }
    cbn [enumerate for_each handed].
    assert (Hidx : index i (tunnels (strm w)) = Some t).
    { rewrite index_nth by exact Hi.
      rewrite <- (firstn_skipn (Z.to_nat i) (tunnels (strm w))) at 1.
      rewrite Hts.
      assert (Hl : length (firstn (Z.to_nat i) (tunnels (strm w))) = Z.to_nat i).
      { apply firstn_length_le.
        apply (f_equal (@length _)) in Hts. rewrite length_skipn in Hts.
        cbn [length] in Hts. lia. }
      rewrite nth_error_app2 by lia. rewrite Hl, Nat.sub_diag. reflexivity. }
    assert (Hts' : skipn (Z.to_nat (i + 1)) (tunnels (strm w)) = ts').
    { replace (Z.to_nat (i + 1)) with (1 + Z.to_nat i)%nat by lia.
      rewrite <- skipn_skipn. rewrite Hts. reflexivity. }
    rewrite !len_cons in Hlen.
    unfold bind at 1. unfold hand_over at 1.
    destruct (0 <? len msgs).
    + unfold tunnel_output. unfold bind at 1, get at 1. rewrite Hidx.
      unfold bind at 1, must at 1, ret at 1.
      rewrite (IH (i + 1) ts') by (st; first [lia | exact Hts']).
      st. rewrite <- app_assoc. reflexivity.
    + unfold skip, ret. rewrite (IH (i + 1) ts') by (first [lia | exact Hts']).
      reflexivity.
Qed.

(** The part of [flush] after the engine's own flush. *)
Lemma flush_rest (w : World) :
  len (msgss (strm w)) <= len (tunnels (strm w)) ->
  exists w',
    flush false w = Ret 0 w' /\
    msgss (strm w') = [] /\
    wire w' = wire w ++ handed (tunnels (strm w)) (msgss (strm w)) /\
    chWriteEvent (strm w') = chWriteEvent (strm w) || window_open (strm w) /\
    (forall (B : Type) (f : UDPStream -> B),
       flush_blind f -> f (strm w') = f (strm w)) /\
    DefaultSnmp w' = DefaultSnmp w.
Proof.
  intros Hlen. unfold flush. unfold bind at 1, ret at 1.
  unfold bind at 1, get at 1.
  destruct (Z.eqb_spec (len (msgss (strm w))) 0) as [Hz|Hnz].
  - assert (Hm : msgss (strm w) = []).
    { destruct (msgss (strm w)); [reflexivity|].
      rewrite len_cons in Hz. pose proof (len_nonneg l0). lia. }
    rewrite Hm. cbn [handed]. rewrite app_nil_r.
    destruct (window_open (strm w)); unfold notifyWriteEvent, skip; mrun.
    + eexists. split; [reflexivity|]. st. rewrite orb_true_r.
      repeat split; try assumption.
      intros B f Hf. apply Hf.
    + eexists. split; [reflexivity|]. rewrite orb_false_r.
      repeat split; assumption.
  - unfold bind at 1, modify at 1.
    assert (Hho : forall w0, tunnels (strm w0) = tunnels (strm w) ->
              for_each (enumerate 0 (msgss (strm w))) hand_over w0
              = Ret tt (with_wire
                          (wire w0 ++ handed (tunnels (strm w)) (msgss (strm w)))
                          w0)).
    { intros w0 Ht. apply hand_over_all; [lia| |exact Hlen].
      rewrite Ht. reflexivity. }
    destruct (window_open (strm w)); unfold notifyWriteEvent, skip; mrun;
      rewrite Hho by reflexivity; mrun.
    + eexists. split; [reflexivity|]. st. rewrite orb_true_r.
      repeat split.
      intros B f Hf.
      rewrite (proj2 (proj2 (Hf _))), (proj1 (Hf _)). reflexivity.
    + eexists. split; [reflexivity|]. st. rewrite orb_false_r.
      repeat split.
      intros B f Hf. rewrite (proj1 (Hf _)). reflexivity.
Qed.

Lemma flush_after_engine (w : World) :
  flush true w
  = bind kcp_flush_now (fun iv => bind (flush false) (fun _ => ret iv)) w.
Proof.
  unfold flush, bind, get, ret, modify.
  destruct (kcp_flush_now w) as [iv w1| | |]; try reflexivity.
  destruct (len (msgss (strm w1)) =? 0); cbv beta;
    repeat match goal with
           | |- context [match ?x with Ret _ _ => _ | _ => _ end] =>
               lazymatch x with
               | context [match _ with Ret _ _ => _ | _ => _ end] => fail
               | _ => destruct x
               end
           end; reflexivity.
Qed.

(** [flush] as a whole. *)
Lemma flush_run (kcpFlush : bool) (w : World) :
  0 <= IKCP_OVERHEAD -> engine_ok ->
  stream_ok (strm w) ->
  exists iv w1 w',
    (if kcpFlush then kcp_flush_now else ret 0) w = Ret iv w1 /\
    flush kcpFlush w = Ret iv w' /\
    msgss (strm w') = [] /\
    wire w1 = wire w /\
    wire w' = wire w ++ handed (tunnels (strm w1)) (msgss (strm w1)) /\
    chWriteEvent (strm w') = chWriteEvent (strm w1) || window_open (strm w1) /\
    (forall (B : Type) (f : UDPStream -> B),
       flush_blind f -> f (strm w') = f (strm w1)) /\
    DefaultSnmp w' = DefaultSnmp w.
Proof.
  intros H0 He Hs. destruct kcpFlush.
  - destruct (kcp_flush_now_ok w H0 He Hs) as (iv & w1 & Hk & Hs1).
    pose proof (stream_only_kcp_flush_now w iv w1 Hk) as Hw1.
    assert (Hwire : wire w1 = wire w) by (rewrite Hw1; reflexivity).
    assert (Hsn : DefaultSnmp w1 = DefaultSnmp w) by (rewrite Hw1; reflexivity).
    destruct (flush_rest w1) as (w' & Hf & Hm & Hwi & Hev & Hbl & Hsn').
    { destruct Hs1 as (_ & _ & _ & _ & H). exact H. }
    exists iv, w1, w'. split; [exact Hk|]. split.
    { rewrite flush_after_engine. unfold bind at 1. rewrite Hk.
      unfold bind. rewrite Hf. reflexivity. }
    rewrite <- Hwire, <- Hsn. repeat split; assumption.
  - destruct (flush_rest w) as (w' & Hf & Hm & Hwi & Hev & Hbl & Hsn).
    { destruct Hs as (_ & _ & _ & _ & H). exact H. }
    exists 0, w, w'. repeat split; assumption.
Qed.


Lemma flush_blind_kcp : flush_blind kcp.
Proof. intros s. repeat split. Qed.

Lemma send_blind_ok (s s' : UDPStream) :
  (forall (B : Type) (f : UDPStream -> B), send_blind f -> f s' = f s) ->
  stream_ok s -> stream_ok s'.
Proof.
  intros Hk (Hu & Hh & Ht & Hre & Hms). unfold stream_ok.
  rewrite (Hk _ uuid), (Hk _ headerSize), (Hk _ tunnels), (Hk _ remotes),
    (Hk _ msgss) by (intros x; split; reflexivity).
  repeat split; assumption.
Qed.

(** The body of WriteBuffer's loop when the window is open. *)
Lemma WriteBuffer_body_open (flag : byte) (b : list byte) (w : World) :
  (forall k seg, kcp_mss (Send k seg) = kcp_mss k) ->
  0 <= IKCP_OVERHEAD -> engine_ok ->
  stream_ok (strm w) ->
  window_open (strm w) = true ->
  2 <= kcp_mss (kcp (strm w)) < 2 ^ 32 ->
  kcp_mss (kcp (strm w)) <= len (sendbuf (strm w)) ->
  exists w',
    WriteBuffer_body flag b w
    = Ret (inl (tail_len (len b) (kcp_mss (kcp (strm w))), None)) w' /\
    (let k1 := fold_left Send
                 (frames (S (length b)) flag b (kcp_mss (kcp (strm w))))
                 (kcp (strm w)) in
     let full := (kcp_snd_wnd k1 <=? WaitSnd k1)
                 || (kcp_rmt_wnd k1 <=? WaitSnd k1) in
     kcp (strm w')
     = (if full || negb (writeDelay (strm w))
        then fst (fst (kcp_flush k1 (clock w) false)) else k1) /\
     (full || negb (writeDelay (strm w)) = false ->
      msgss (strm w') = msgss (strm w) /\ wire w' = wire w /\
      chWriteEvent (strm w') = chWriteEvent (strm w))) /\
    stream_ok (strm w') /\
    DefaultSnmp w'
    = mkSnmp
        (uint64 (BytesSent (DefaultSnmp w)
                 + uint64 (tail_len (len b) (kcp_mss (kcp (strm w))))))
        (BytesReceived (DefaultSnmp w)) (CurrEstab (DefaultSnmp w)).
Proof.
  intros Hsend H0 He Hs Ho Hm Hb.
  unfold WriteBuffer_body.
  unfold bind at 1, get at 1. rewrite Ho. unfold bind at 1.
  destruct (send_loop_frames flag _ Hsend Hm (S (length b)) b w
              eq_refl Hb ltac:(lia))
    as (b' & w1 & -> & Hl & Hk1 & Hblind & Hw1).
  unfold bind at 1, get at 1. unfold bind at 1.
  assert (Hs1 : stream_ok (strm w1)) by (apply (send_blind_ok _ _ Hblind Hs)).
  assert (Hwd : writeDelay (strm w1) = writeDelay (strm w))
    by (apply Hblind; intros x; split; reflexivity).
  assert (Hms : msgss (strm w1) = msgss (strm w))
    by (apply Hblind; intros x; split; reflexivity).
  assert (Hwe : chWriteEvent (strm w1) = chWriteEvent (strm w))
    by (apply Hblind; intros x; split; reflexivity).
  assert (Hck : clock w1 = clock w) by (rewrite Hw1; reflexivity).
  assert (Hwi : wire w1 = wire w) by (rewrite Hw1; reflexivity).
  assert (Hsn : DefaultSnmp w1 = DefaultSnmp w) by (rewrite Hw1; reflexivity).
  cbv zeta. rewrite Hk1, Hwd.
  set (k1 := fold_left Send _ (kcp (strm w))) in *.
  unfold skip, add_BytesSent.
  destruct ((kcp_snd_wnd k1 <=? WaitSnd k1) || (kcp_rmt_wnd k1 <=? WaitSnd k1)
            || negb (writeDelay (strm w))) eqn:Ef.
  - unfold bind at 1. unfold bind at 1.
    destruct (flush_ok true w1 H0 He Hs1) as (iv & w2 & Hfl & Hs2).
    destruct (flush_run true w1 H0 He Hs1)
      as (iv' & wa & w2' & _ & Hfl' & _ & _ & _ & _ & _ & Hsn2).
    rewrite Hfl in Hfl'. inversion Hfl'; subst iv' w2'.
    rewrite Hfl.
    destruct (blind_flush_true kcp flush_blind_kcp w1 iv w2 Hfl) as (Hk2 & _).
    cbn [kcp set_kcp] in Hk2. rewrite Hk1, Hck in Hk2. fold k1 in Hk2.
    mrun. rewrite Hl. eexists. split; [reflexivity|].
    split; [split; [exact Hk2|discriminate]|]. split; [exact Hs2|].
    st. rewrite Hsn2, Hsn. reflexivity.
  - mrun. rewrite Hl. eexists. split; [reflexivity|].
    split; [split; [exact Hk1|]|].
    + intros _. repeat split; assumption.
    + split; [exact Hs1|]. st. rewrite Hsn. reflexivity.
Qed.

(** WriteBuffer on a live stream whose window is open. *)
Lemma WriteBuffer_open (flag : byte) (b : list byte) (w : World) :
  (forall k seg, kcp_mss (Send k seg) = kcp_mss k) ->
  0 <= IKCP_OVERHEAD -> engine_ok ->
  stream_ok (strm w) -> live (strm w) ->
  window_open (strm w) = true ->
  2 <= kcp_mss (kcp (strm w)) < 2 ^ 32 ->
  kcp_mss (kcp (strm w)) <= len (sendbuf (strm w)) ->
  exists w',
    WriteBuffer flag b w
    = Ret (tail_len (len b) (kcp_mss (kcp (strm w))), None) w' /\
    (let k1 := fold_left Send
                 (frames (S (length b)) flag b (kcp_mss (kcp (strm w))))
                 (kcp (strm w)) in
     let full := (kcp_snd_wnd k1 <=? WaitSnd k1)
                 || (kcp_rmt_wnd k1 <=? WaitSnd k1) in
     kcp (strm w')
     = (if full || negb (writeDelay (strm w))
        then fst (fst (kcp_flush k1 (clock w) false)) else k1) /\
     (full || negb (writeDelay (strm w)) = false ->
      msgss (strm w') = msgss (strm w) /\ wire w' = wire w /\
      chWriteEvent (strm w') = chWriteEvent (strm w))) /\
    stream_ok (strm w') /\
    (forall (B : Type) (f : UDPStream -> B),
       write_blind f -> f (strm w') = f (strm w)) /\
    clock w' = clock w /\ wakes w' = wakes w /\ picks w' = picks w /\
    DefaultSnmp w'
    = mkSnmp
        (uint64 (BytesSent (DefaultSnmp w)
                 + uint64 (tail_len (len b) (kcp_mss (kcp (strm w))))))
        (BytesReceived (DefaultSnmp w)) (CurrEstab (DefaultSnmp w)).
Proof.
  intros Hsend H0 He Hs Hl Ho Hm Hb.
  destruct (WriteBuffer_body_open flag b w Hsend H0 He Hs Ho Hm Hb)
    as (w1 & Hbody & Hk & Hs1 & Hsn).
  exists (with_wakes (wakes w) w1).
  rewrite WriteBuffer_live by exact Hl. rewrite Hbody.
  destruct (timeless_WriteBuffer_body flag b w _ w1 Hbody) as (T1 & T2 & T3).
  split; [reflexivity|]. split; [exact Hk|]. split; [exact Hs1|].
  split; [|st; repeat split; assumption].
  intros B f Hf. st.
  exact (keeps_WriteBuffer_body f Hf flag b w _ w1 Hbody).
Qed.

(** X13: a write on a live stream with room in the window hands the
    engine the segments of [frames], in order; it returns the length of
    the last segment's payload and adds that to the sent-bytes counter;
    the engine is flushed when a window is full afterwards or the write
    delay is off, and otherwise neither the queues, the wire nor the
    write event change. *)
Theorem Write_submits_frames (flag : byte) (b : list byte) (w : World) :
  (forall k seg, kcp_mss (Send k seg) = kcp_mss k) ->
  0 <= IKCP_OVERHEAD -> engine_ok ->
  stream_ok (strm w) -> live (strm w) ->
  window_open (strm w) = true ->
  2 <= kcp_mss (kcp (strm w)) < 2 ^ 32 ->
  kcp_mss (kcp (strm w)) <= len (sendbuf (strm w)) ->
  exists w',
    WriteBuffer flag b w
    = Ret (tail_len (len b) (kcp_mss (kcp (strm w))), None) w' /\
    (let k1 := fold_left Send
                 (frames (S (length b)) flag b (kcp_mss (kcp (strm w))))
                 (kcp (strm w)) in
     let full := (kcp_snd_wnd k1 <=? WaitSnd k1)
                 || (kcp_rmt_wnd k1 <=? WaitSnd k1) in
     kcp (strm w')
     = (if full || negb (writeDelay (strm w))
        then fst (fst (kcp_flush k1 (clock w) false)) else k1) /\
     (full || negb (writeDelay (strm w)) = false ->
      msgss (strm w') = msgss (strm w) /\ wire w' = wire w /\
      chWriteEvent (strm w') = chWriteEvent (strm w))) /\
    BytesSent (DefaultSnmp w')
    = uint64 (BytesSent (DefaultSnmp w)
              + uint64 (tail_len (len b) (kcp_mss (kcp (strm w))))).
Proof.
  intros Hsend H0 He Hs Hl Ho Hm Hb.
  destruct (WriteBuffer_open flag b w Hsend H0 He Hs Hl Ho Hm Hb)
    as (w1 & Hw & Hk & _ & _ & _ & _ & _ & Hsn).
  exists w1. split; [exact Hw|]. split; [exact Hk|]. rewrite Hsn. reflexivity.
Qed.

(** X14: a write on a stream whose closed, reset or send-FIN signal is
    closed returns at once zero bytes and the error of one of the closed
    signals (closed pipe for closed and for send-FIN, unexpected EOF for
    reset), and changes neither the stream, the wire nor the counters. *)
Theorem Write_after_terminal (flag : byte) (b : list byte) (w : World) :
  chClose (strm w) || chRst (strm w) || chSendFinEvent (strm w) = true ->
  exists e w',
    WriteBuffer flag b w = Ret (0, Some e) w' /\
    In (true, e) (write_entry_cases (strm w)) /\
    strm w' = strm w /\ wire w' = wire w /\ DefaultSnmp w' = DefaultSnmp w.
Proof.
  intros H.
  destruct (select_default_fires write_entry_cases w) as (e & He & Hin).
  { unfold write_entry_cases, ready.
    destruct (chClose (strm w)); [discriminate|].
    destruct (chRst (strm w)); [discriminate|].
    destruct (chSendFinEvent (strm w)); [discriminate|]. discriminate H. }
  exists e, (snd (pop_pick w)). split.
  - unfold WriteBuffer, bind. rewrite He. reflexivity.
  - split; [exact Hin|]. pose proof (pop_pick_frame w). tauto.
Qed.

(** X15: a write parked on a full window with no deadline, woken by
    the write event when the window has room again, submits its segments
    then and returns like a write that found the window open. *)
Theorem Write_resumes_when_window_opens (flag : byte) (b : list byte)
    (w : World) (k : wake) (ws : list wake) :
  (forall k seg, kcp_mss (Send k seg) = kcp_mss k) ->
  0 <= IKCP_OVERHEAD -> engine_ok ->
  live (strm w) ->
  window_open (strm w) = false -> wd (strm w) = 0 ->
  wakes w = k :: ws ->
  let s1 := wk_env k (strm w) in
  live s1 -> stream_ok s1 ->
  chWriteEvent s1 = true -> window_open s1 = true ->
  2 <= kcp_mss (kcp s1) < 2 ^ 32 ->
  kcp_mss (kcp s1) <= len (sendbuf s1) ->
  exists w',
    WriteBuffer flag b w
    = Ret (tail_len (len b) (kcp_mss (kcp s1)), None) w' /\
    (let k1 := fold_left Send
                 (frames (S (length b)) flag b (kcp_mss (kcp s1))) (kcp s1) in
     let full := (kcp_snd_wnd k1 <=? WaitSnd k1)
                 || (kcp_rmt_wnd k1 <=? WaitSnd k1) in
     kcp (strm w')
     = (if full || negb (writeDelay s1)
        then fst (fst (kcp_flush k1 (wk_now k) false)) else k1)) /\
    wakes w' = ws.
Proof.
  intros Hsend H0 He Hl Ho Hwd Hw s1 Hl1 Hs1 Hev Ho1 Hm Hb.
  rewrite WriteBuffer_live by exact Hl.
  rewrite WriteBuffer_body_shut by exact Ho.
  rewrite Hwd, deadline_none, Hw. cbn [parked_sel].
  unfold wake_select, write_wait_cases. cbv zeta.
  change (strm (wake_apply k w)) with s1.
  destruct Hl1 as (Hc1 & Hr1 & Hf1 & _).
  rewrite Hc1, Hr1, Hf1, Hev. cbn [timer_ready ready filter map fst snd].
  pose proof (pop_pick_frame (wake_apply k w)) as Hfr.
  destruct (pop_pick (wake_apply k w)) as [p w2] eqn:Ep. cbn [snd] in Hfr.
  destruct Hfr as (F1 & F2 & F3 & F4 & F5).
  change (strm (wake_apply k w)) with s1 in F1.
  change (clock (wake_apply k w)) with (wk_now k) in F2.
  rewrite choose_one. cbn [WriteBuffer_wake]. mrun.
  rewrite loop_select_eq.
  set (w3 := with_strm (set_chWriteEvent false (strm w2)) w2).
  destruct (WriteBuffer_body_open flag b w3 Hsend H0 He)
    as (w4 & Hbody & Hk & _ & _).
  - unfold w3. st. rewrite F1. destruct Hs1 as (A1 & A2 & A3 & A4 & A5).
    unfold stream_ok. st. repeat split; assumption.
  - unfold w3. st. rewrite F1. unfold window_open in *. st. exact Ho1.
  - unfold w3. st. rewrite F1. st. exact Hm.
  - unfold w3. st. rewrite F1. st. exact Hb.
  - rewrite Hbody. unfold w3 in Hk |- *. st.
    rewrite F1 in Hk |- *. rewrite F2 in Hk.
    eexists. split; [reflexivity|].
    split; [|reflexivity]. st. exact (proj1 Hk).
Qed.

(** ** SYN: the endpoints sent and received *)

Lemma eqb_other (c sep : byte) : c <> sep -> Byte.eqb c sep = false.
Proof.
  intros H. destruct (Byte.eqb c sep) eqn:E; [|reflexivity].
  apply Byte.byte_dec_bl in E. contradiction.
Qed.

Lemma Split_one (e : list byte) (sep : byte) :
  ~ In sep e -> Split e sep = [e].
Proof.
  induction e as [|c e IH]; intros H; [reflexivity|].
  cbn [Split]. rewrite eqb_other by (intros ->; apply H; left; reflexivity).
  rewrite IH by (intros Hin; apply H; right; exact Hin). reflexivity.
Qed.

Lemma Split_app_sep (e s : list byte) (sep : byte) :
  ~ In sep e -> Split (e ++ sep :: s) sep = e :: Split s sep.
Proof.
  induction e as [|c e IH]; intros H.
  - cbn [app Split]. rewrite (Byte.byte_dec_lb eq_refl). reflexivity.
  - cbn [app Split]. rewrite eqb_other by (intros ->; apply H; left; reflexivity).
    rewrite IH by (intros Hin; apply H; right; exact Hin). reflexivity.
Qed.

Lemma Split_Join (l : list (list byte)) (sep : byte) :
  l <> [] -> Forall (fun e => ~ In sep e) l ->
  Split (Join l sep) sep = l.
Proof.
  induction l as [|e l IH]; intros Hne Hall; [congruence|].
  inversion Hall as [|? ? He Hl]; subst.
  destruct l as [|e2 l].
  - cbn [Join]. apply Split_one. exact He.
  - change (Join (e :: e2 :: l) sep) with (e ++ sep :: Join (e2 :: l) sep).
    rewrite Split_app_sep by exact He.
    rewrite IH by (first [discriminate | exact Hl]). reflexivity.
Qed.

Lemma resolve_all_length (l : list (list byte)) (addrs : list NetAddr) :
  resolve_all l = Some addrs -> length addrs = length l.
Proof.
  revert addrs. induction l as [|r l IH]; intros addrs H; cbn [resolve_all] in H.
  - inversion H. reflexivity.
  - destruct (ResolveUDPAddr r); [|discriminate].
    destruct (resolve_all l) as [a|]; [|discriminate].
    inversion H. cbn [length]. rewrite (IH a eq_refl). reflexivity.
Qed.

(** The first SYN with a list of endpoints the selector and the resolver
    accept. *)
Lemma recvSyn_endpoints (data : list byte) (w : World) addrs :
  recvSynOnce (strm w) = false ->
  len (sel (strm w) (Split data space)) = len (Split data space) ->
  resolve_all (Split data space) = Some addrs ->
  recvSyn data w
  = Ret (len data, None)
      (with_strm
         (set_remotes addrs
            (set_tunnels (sel (strm w) (Split data space))
               (set_recvSynOnce true (strm w)))) w).
Proof.
  intros Ho Hsel Hres. unfold recvSyn, once_Do. mrun. rewrite Ho.
  cbn [negb]. mrun.
  pose proof (Split_len_pos data space) as Hpos.
  destruct (Z.eqb_spec (len (Split data space)) 0); [lia|]. st.
  rewrite Hsel.
  destruct (Z.eqb_spec (len (Split data space)) 0); [lia|].
  rewrite Z.eqb_refl. cbn [negb orb]. rewrite Hres. mrun. reflexivity.
Qed.

(** X16: the payload Dial sends, the local endpoints joined by
    spaces, is read back by the first [recvSyn] as the same list when the
    list is not empty and no endpoint contains a space: the tunnels become
    the selector's pick for it and the remotes its resolved addresses. *)
Theorem recvSyn_takes_what_Dial_sends (locals : list (list byte)) (w : World)
    addrs :
  locals <> [] ->
  Forall (fun e => ~ In space e) locals ->
  recvSynOnce (strm w) = false ->
  len (sel (strm w) locals) = len locals ->
  resolve_all locals = Some addrs ->
  exists w',
    recvSyn (Join locals space) w = Ret (len (Join locals space), None) w' /\
    tunnels (strm w') = sel (strm w) locals /\
    remotes (strm w') = addrs /\
    len (tunnels (strm w')) = len (remotes (strm w')) /\
    recvSynOnce (strm w') = true.
Proof.
  intros Hne Hall Ho Hsel Hres.
  pose proof (Split_Join locals space Hne Hall) as HS.
  rewrite recvSyn_endpoints with (addrs := addrs); rewrite ?HS; try assumption.
  eexists. split; [reflexivity|]. st. repeat split.
  rewrite Hsel. unfold len. rewrite (resolve_all_length _ _ Hres). reflexivity.
Qed.

(** X17: whatever its payload, [recvSyn] returns the payload's length,
    marks the SYN as received, and leaves as many tunnels as remotes and at
    least one; when it reports an error, tunnels and remotes are the old
    ones; no other field changes. *)
Theorem recvSyn_keeps_pairing (data : list byte) (w : World) :
  len (tunnels (strm w)) = len (remotes (strm w)) ->
  1 <= len (remotes (strm w)) ->
  exists err w',
    recvSyn data w = Ret (len data, err) w' /\
    len (tunnels (strm w')) = len (remotes (strm w')) /\
    1 <= len (remotes (strm w')) /\
    recvSynOnce (strm w') = true /\
    (err <> None ->
     tunnels (strm w') = tunnels (strm w) /\
     remotes (strm w') = remotes (strm w)) /\
    (forall (B : Type) (f : UDPStream -> B),
       (forall s v, f (set_tunnels v s) = f s) ->
       (forall s v, f (set_remotes v s) = f s) ->
       (forall s v, f (set_recvSynOnce v s) = f s) ->
       f (strm w') = f (strm w)).
Proof.
  intros Hp H1. unfold recvSyn, once_Do. mrun.
  destruct (recvSynOnce (strm w)) eqn:Ho; cbn [negb]; mrun.
  - exists None, w. repeat split; assumption.
  - pose proof (Split_len_pos data space) as Hpos.
    destruct (Z.eqb_spec (len (Split data space)) 0); [lia|]. st.
    assert (Hfr : forall (B : Type) (f : UDPStream -> B),
              (forall s v, f (set_recvSynOnce v s) = f s) ->
              f (set_recvSynOnce true (strm w)) = f (strm w))
      by (intros B f Hf; apply Hf).
    destruct ((len (sel (strm w) (Split data space)) =? 0)
              || negb (len (sel (strm w) (Split data space))
                       =? len (Split data space))) eqn:Epick.
    + mrun. exists (Some errSynInfo). eexists. split; [reflexivity|]. st.
      repeat split; try assumption. intros B f _ _ Hf. apply Hf.
    + apply orb_false_elim in Epick. destruct Epick as [_ Epick].
      apply negb_false_iff in Epick. apply Z.eqb_eq in Epick.
      destruct (resolve_all (Split data space)) as [addrs|] eqn:Eres; mrun.
      * exists None. eexists. split; [reflexivity|]. st.
        pose proof (resolve_all_length _ _ Eres) as Hl.
        repeat split.
        -- rewrite Epick. unfold len. rewrite Hl. reflexivity.
        -- unfold len in *. rewrite Hl. lia.
        -- congruence.
        -- congruence.
        -- intros B f F1 F2 F3. rewrite F2, F1, F3. reflexivity.
      * exists (Some errResolve). eexists. split; [reflexivity|]. st.
        repeat split; try assumption. intros B f _ _ Hf. apply Hf.
Qed.

(** ** Accept *)

(** Accept once it has taken the first message out of the engine. *)
Lemma Accept_message (bufend : Z) (w : World) flag data k :
  live (strm w) ->
  0 < PeekSize (kcp (strm w)) <= len (recvbuf (strm w)) ->
  Recv (kcp (strm w))
    (firstn (Z.to_nat (PeekSize (kcp (strm w)))) (recvbuf (strm w)))
  = (flag :: data, k) ->
  Accept bufend w
  = (if negb (Byte.eqb flag SYN) then ret (Some errRemoteStream)
     else bind (recvSyn data) (fun r => ret (snd r)))
      (with_strm
         (set_bufptr (overwritten bufend (flag :: data) (bufptr (strm w)))
            (received (strm w) (flag :: data) k)) w).
Proof.
  intros Hl Hp Hr. unfold Accept. unfold bind at 1.
  rewrite select_default_none by (apply live_read_entry; exact Hl).
  unfold bind at 1, get at 1.
  destruct (Z.leb_spec (PeekSize (kcp (strm w))) 0); [lia|].
  rewrite slice_to_ok by lia.
  unfold bind at 1, must at 1, ret at 1. rewrite Hr.
  unfold bind at 1, modify at 1.
  change (index 0 (flag :: data)) with (Some flag).
  unfold bind at 1, must at 1, ret at 1.
  unfold received. cbv zeta.
  destruct (Z.ltb_spec (len (recvbuf (strm w))) (PeekSize (kcp (strm w))));
    [lia|].
  destruct (negb (Byte.eqb flag SYN)); [reflexivity|].
  assert (Hd : slice_from 1 (flag :: data) = Some data).
  { rewrite slice_from_ok; [reflexivity|].
    rewrite len_cons. pose proof (len_nonneg data). lia. }
  rewrite Hd. unfold bind at 1, must at 1, ret at 1. reflexivity.
Qed.

(** X18: Accept on a stream whose first message does not carry the SYN
    tag returns the remote-stream error; the message has been taken out of
    the engine, and tunnels, remotes and the SYN latch are untouched.  The
    bytes left behind the read cursor that lie, in the array of the
    receive buffer, where the message was written are overwritten by
    it. *)
Theorem Accept_first_not_syn (bufend : Z) (w : World) flag data k :
  live (strm w) ->
  0 < PeekSize (kcp (strm w)) <= len (recvbuf (strm w)) ->
  Recv (kcp (strm w))
    (firstn (Z.to_nat (PeekSize (kcp (strm w)))) (recvbuf (strm w)))
  = (flag :: data, k) ->
  flag <> SYN ->
  exists w',
    Accept bufend w = Ret (Some errRemoteStream) w' /\
    kcp (strm w') = k /\
    tunnels (strm w') = tunnels (strm w) /\
    remotes (strm w') = remotes (strm w) /\
    recvSynOnce (strm w') = recvSynOnce (strm w) /\
    bufptr (strm w')
    = overwritten bufend (flag :: data) (bufptr (strm w)) /\
    live (strm w').
Proof.
  intros Hl Hp Hr Hf.
  rewrite (Accept_message bufend w flag data k Hl Hp Hr).
  rewrite eqb_other by exact Hf. cbn [negb].
  eexists. split; [reflexivity|]. unfold received, live in *. st.
  repeat split; tauto.
Qed.

(** X19: Accept on a fresh stream whose first message is the SYN that
    Dial sends for a list of endpoints the selector and the resolver
    accept returns no error, with the tunnels picked for that list and its
    resolved addresses as remotes. *)
Theorem Accept_takes_syn (bufend : Z) (w : World)
    (locals : list (list byte)) addrs k :
  live (strm w) ->
  0 < PeekSize (kcp (strm w)) <= len (recvbuf (strm w)) ->
  Recv (kcp (strm w))
    (firstn (Z.to_nat (PeekSize (kcp (strm w)))) (recvbuf (strm w)))
  = (SYN :: Join locals space, k) ->
  locals <> [] ->
  Forall (fun e => ~ In space e) locals ->
  recvSynOnce (strm w) = false ->
  len (sel (strm w) locals) = len locals ->
  resolve_all locals = Some addrs ->
  exists w',
    Accept bufend w = Ret None w' /\
    tunnels (strm w') = sel (strm w) locals /\
    remotes (strm w') = addrs /\
    kcp (strm w') = k /\
    recvSynOnce (strm w') = true.
Proof.
  intros Hl Hp Hr Hne Hall Ho Hsel Hres.
  rewrite (Accept_message bufend w SYN (Join locals space) k Hl Hp Hr).
  change (negb (Byte.eqb SYN SYN)) with false. cbv iota.
  pose proof (Split_Join locals space Hne Hall) as HS.
  unfold bind.
  rewrite recvSyn_endpoints with (addrs := addrs);
    unfold received; st; rewrite ?HS; try assumption.
  eexists. split; [reflexivity|]. st. repeat split.
Qed.

(** X20: Accept does not wait: with no message assembled it returns
    the remote-stream error at once and changes nothing.  Unlike Read it
    does not grow the receive buffer: a first message larger than the
    buffer makes it panic. *)
Theorem Accept_needs_a_fitting_message (bufend : Z) (w : World) :
  live (strm w) ->
  (PeekSize (kcp (strm w)) <= 0 ->
   Accept bufend w = Ret (Some errRemoteStream) w) /\
  (len (recvbuf (strm w)) < PeekSize (kcp (strm w)) ->
   Accept bufend w = Panicked).
Proof.
  intros Hl. pose proof (len_nonneg (recvbuf (strm w))).
  split; intros Hp; unfold Accept; unfold bind at 1;
    rewrite select_default_none by (apply live_read_entry; exact Hl);
    unfold bind at 1, get at 1.
  - destruct (Z.leb_spec (PeekSize (kcp (strm w))) 0); [reflexivity|lia].
  - destruct (Z.leb_spec (PeekSize (kcp (strm w))) 0); [lia|].
    unfold slice_to.
    destruct (Z.leb_spec (PeekSize (kcp (strm w))) (len (recvbuf (strm w))));
      [lia|].
    rewrite andb_false_r. reflexivity.
Qed.

(** ** The segments of a write *)

Lemma frames_shape (flag : byte) (mss : Z) :
  2 <= mss ->
  forall (fuel : nat) (b : list byte),
    (length b < fuel)%nat ->
    let segs := frames fuel flag b mss in
    segs <> [] /\
    Forall (fun seg => exists p, seg = flag :: p /\ len p < mss) segs /\
    Forall (fun seg => len seg = mss) (removelast segs) /\
    concat (map (@tl byte) segs) = b /\
    len (last segs []) = tail_len (len b) mss + 1.
Proof.
  intros Hm. induction fuel as [|fuel IH]; intros b Hf; [lia|].
  cbn [frames]. pose proof (len_nonneg b) as Hb0.
  destruct (Z.ltb_spec (len b) mss) as [Hlt|Hge].
  - split; [discriminate|].
    split; [constructor; [exists b; split; [reflexivity|lia]|constructor]|].
    split; [constructor|]. split; [cbn; apply app_nil_r|].
    cbn [last]. rewrite len_cons, tail_len_small by lia. reflexivity.
  - set (head := firstn (Z.to_nat (mss - 1)) b).
    set (rest := skipn (Z.to_nat (mss - 1)) b).
    assert (Hhead : len head = mss - 1).
    { unfold head, len. rewrite length_firstn. unfold len in *. lia. }
    assert (Hrest : len rest = len b - (mss - 1)).
    { unfold rest, len. rewrite length_skipn. unfold len in *. lia. }
    destruct (IH rest) as (Hne & Hall & Hinit & Hcat & Hlast).
    { unfold len in *. lia. }
    cbv zeta. split; [discriminate|].
    split; [constructor; [exists head; split; [reflexivity|lia]|exact Hall]|].
    destruct (frames fuel flag rest mss) as [|seg segs] eqn:E; [congruence|].
    split.
    { change (removelast ((flag :: head) :: seg :: segs))
        with ((flag :: head) :: removelast (seg :: segs)).
      constructor; [rewrite len_cons; lia|exact Hinit]. }
    split.
    { cbn [map concat tl] in Hcat |- *. rewrite Hcat. apply firstn_skipn. }
    change (last ((flag :: head) :: seg :: segs) [])
      with (last (seg :: segs) []).
    rewrite Hlast, Hrest. rewrite (tail_len_step (len b) mss) by lia.
    reflexivity.
Qed.

(** X21: the segments of a write are never none; each is the command
    tag followed by fewer than [mss] bytes of payload; all but the last
    are exactly [mss] bytes long; their payloads in order are the bytes
    written; and the last one carries [tail_len] bytes, the count Write
    returns. *)
Theorem frames_cover (flag : byte) (b : list byte) (mss : Z) :
  2 <= mss ->
  let segs := frames (S (length b)) flag b mss in
  segs <> [] /\
  Forall (fun seg => exists p, seg = flag :: p /\ len p < mss) segs /\
  Forall (fun seg => len seg = mss) (removelast segs) /\
  concat (map (@tl byte) segs) = b /\
  len (last segs []) = tail_len (len b) mss + 1.
Proof.
  intros Hm. apply frames_shape; [exact Hm|]. lia.
Qed.

(** ** The constructor *)

(** X22: NewUDPStream fails with the tunnel-pick error exactly when
    the selector returns no tunnel or not one per remote, and otherwise
    with the resolver's error; when it succeeds the stream is well formed
    and live, nothing is buffered or queued, no latch is set, no deadline
    or clean timer is armed, the connection counter is one higher and the
    maximum follows it. *)
Theorem NewUDPStream_establishes (id : list byte) (passive : bool)
    (eps : list (list byte)) (pick : list (list byte) -> list UDPTunnel)
    (counters : Snmp) (maxConn : Z) :
  len id = uuid_Size ->
  match NewUDPStream id passive eps pick counters maxConn with
  | inl (s, c, m) =>
      stream_ok s /\ live s /\
      uuid s = id /\ accepted s = passive /\
      tunnels s = pick eps /\ resolve_all eps = Some (remotes s) /\
      kcp s = ReserveBytes (NewKCP 1) uuid_Size /\
      bufptr s = [] /\ msgss s = [] /\ chClean s = None /\
      rd s = 0 /\ wd s = 0 /\ parallelExpire s = 0 /\
      closeOnce s = false /\ sendFinOnce s = false /\ rstOnce s = false /\
      recvSynOnce s = false /\ recvFinOnce s = false /\
      CurrEstab c = uint64 (CurrEstab counters + 1) /\
      BytesSent c = BytesSent counters /\
      BytesReceived c = BytesReceived counters /\
      m = Z.max maxConn (CurrEstab c)
  | inr e =>
      (e = errTunnelPick /\
       (pick eps = [] \/ len (pick eps) <> len eps)) \/
      (e = errResolve /\ len (pick eps) = len eps /\ resolve_all eps = None)
  end.
Proof.
  intros Hid. unfold NewUDPStream.
  destruct (Z.eqb_spec (len (pick eps)) 0) as [Hz|Hnz]; cbn [orb].
  - left. split; [reflexivity|]. left.
    destruct (pick eps); [reflexivity|].
    rewrite len_cons in Hz. pose proof (len_nonneg l). lia.
  - destruct (Z.eqb_spec (len (pick eps)) (len eps)) as [He|Hne]; cbn [negb].
    + destruct (resolve_all eps) as [addrs|] eqn:Er.
      * pose proof (resolve_all_length _ _ Er) as Hl.
        assert (Hla : len addrs = len eps) by (unfold len; rewrite Hl; reflexivity).
        pose proof (len_nonneg (pick eps)).
        unfold stream_ok, live. st.
        repeat split; try reflexivity; try lia.
        -- rewrite len_nil. lia.
        -- destruct (Z.ltb_spec maxConn (uint64 (CurrEstab counters + 1))); lia.
      * right. repeat split; assumption.
    + left. split; [reflexivity|]. right. exact Hne.
Qed.

(** ** The updater *)


(** One turn of the updater's loop. *)
Lemma update_turn (t : tick) (rest : list tick) (w : World) :
  update (t :: rest) w
  = match
      wake_select (update_cases (chClean (strm w)) (tk_hrt t) (tk_flush t))
        (tk_wake t) w
    with
    | None => update rest (wake_apply (tk_wake t) w)
    | Some (ev, w1) =>
        match update_serve ev w1 with
        | Ret (Some exit) w2 => Ret exit w2
        | Ret None w2 => update rest w2
        | Blocked w2 => Blocked w2
        | Panicked => Panicked
        | Diverged => Diverged
        end
    end.
Proof. reflexivity. Qed.


(** X24: when the flush timer ticks and the engine's state is the
    dead-link mark, the updater resets the stream (the reset signal is
    closed, the engine's buffers are released) and returns at once:
    pending queues are not handed over, the clean callback is not called,
    later ticks are never served, and the next Read returns
    unexpected-EOF. *)
Theorem update_dead_link (w : World) (k : wake) (rest : list tick) :
  let s1 := wk_env k (strm w) in
  timer_ready (chClean (strm w)) (wk_now k) = false ->
  kcp_state (kcp s1) = 4294967295 ->
  rstOnce s1 = false -> chRst s1 = false ->
  exists w2,
    update (mkTick k false true :: rest) w = Ret DeadLink w2 /\
    chRst (strm w2) = true /\
    kcp (strm w2) = ReleaseTX (kcp s1) /\
    msgss (strm w2) = msgss s1 /\
    wire w2 = wire w /\
    (chClose s1 = false -> chRecvFinEvent s1 = false ->
     forall b, exists w3,
       Read b w2 = Ret (0, Some ErrUnexpectedEOF, b) w3).
Proof.
  intros s1 Hclean Hdead Ho Hr.
  rewrite update_turn. unfold wake_select, update_cases. cbv zeta. stx.
  change (strm (wake_apply k w)) with s1.
  change (clock (wake_apply k w)) with (wk_now k).
  rewrite Hclean. cbn [ready filter map fst snd].
  pose proof (pop_pick_frame (wake_apply k w)) as Hfr.
  destruct (pop_pick (wake_apply k w)) as [p w2] eqn:Ep. cbn [snd] in Hfr.
  destruct Hfr as (F1 & F2 & F3 & F4 & F5).
  change (strm (wake_apply k w)) with s1 in F1.
  change (wire (wake_apply k w)) with (wire w) in F4.
  rewrite choose_one. unfold update_serve.
  unfold bind at 1, get at 1. rewrite F1, Hdead, Z.eqb_refl.
  unfold reset, once_Do, close. mrun. rewrite ?F1, Ho. cbn [negb]. mrun.
  rewrite ?F1, Hr. mrun. rewrite ?F1.
  eexists. split; [reflexivity|]. st. rewrite F4.
  repeat split.
  intros Hc Hf b. eexists. apply Read_at_signal.
  unfold read_entry_cases. st. rewrite Hc, Hf. reflexivity.
Qed.

Lemma write_blind_live (s s' : UDPStream) :
  (forall (B : Type) (f : UDPStream -> B), write_blind f -> f s' = f s) ->
  live s -> live s'.
Proof.
  intros Hk (H1 & H2 & H3 & H4). unfold live.
  rewrite (Hk _ chClose), (Hk _ chRst), (Hk _ chSendFinEvent),
    (Hk _ chRecvFinEvent) by (intros x; repeat split; reflexivity).
  repeat split; assumption.
Qed.

(** X25: a tick of the heartbeat ticker on a live stream with room in
    the window hands the engine the one-byte segment [HRT], flushed like
    any write, and the updater goes on with the ticks that follow. *)
Theorem update_heartbeat (w : World) (k : wake) (rest : list tick) :
  (forall k seg, kcp_mss (Send k seg) = kcp_mss k) ->
  0 <= IKCP_OVERHEAD -> engine_ok ->
  let s1 := wk_env k (strm w) in
  timer_ready (chClean (strm w)) (wk_now k) = false ->
  stream_ok s1 -> live s1 ->
  window_open s1 = true ->
  2 <= kcp_mss (kcp s1) < 2 ^ 32 ->
  kcp_mss (kcp s1) <= len (sendbuf s1) ->
  exists w2,
    update (mkTick k true false :: rest) w = update rest w2 /\
    (let k1 := Send (kcp s1) [HRT] in
     let full := (kcp_snd_wnd k1 <=? WaitSnd k1)
                 || (kcp_rmt_wnd k1 <=? WaitSnd k1) in
     kcp (strm w2)
     = (if full || negb (writeDelay s1)
        then fst (fst (kcp_flush k1 (wk_now k) false)) else k1)) /\
    live (strm w2) /\ stream_ok (strm w2) /\
    clock w2 = wk_now k.
Proof.
  intros Hsend H0 He s1 Hclean Hs Hl Ho Hm Hb.
  rewrite update_turn. unfold wake_select, update_cases. cbv zeta. stx.
  change (strm (wake_apply k w)) with s1.
  change (clock (wake_apply k w)) with (wk_now k).
  rewrite Hclean. cbn [ready filter map fst snd].
  pose proof (pop_pick_frame (wake_apply k w)) as Hfr.
  destruct (pop_pick (wake_apply k w)) as [p w1] eqn:Ep. cbn [snd] in Hfr.
  destruct Hfr as (F1 & F2 & F3 & F4 & F5).
  change (strm (wake_apply k w)) with s1 in F1.
  change (clock (wake_apply k w)) with (wk_now k) in F2.
  rewrite choose_one. unfold update_serve.
  unfold bind at 1, get at 1. unfold bind at 1. unfold WriteFlag.
  destruct (WriteBuffer_open HRT [] w1 Hsend H0 He)
    as (w2 & Hw & Hk & Hs2 & Hblind & T1 & T2 & T3 & _);
    rewrite ?F1; try assumption.
  rewrite Hw. unfold ret. exists w2. split; [reflexivity|].
  rewrite F1, F2 in Hk. cbn [length frames] in Hk.
  change (len (@nil byte)) with 0 in Hk.
  destruct (Z.ltb_spec 0 (kcp_mss (kcp s1))); [|lia].
  cbn [fold_left] in Hk. split; [exact (proj1 Hk)|].
  split; [|split; [exact Hs2|lia]].
  apply (write_blind_live s1); [|exact Hl].
  intros B f Hf. rewrite <- F1. apply Hblind. exact Hf.
Qed.

(** X26: a tick of the flush timer on a link that is not dead flushes
    the engine at the time of the tick, leaves no queue behind, does not
    reset the stream, and the updater goes on with the ticks that
    follow. *)
Theorem update_flush_tick (w : World) (k : wake) (rest : list tick) :
  0 <= IKCP_OVERHEAD -> engine_ok ->
  let s1 := wk_env k (strm w) in
  timer_ready (chClean (strm w)) (wk_now k) = false ->
  stream_ok s1 ->
  kcp_state (kcp s1) <> 4294967295 ->
  exists w2,
    update (mkTick k false true :: rest) w = update rest w2 /\
    kcp (strm w2) = fst (fst (kcp_flush (kcp s1) (wk_now k) false)) /\
    msgss (strm w2) = [] /\
    chRst (strm w2) = chRst s1 /\
    stream_ok (strm w2).
Proof.
  intros H0 He s1 Hclean Hs Hstate.
  rewrite update_turn. unfold wake_select, update_cases. cbv zeta. stx.
  change (strm (wake_apply k w)) with s1.
  change (clock (wake_apply k w)) with (wk_now k).
  rewrite Hclean. cbn [ready filter map fst snd].
  pose proof (pop_pick_frame (wake_apply k w)) as Hfr.
  destruct (pop_pick (wake_apply k w)) as [p w1] eqn:Ep. cbn [snd] in Hfr.
  destruct Hfr as (F1 & F2 & F3 & F4 & F5).
  change (strm (wake_apply k w)) with s1 in F1.
  change (clock (wake_apply k w)) with (wk_now k) in F2.
  rewrite choose_one. unfold update_serve.
  unfold bind at 1, get at 1. rewrite F1.
  destruct (Z.eqb_spec (kcp_state (kcp s1)) 4294967295); [contradiction|].
  assert (Hs1 : stream_ok (strm w1)) by (rewrite F1; exact Hs).
  destruct (flush_run true w1 H0 He Hs1)
    as (iv & wa & w2 & Ha & Hf & Hm & _ & _ & _ & _ & _).
  destruct (flush_ok true w1 H0 He Hs1) as (iv' & w2' & Hf' & Hs2).
  rewrite Hf in Hf'. inversion Hf'; subst iv' w2'.
  destruct (blind_flush_true kcp flush_blind_kcp w1 iv w2 Hf) as (Hk & _).
  assert (Hr : chRst (strm w2) = chRst (strm w1)).
  { apply (keeps_flush chRst) with (kcpFlush := true) (a := iv) (w := w1).
    - intros x; repeat split; reflexivity.
    - exact Hf. }
  unfold bind at 1. rewrite Hf. unfold ret. exists w2.
  split; [reflexivity|]. cbn [kcp set_kcp] in Hk. rewrite F1, F2 in Hk.
  rewrite F1 in Hr.
  split; [exact Hk|]. split; [exact Hm|]. split; [exact Hr|exact Hs2].
Qed.

(** ** Input *)

(** X27: [input] of a datagram of at least 16 bytes gives the engine
    the bytes behind the UUID, counts one packet and the datagram's
    length, counts an input error when the engine returns a code other
    than zero, raises the read event when a message is assembled
    afterwards and the dial event when the stream is not accepted and the
    engine's [snd_una] is 1, never lowers either, and leaves no queue
    behind and the stream well formed. *)
Theorem input_events (ackNoDelay : bool) (data : list byte)
    (counters : InSnmp) (w : World) :
  0 <= IKCP_OVERHEAD -> engine_ok ->
  stream_ok (strm w) ->
  uuid_Size <= len data ->
  let r := Input (kcp (strm w)) (skipn (Z.to_nat uuid_Size) data)
             true ackNoDelay in
  exists c w',
    input ackNoDelay data counters w = Ret c w' /\
    InPkts c = uint64 (InPkts counters + 1) /\
    InBytes c = uint64 (InBytes counters + uint64 (len data)) /\
    KCPInErrors c
    = (if snd r =? 0 then KCPInErrors counters
       else uint64 (KCPInErrors counters + 1)) /\
    chReadEvent (strm w')
    = chReadEvent (strm w) || (0 <? PeekSize (fst r)) /\
    chDialEvent (strm w')
    = chDialEvent (strm w)
      || (negb (accepted (strm w)) && (kcp_snd_una (fst r) =? 1)) /\
    msgss (strm w') = [] /\
    stream_ok (strm w').
Proof.
  intros H0 He Hs Hlen r. unfold input.
  unfold bind at 1. rewrite slice_from_ok by (unfold uuid_Size in *; lia).
  unfold must at 1, ret at 1. unfold bind at 1, get at 1. fold r.
  destruct r as [k1 code] eqn:Er. cbn [fst snd].
  unfold bind at 1, modify at 1. unfold bind at 1, get at 1. st.
  unfold bind at 1.
  set (w1 := with_strm (set_kcp k1 (strm w)) w).
  assert (Hread : exists w2,
            (if 0 <? PeekSize k1 then notifyReadEvent else skip) w1
            = Ret tt w2 /\
            strm w2 = set_chReadEvent
                        (chReadEvent (strm w) || (0 <? PeekSize k1))
                        (strm w1)).
  { destruct (0 <? PeekSize k1); eexists; (split; [reflexivity|]).
    - rewrite orb_true_r. reflexivity.
    - rewrite orb_false_r. unfold w1. st. destruct (strm w); reflexivity. }
  destruct Hread as (w2 & -> & Hs2).
  unfold bind at 1.
  assert (Hdial : exists w3,
            (if negb (accepted (strm w)) && (kcp_snd_una k1 =? 1)
             then notifyDialEvent else skip) w2
            = Ret tt w3 /\
            strm w3 = set_chDialEvent
                        (chDialEvent (strm w)
                         || (negb (accepted (strm w))
                             && (kcp_snd_una k1 =? 1)))
                        (strm w2)).
  { destruct (negb (accepted (strm w)) && (kcp_snd_una k1 =? 1));
      eexists; (split; [reflexivity|]).
    - rewrite orb_true_r. reflexivity.
    - rewrite orb_false_r. rewrite Hs2. unfold w1. st. reflexivity. }
  destruct Hdial as (w3 & -> & Hs3).
  unfold bind at 1, get at 1. unfold bind at 1.
  assert (Hok3 : stream_ok (strm w3)).
  { rewrite Hs3, Hs2. unfold w1, stream_ok in *. st. exact Hs. }
  match goal with
  | |- context [flush ?c w3] => set (kcpFlush := c)
  end.
  destruct (flush_run kcpFlush w3 H0 He Hok3)
    as (iv & wa & w4 & _ & Hf & Hm & _ & _ & _ & _ & _).
  destruct (flush_ok kcpFlush w3 H0 He Hok3) as (iv' & w4' & Hf' & Hok4).
  rewrite Hf in Hf'. inversion Hf'; subst iv' w4'.
  rewrite Hf. unfold ret.
  assert (Hkeep : forall (B : Type) (f : UDPStream -> B),
            write_blind f -> f (strm w4) = f (strm w3)).
  { intros B f Hb. exact (keeps_flush f Hb kcpFlush w3 iv w4 Hf). }
  eexists _, _. split; [reflexivity|]. st.
  split; [reflexivity|]. split; [reflexivity|].
  split.
  { destruct (code =? 0); reflexivity. }
  split.
  { rewrite (Hkeep _ chReadEvent) by (intros x; repeat split; reflexivity).
    rewrite Hs3, Hs2. reflexivity. }
  split.
  { rewrite (Hkeep _ chDialEvent) by (intros x; repeat split; reflexivity).
    rewrite Hs3. reflexivity. }
  split; assumption.
Qed.

(** ** Dial on the active side *)


(** ** What Close and CloseWrite send *)

(** X29: on a live stream with room in the window the first Close
    hands the engine the one-byte segment [RST], closes the closed signal,
    arms the clean timer five seconds ahead and lowers the connection
    counter by one; the first CloseWrite hands the engine the one-byte
    segment [FIN] and closes the send-FIN signal only. *)
Theorem Close_sends_rst (w : World) :
  (forall k seg, kcp_mss (Send k seg) = kcp_mss k) ->
  0 <= IKCP_OVERHEAD -> engine_ok ->
  stream_ok (strm w) -> live (strm w) ->
  window_open (strm w) = true ->
  2 <= kcp_mss (kcp (strm w)) < 2 ^ 32 ->
  kcp_mss (kcp (strm w)) <= len (sendbuf (strm w)) ->
  let sent (flag : byte) :=
    let k1 := Send (kcp (strm w)) [flag] in
    if (kcp_snd_wnd k1 <=? WaitSnd k1) || (kcp_rmt_wnd k1 <=? WaitSnd k1)
       || negb (writeDelay (strm w))
    then fst (fst (kcp_flush k1 (clock w) false)) else k1 in
  (closeOnce (strm w) = false ->
   exists w1,
     Close w = Ret None w1 /\
     kcp (strm w1) = sent RST /\
     chClose (strm w1) = true /\
     chClean (strm w1) = Some (clock w + 5 * second) /\
     CurrEstab (DefaultSnmp w1)
     = uint64 (CurrEstab (DefaultSnmp w) + (2 ^ 64 - 1))) /\
  (sendFinOnce (strm w) = false ->
   exists w1,
     CloseWrite w = Ret None w1 /\
     kcp (strm w1) = sent FIN /\
     chSendFinEvent (strm w1) = true /\
     chClose (strm w1) = false).
Proof.
  intros Hsend H0 He Hs Hl Ho Hm Hb sent.
  assert (Hone : forall flag, frames 1 flag [] (kcp_mss (kcp (strm w)))
                              = [[flag]]).
  { intros flag. cbn [frames]. change (len (@nil byte)) with 0.
    destruct (Z.ltb_spec 0 (kcp_mss (kcp (strm w)))); [reflexivity|lia]. }
  pose proof Hl as (Hc & Hr & Hsf & Hrf).
  split; intros Honce.
  - destruct (WriteBuffer_open RST []
                (with_strm (set_closeOnce true (strm w)) w) Hsend H0 He Hs
                ltac:(unfold live; st; tauto) Ho Hm Hb)
      as (w' & HW & Hk & _ & Hblind & T1 & _ & _ & Hsn).
    assert (Hc' : chClose (strm w') = false).
    { rewrite (Hblind _ chClose) by (intros x; repeat split; reflexivity).
      exact Hc. }
    rewrite (Close_first w _ w' Honce HW Hc').
    eexists. split; [reflexivity|]. unfold closed_from. st.
    cbn [length] in Hk. rewrite Hone in Hk. cbn [fold_left] in Hk.
    split; [exact (proj1 Hk)|]. split; [reflexivity|].
    split; [rewrite T1; reflexivity|]. rewrite Hsn. reflexivity.
  - destruct (WriteBuffer_open FIN []
                (with_strm (set_sendFinOnce true (strm w)) w) Hsend H0 He Hs
                ltac:(unfold live; st; tauto) Ho Hm Hb)
      as (w' & HW & Hk & _ & Hblind & T1 & _ & _ & Hsn).
    assert (Hf' : chSendFinEvent (strm w') = false).
    { rewrite (Hblind _ chSendFinEvent)
        by (intros x; repeat split; reflexivity).
      exact Hsf. }
    rewrite (CloseWrite_first w _ w' Honce HW Hf').
    eexists. split; [reflexivity|]. st.
    cbn [length] in Hk. rewrite Hone in Hk. cbn [fold_left] in Hk.
    split; [exact (proj1 Hk)|]. split; [reflexivity|].
    rewrite (Hblind _ chClose) by (intros x; repeat split; reflexivity).
    exact Hc.
Qed.

(** ** The write delay *)

(** X30: after [SetWriteDelay(true)] a write that leaves room in both
    windows only queues its segments in the engine: nothing is flushed,
    the queues and the wire are unchanged. *)
Theorem Write_delay_defers_flush (flag : byte) (b : list byte) (w : World) :
  (forall k seg, kcp_mss (Send k seg) = kcp_mss k) ->
  0 <= IKCP_OVERHEAD -> engine_ok ->
  stream_ok (strm w) -> live (strm w) ->
  window_open (strm w) = true ->
  2 <= kcp_mss (kcp (strm w)) < 2 ^ 32 ->
  kcp_mss (kcp (strm w)) <= len (sendbuf (strm w)) ->
  let k1 := fold_left Send
              (frames (S (length b)) flag b (kcp_mss (kcp (strm w))))
              (kcp (strm w)) in
  WaitSnd k1 < kcp_snd_wnd k1 -> WaitSnd k1 < kcp_rmt_wnd k1 ->
  exists w',
    bind (SetWriteDelay true) (fun _ => WriteBuffer flag b) w
    = Ret (tail_len (len b) (kcp_mss (kcp (strm w))), None) w' /\
    kcp (strm w') = k1 /\
    msgss (strm w') = msgss (strm w) /\
    wire w' = wire w /\
    writeDelay (strm w') = true.
Proof.
  intros Hsend H0 He Hs Hl Ho Hm Hb k1 Hs1 Hr1.
  unfold bind, SetWriteDelay, modify.
  destruct (WriteBuffer_open flag b
              (with_strm (set_writeDelay true (strm w)) w) Hsend H0 He
              ltac:(unfold stream_ok in *; stx; exact Hs)
              ltac:(unfold live in *; stx; exact Hl) Ho Hm Hb)
    as (w' & HW & Hk & _ & Hblind & _).
  stx. fold k1 in Hk. cbv zeta in Hk.
  destruct (Z.leb_spec (kcp_snd_wnd k1) (WaitSnd k1)); [lia|].
  destruct (Z.leb_spec (kcp_rmt_wnd k1) (WaitSnd k1)); [lia|].
  cbn [orb negb] in Hk. destruct Hk as (Hk & Hrest).
  destruct (Hrest eq_refl) as (Hq & Hwire & _).
  exists w'. split; [exact HW|]. split; [exact Hk|].
  split; [exact Hq|]. split; [exact Hwire|].
  rewrite (Hblind _ writeDelay) by (intros x; repeat split; reflexivity).
  reflexivity.
Qed.

End Further.

(** * Runs of the model *)

Module Runs.

Import Example.

#[local] Existing Instance queue_arq.
#[local] Existing Instance plain_net.

(** C1 on the code: a buffer of 12 bytes with [mss] 10 goes out as two
    segments carrying 9 and 3 of its bytes, yet Write returns 3, and 3 is
    what is added to the bytes-sent counter. *)
Example Write_returns_tail_length :
  exists w',
    Write b12 w_active = Ret (3, None) w' /\
    q_snd (kcp (strm w'))
    = [PSH :: firstn 9 b12; PSH :: skipn 9 b12] /\
    BytesSent (DefaultSnmp w') = 3.
Proof.
  eexists. split; [vm_compute; reflexivity|]. split; reflexivity.
Qed.

(** C7 on the code: a writer parked on a full window, woken when the send
    side has been closed, returns EOF and not closed-pipe. *)
Example Write_parked_then_half_closed :
  exists w', Write b12 w_full = Ret (0, Some EOF) w'.
Proof.
  eexists. vm_compute. reflexivity.
Qed.

(** The same stream written to after the close fails with closed-pipe. *)
Example Write_half_closed_at_entry :
  exists w', Write b12 w_half_closed = Ret (0, Some ErrClosedPipe) w'.
Proof.
  eexists. vm_compute. reflexivity.
Qed.

(** C8 on the code: a SYN with an empty payload is not refused; it reaches
    the selector and the resolver as the single endpoint [""] and replaces
    the arrays. *)
Example recvSyn_accepts_empty_payload :
  exists w',
    recvSyn [] w_passive = Ret (0, None) w' /\
    tunnels (strm w') = [0%nat] /\
    remotes (strm w') = [[]].
Proof.
  eexists. split; [vm_compute; reflexivity|]. split; reflexivity.
Qed.

(** C2 as stated fails: the Read that consumes a message tagged '9'
    returns the stream-flag error, but the reset signal is still open, the
    reset once has not run, and the engine still holds its segment in
    flight, which a reset would have released; the payload "ab" is left
    behind the read cursor.  So no outcome of that Read has the reset
    signal closed. *)
Example Read_unknown_tag_does_not_reset :
  (exists w',
     Read buf8 w_tag9 = Ret (0, Some errStreamFlag, buf8) w' /\
     chRst (strm w') = false /\
     rstOnce (strm w') = false /\
     q_snd (kcp (strm w')) = [[PSH; x61]] /\
     q_snd (q_ReleaseTX (kcp (strm w'))) = [] /\
     bufptr (strm w') = [x61; x62]) /\
  ~ (exists r w', Read buf8 w_tag9 = Ret r w' /\ chRst (strm w') = true).
Proof.
  split.
  - eexists. split; [vm_compute; reflexivity|]. repeat split.
  - intros (r & w' & H & Hr).
    assert (E : exists w1, Read buf8 w_tag9 = Ret (0, Some errStreamFlag, buf8) w1
                           /\ chRst (strm w1) = false)
      by (eexists; split; [vm_compute; reflexivity | reflexivity]).
    destruct E as (w1 & H1 & Hr1). rewrite H1 in H. inversion H; subst.
    rewrite Hr1 in Hr. discriminate.
Qed.

(** The policy at work on a stream with two tunnels: a segment sent five times
    opens the parallel window for a minute; inside the window a segment
    sent once still goes to both tunnels; with no window it goes to one. *)
Example parallelTun_runs :
  (exists w', parallelTun 5 w_active = Ret 2 w' /\
              parallelExpire (strm w') = t0 + 60 * second) /\
  (exists w', parallelTun 1 w_parallel = Ret 2 w') /\
  (exists w', parallelTun 1 w_active = Ret 1 w').
Proof.
  repeat split; eexists; try split; vm_compute; reflexivity.
Qed.

(** The example engine calls back with whole buffers that fit the pool. *)
Lemma queue_engine_ok : engine_ok.
Proof.
  intros k now ackOnly. cbn [kcp_flush queue_arq q_flush fst snd].
  apply Forall_forall. intros e He. apply in_map_iff in He.
  destruct He as (seg & <- & Hin). apply filter_In in Hin.
  destruct Hin as [_ Hfit]. unfold q_fits in Hfit.
  apply Z.leb_le in Hfit. unfold emission_ok, q_datagram. cbn [fst snd].
  rewrite len_app, len_repeat. cbn [xmitBuf plain_net].
  rewrite len_repeat. unfold q_limit, q_overhead, uuid_Size in *.
  pose proof (len_nonneg seg). lia.
Qed.

Lemma stream0_ok (accepted : bool) : stream_ok (stream0 accepted).
Proof.
  unfold stream_ok. vm_compute. repeat split; discriminate.
Qed.

Lemma Read_unknown_tag_witness :
  exists w',
    Read buf8 w_tag9 = Ret (0, Some errStreamFlag, buf8) w' /\
    chRst (strm w') = false /\
    rstOnce (strm w') = rstOnce (strm w_tag9) /\
    kcp (strm w') = mkQueueKCP 10 32 32 [[PSH; x61]] 1 1 [] /\
    bufptr (strm w') = [x61; x62].
Proof.
  apply (Read_unknown_tag w_tag9 buf8 x39 [x61; x62]
           (mkQueueKCP 10 32 32 [[PSH; x61]] 1 1 []));
    reflexivity.
Defined.

(** C6 on a fresh passive stream with two tunnels: a first SYN that names
    one endpoint leaves one tunnel and one remote, and two more SYNs, one
    naming two endpoints and one empty, change nothing. *)
Lemma recvSyn_idempotent_witness :
  exists w1,
    recvSyn remote2 w_passive = Ret (13, None) w1 /\
    tunnels (strm w1) = [0%nat] /\
    remotes (strm w1) = [remote2] /\
    recvSyn_each [Join [remote1; remote2] space; []] w1
    = Ret [(27, None); (0, None)] w1.
Proof.
  destruct (recvSyn_idempotent w_passive remote2
              [Join [remote1; remote2] space; []])
    as (err & w1 & H1 & Hfirst & _ & Hlater).
  destruct (Hfirst eq_refl) as (Hok & _).
  destruct (Hok [remote2] eq_refl eq_refl) as (He & Ht & Hr).
  exists w1. rewrite He in H1.
  split; [exact H1|]. split; [exact Ht|]. split; [exact Hr|exact Hlater].
Defined.

Lemma Dial_accepted_witness :
  accepted (strm w_passive) = true /\
  Dial [remote1; remote2] (5 * second) w_passive = Ret None w_passive.
Proof.
  split; [reflexivity|]. apply Dial_accepted. reflexivity.
Defined.

Lemma Close_CloseWrite_idempotent_witness :
  (exists w1,
     Close w_active = Ret None w1 /\
     times 3 Close w_active
     = Ret [None; Some ErrClosedPipe; Some ErrClosedPipe] w1) /\
  (exists w1,
     CloseWrite w_active = Ret None w1 /\
     times 3 CloseWrite w_active = Ret [None; None; None] w1) /\
  (exists w1,
     Close w_full_then_drained = Ret None w1 /\
     times 3 Close w_full_then_drained
     = Ret [None; Some ErrClosedPipe; Some ErrClosedPipe] w1).
Proof.
  split; [|split].
  - apply (proj1 Close_CloseWrite_idempotent w_active 2%nat);
      try reflexivity.
    + vm_compute. discriminate.
    + exact queue_engine_ok.
    + exact (stream0_ok false).
    + vm_compute. discriminate.
    + vm_compute. discriminate.
  - apply (proj1 (proj2 Close_CloseWrite_idempotent) w_active 2%nat);
      try reflexivity.
    + vm_compute. discriminate.
    + exact queue_engine_ok.
    + exact (stream0_ok false).
    + vm_compute. discriminate.
    + vm_compute. discriminate.
  - refine (proj1 (proj2 (proj2 Close_CloseWrite_idempotent))
              w_full_then_drained _ _ 2%nat eq_refl eq_refl _ _ _).
    + repeat constructor.
    + repeat constructor.
    + vm_compute. reflexivity.
Defined.

Lemma Close_after_CloseWrite_witness :
  exists e w0 w1,
    WriteFlag RST []
      (with_strm (set_closeOnce true (strm w_half_closed)) w_half_closed)
    = Ret (0, Some e) w0 /\
    (chRst (strm w_half_closed) = false -> e = ErrClosedPipe) /\
    strm w0 = set_closeOnce true (strm w_half_closed) /\
    Close w_half_closed = Ret None w1 /\
    strm w1 = set_chClean (Some (clock w_half_closed + 5 * second))
                (set_chClose true
                   (set_closeOnce true (strm w_half_closed))) /\
    kcp (strm w1) = kcp (strm w_half_closed) /\
    msgss (strm w1) = msgss (strm w_half_closed) /\
    wire w1 = wire w_half_closed.
Proof.
  apply (Close_after_CloseWrite w_half_closed); reflexivity.
Defined.

Lemma output_stamps_witness :
  exists k w0 w',
    parallelTun 1 w_parallel = Ret k w0 /\
    output segment 1 w_parallel = Ret tt w' /\
    forall i, 0 <= i ->
      (i < k ->
       exists d a,
         index i (msgss (strm w'))
         = Some (queue_at i (msgss (strm w_parallel)) ++ [mkMessage [d] a]) /\
         index i (remotes (strm w_parallel)) = Some a /\
         firstn (Z.to_nat uuid_Size) d = uuid (strm w_parallel) /\
         skipn (Z.to_nat uuid_Size) d = skipn (Z.to_nat uuid_Size) segment /\
         len d = len segment) /\
      (k <= i ->
       index i (msgss (strm w')) = index i (msgss (strm w_parallel))).
Proof.
  apply (output_stamps w_parallel segment 1).
  - reflexivity.
  - vm_compute. split; discriminate.
  - vm_compute. discriminate.
  - vm_compute. discriminate.
Defined.

(** The run behind the witness above: one copy per tunnel. *)
Example output_two_copies :
  exists w',
    output segment 1 w_parallel = Ret tt w' /\
    msgss (strm w')
    = [[mkMessage [uuid0 ++ repeat xff 24 ++ [PSH; x61]] remote1];
       [mkMessage [uuid0 ++ repeat xff 24 ++ [PSH; x61]] remote2]].
Proof.
  eexists. split; [vm_compute; reflexivity|]. reflexivity.
Qed.

End Runs.

(** * More runs *)

(** The theorems of the section [Further] at concrete streams of the
    queue engine. *)
Module MoreRuns.

Import Example.

#[local] Existing Instance queue_arq.
#[local] Existing Instance plain_net.

Lemma live_holding (msgs : list (list byte)) : live (strm (w_holding msgs)).
Proof. repeat split. Qed.

Lemma Read_after_terminal_witness :
  exists e w',
    Read buf8 w_closed = Ret (0, Some e, buf8) w' /\
    In (true, e) (read_entry_cases (strm w_closed)) /\
    strm w' = strm w_closed /\ wire w' = wire w_closed /\
    DefaultSnmp w' = DefaultSnmp w_closed.
Proof. apply (Read_after_terminal buf8 w_closed). reflexivity. Defined.

Lemma Read_drains_cursor_witness :
  exists w',
    Read buf3 w_cursor = Ret (3, None, [x61; x62; x63]) w' /\
    bufptr (strm w') = [x64; x65] /\
    BytesReceived (DefaultSnmp w') = 3.
Proof.
  destruct (Read_drains_cursor buf3 w_cursor) as (w' & H & Hb & _ & Hc & _).
  - repeat split.
  - discriminate.
  - exists w'. split; [exact H|]. split; [exact Hb|exact Hc].
Defined.

Lemma Read_delivers_payload_witness :
  exists w',
    Read buf3 (w_holding [PSH :: abcde]) = Ret (3, None, [x61; x62; x63]) w' /\
    bufptr (strm w') = [x64; x65] /\
    kcp (strm w') = kcp_holding [] /\
    BytesReceived (DefaultSnmp w') = 4.
Proof.
  destruct (Read_delivers_payload buf3 (w_holding [PSH :: abcde]) abcde
              (kcp_holding []))
    as (w' & H & Hb & Hk & Hc & _).
  - apply live_holding.
  - reflexivity.
  - reflexivity.
  - reflexivity.
  - exists w'. repeat split; assumption.
Defined.

Lemma Read_message_in_two_witness :
  exists b1' w1 b2' w2,
    Read buf3 (w_holding [PSH :: abcde]) = Ret (3, None, b1') w1 /\
    Read buf8 w1 = Ret (2, None, b2') w2 /\
    b1' ++ firstn 2 b2' = abcde /\
    bufptr (strm w2) = [] /\
    kcp (strm w2) = kcp_holding [].
Proof.
  apply (Read_message_in_two buf3 buf8 (w_holding [PSH :: abcde]) abcde
           (kcp_holding [])); try reflexivity.
  - apply live_holding.
  - vm_compute. discriminate.
Defined.

Lemma Read_silent_control_witness :
  exists w',
    Read buf8 (w_holding [[HRT]]) = Ret (0, None, buf8) w' /\
    bufptr (strm w') = [] /\
    kcp (strm w') = kcp_holding [] /\
    BytesReceived (DefaultSnmp w') = 1.
Proof.
  destruct (Read_silent_control buf8 (w_holding [[HRT]]) HRT []
              (kcp_holding []))
    as (w' & H & Hs & Hc & _).
  - apply live_holding.
  - reflexivity.
  - reflexivity.
  - reflexivity.
  - left. reflexivity.
  - exists w'. split; [exact H|]. rewrite Hs. repeat split. exact Hc.
Defined.

Lemma Read_fin_then_eof_witness :
  exists w1 w2,
    Read buf8 (w_holding [[FIN]]) = Ret (0, Some EOF, buf8) w1 /\
    chRecvFinEvent (strm w1) = true /\
    bufptr (strm w1) = [] /\
    kcp (strm w1) = kcp_holding [] /\
    Read buf3 w1 = Ret (0, Some EOF, buf3) w2 /\
    strm w2 = strm w1.
Proof.
  apply (Read_fin_then_eof buf8 buf3 (w_holding [[FIN]]) [] (kcp_holding []));
    try reflexivity.
  apply live_holding.
Defined.

Lemma Read_rst_resets_witness :
  exists w1 w2 w3,
    Read buf8 (w_holding [[RST]]) = Ret (0, Some ErrUnexpectedEOF, buf8) w1 /\
    chRst (strm w1) = true /\
    kcp (strm w1) = ReleaseTX (kcp_holding []) /\
    Read buf3 w1 = Ret (0, Some ErrUnexpectedEOF, buf3) w2 /\
    strm w2 = strm w1 /\
    WriteBuffer PSH buf3 w1 = Ret (0, Some ErrUnexpectedEOF) w3 /\
    strm w3 = strm w1 /\ wire w3 = wire (w_holding [[RST]]).
Proof.
  apply (Read_rst_resets buf8 buf3 PSH (w_holding [[RST]]) []
           (kcp_holding [])); try reflexivity.
  apply live_holding.
Defined.

Lemma live_stream0 (accepted : bool) : live (stream0 accepted).
Proof. repeat split. Qed.

Lemma idle_stream0 (accepted : bool) : idle (stream0 accepted).
Proof. split; [reflexivity|]. vm_compute. discriminate. Qed.

Lemma Read_times_out_parked_witness :
  Read buf8 (w_read_ahead [tick_at (t0 + 1)])
  = Blocked
      (with_wakes []
         (wake_apply (tick_at (t0 + 1)) (w_read_ahead [tick_at (t0 + 1)]))) /\
  (exists w',
     Read buf8 (w_read_ahead [tick_at (t0 + second)])
     = Ret (0, Some errTimeout, buf8) w' /\
     strm w' = strm (w_read_ahead []) /\ clock w' = t0 + second /\
     wakes w' = []).
Proof.
  assert (Hd : t0 + second <> 0) by (vm_compute; discriminate).
  assert (Hle : t0 <= t0 + second) by (vm_compute; discriminate).
  split.
  - pose proof (Read_times_out_parked buf8 (w_read_ahead [tick_at (t0 + 1)])
                  (tick_at (t0 + 1)) [] (live_stream0 false)
                  (idle_stream0 false) Hd Hle eq_refl (live_stream0 false)
                  eq_refl) as H.
    apply (proj1 H). vm_compute. reflexivity.
  - pose proof (Read_times_out_parked buf8
                  (w_read_ahead [tick_at (t0 + second)])
                  (tick_at (t0 + second)) [] (live_stream0 false)
                  (idle_stream0 false) Hd Hle eq_refl (live_stream0 false)
                  eq_refl) as H.
    destruct (proj2 H) as (w' & HR & Hs & Hc & Hw & _).
    + vm_compute. discriminate.
    + exists w'. split; [exact HR|]. split; [exact Hs|].
      split; [exact Hc|exact Hw].
Defined.

Lemma deadline_passed_at_entry_witness :
  Read buf8 w_read_due = Ret (0, Some errTimeout, buf8) w_read_due /\
  WriteBuffer PSH b12 w_write_due = Ret (0, Some errTimeout) w_write_due.
Proof.
  split.
  - apply (proj1 (deadline_passed_at_entry PSH buf8 w_read_due
                    (live_stream0 false))).
    + split; [reflexivity|]. vm_compute. discriminate.
    + vm_compute. discriminate.
    + reflexivity.
  - apply (proj2 (deadline_passed_at_entry PSH b12 w_write_due
                    (live_stream0 false))).
    + reflexivity.
    + vm_compute. discriminate.
    + reflexivity.
Defined.

Lemma SetReadDeadline_wakes_reader_witness :
  exists w',
    Read buf8 (world_of (stream0 false) [other_SetReadDeadline])
    = Ret (0, Some errTimeout, buf8) w' /\
    rd (strm w') = t0 - second /\ wakes w' = [] /\
    live (strm w') /\ idle (strm w').
Proof.
  destruct (SetReadDeadline_wakes_reader buf8
              (world_of (stream0 false) [other_SetReadDeadline])
              other_SetReadDeadline [] (t0 - second))
    as (w' & H & Hr & Hw & Hl & Hi & _).
  - apply live_stream0.
  - split; [reflexivity|]. vm_compute. discriminate.
  - left. reflexivity.
  - reflexivity.
  - left. intros w0. reflexivity.
  - vm_compute. discriminate.
  - reflexivity.
  - exists w'. repeat split; try assumption; apply Hl || apply Hi.
Defined.

Lemma SetWriteDeadline_wakes_writer_witness :
  exists w',
    WriteBuffer PSH b12 (w_window_full [other_SetWriteDeadline])
    = Ret (0, Some errTimeout) w' /\
    wd (strm w') = t0 - second /\ wakes w' = [] /\
    kcp (strm w') = kcp_full /\ wire w' = [].
Proof.
  destruct (SetWriteDeadline_wakes_writer PSH b12
              (w_window_full [other_SetWriteDeadline])
              other_SetWriteDeadline [] (t0 - second))
    as (w' & H & Hr & Hw & Hl & Hk & Hwire & _).
  - apply live_stream0.
  - reflexivity.
  - left. reflexivity.
  - reflexivity.
  - left. intros w0. reflexivity.
  - vm_compute. discriminate.
  - reflexivity.
  - exists w'. repeat split; assumption.
Defined.

Lemma Write_after_terminal_witness :
  exists e w',
    WriteBuffer PSH b12 w_half_closed = Ret (0, Some e) w' /\
    In (true, e) (write_entry_cases (strm w_half_closed)) /\
    strm w' = strm w_half_closed /\ wire w' = wire w_half_closed /\
    DefaultSnmp w' = DefaultSnmp w_half_closed.
Proof. apply (Write_after_terminal PSH b12 w_half_closed). reflexivity. Defined.

Lemma same_mss (k : QueueKCP) (seg : list byte) :
  kcp_mss (Send k seg) = kcp_mss k.
Proof. reflexivity. Qed.

Lemma overhead_nonneg : 0 <= IKCP_OVERHEAD.
Proof. vm_compute. discriminate. Qed.

Lemma mss_fits :
  2 <= kcp_mss (kcp (stream0 false)) < 2 ^ 32 /\
  kcp_mss (kcp (stream0 false)) <= len (sendbuf (stream0 false)).
Proof. repeat split; vm_compute; (reflexivity || discriminate). Qed.

Lemma Write_submits_frames_witness :
  exists w',
    WriteBuffer PSH b12 w_active = Ret (3, None) w' /\
    kcp (strm w')
    = mkQueueKCP 10 32 32 [PSH :: firstn 9 b12; PSH :: skipn 9 b12] 2 1 [] /\
    BytesSent (DefaultSnmp w') = 3.
Proof.
  destruct (Write_submits_frames PSH b12 w_active same_mss overhead_nonneg
              Runs.queue_engine_ok (Runs.stream0_ok false) (live_stream0 false)
              eq_refl (proj1 mss_fits) (proj2 mss_fits))
    as (w' & HW & (Hk & _) & Hs).
  exists w'. split; [exact HW|]. split; [exact Hk|exact Hs].
Defined.

Lemma frames_cover_witness :
  frames 13 PSH b12 10 = [PSH :: firstn 9 b12; PSH :: skipn 9 b12] /\
  (let segs := frames 13 PSH b12 10 in
   segs <> [] /\
   Forall (fun seg => exists p, seg = PSH :: p /\ len p < 10) segs /\
   Forall (fun seg => len seg = 10) (removelast segs) /\
   concat (map (@tl byte) segs) = b12 /\
   len (last segs []) = tail_len 12 10 + 1).
Proof.
  split; [reflexivity|].
  apply (frames_cover PSH b12 10). vm_compute. discriminate.
Defined.

Lemma Write_resumes_when_window_opens_witness :
  exists w',
    WriteBuffer PSH b12 w_full_then_drained = Ret (3, None) w' /\
    kcp (strm w')
    = mkQueueKCP 10 1 32 [PSH :: firstn 9 b12; PSH :: skipn 9 b12] 2 1 [] /\
    wakes w' = [].
Proof.
  destruct (Write_resumes_when_window_opens PSH b12 w_full_then_drained
              (mkWake acknowledged (t0 + second)) [] same_mss overhead_nonneg
              Runs.queue_engine_ok (live_stream0 false) eq_refl eq_refl eq_refl)
    as (w' & HW & Hk & Hw).
  - repeat split.
  - unfold stream_ok. vm_compute. repeat split; discriminate.
  - reflexivity.
  - reflexivity.
  - repeat split; vm_compute; (reflexivity || discriminate).
  - vm_compute. discriminate.
  - exists w'. split; [exact HW|]. split; [exact Hk|exact Hw].
Defined.

Lemma Write_delay_defers_flush_witness :
  exists w',
    bind (SetWriteDelay true) (fun _ => WriteBuffer PSH b12) w_active
    = Ret (3, None) w' /\
    kcp (strm w')
    = mkQueueKCP 10 32 32 [PSH :: firstn 9 b12; PSH :: skipn 9 b12] 0 1 [] /\
    msgss (strm w') = [] /\ wire w' = [] /\ writeDelay (strm w') = true.
Proof.
  apply (Write_delay_defers_flush PSH b12 w_active same_mss overhead_nonneg
           Runs.queue_engine_ok (Runs.stream0_ok false) (live_stream0 false)
           eq_refl (proj1 mss_fits) (proj2 mss_fits)); reflexivity.
Defined.


Lemma Close_sends_rst_witness :
  (exists w1,
     Close w_active = Ret None w1 /\
     kcp (strm w1) = mkQueueKCP 10 32 32 [[RST]] 1 1 [] /\
     chClose (strm w1) = true /\
     chClean (strm w1) = Some (t0 + 5 * second) /\
     CurrEstab (DefaultSnmp w1) = 0) /\
  (exists w1,
     CloseWrite w_active = Ret None w1 /\
     kcp (strm w1) = mkQueueKCP 10 32 32 [[FIN]] 1 1 [] /\
     chSendFinEvent (strm w1) = true /\
     chClose (strm w1) = false).
Proof.
  pose proof (Close_sends_rst w_active same_mss overhead_nonneg
                Runs.queue_engine_ok (Runs.stream0_ok false)
                (live_stream0 false) eq_refl (proj1 mss_fits)
                (proj2 mss_fits)) as H.
  split.
  - exact (proj1 H eq_refl).
  - exact (proj2 H eq_refl).
Defined.

Lemma no_space_remote1 : ~ In space remote1.
Proof.
  intros H. repeat (destruct H as [H|H]; [discriminate H|]). exact H.
Qed.

Lemma no_space_remote2 : ~ In space remote2.
Proof.
  intros H. repeat (destruct H as [H|H]; [discriminate H|]). exact H.
Qed.

Lemma no_space_remotes :
  Forall (fun e => ~ In space e) [remote1; remote2].
Proof.
  constructor; [exact no_space_remote1|].
  constructor; [exact no_space_remote2|constructor].
Qed.

Lemma recvSyn_takes_what_Dial_sends_witness :
  exists w',
    recvSyn (Join [remote1; remote2] space) w_passive = Ret (27, None) w' /\
    tunnels (strm w') = [0%nat; 1%nat] /\
    remotes (strm w') = [remote1; remote2] /\
    len (tunnels (strm w')) = len (remotes (strm w')) /\
    recvSynOnce (strm w') = true.
Proof.
  apply (recvSyn_takes_what_Dial_sends [remote1; remote2] w_passive
           [remote1; remote2]); try reflexivity.
  - discriminate.
  - exact no_space_remotes.
Defined.

Lemma recvSyn_keeps_pairing_witness :
  exists w',
    recvSyn [x61] w_passive = Ret (1, Some errResolve) w' /\
    tunnels (strm w') = [0%nat; 1%nat] /\
    remotes (strm w') = [remote1; remote2] /\
    recvSynOnce (strm w') = true.
Proof.
  destruct (recvSyn_keeps_pairing [x61] w_passive eq_refl)
    as (err & w' & H & _ & _ & Ho & Hkeep & _).
  - vm_compute. discriminate.
  - assert (He : err = Some errResolve).
    { assert (Hc : recvSyn [x61] w_passive
                   = Ret (1, Some errResolve)
                       (with_strm (set_recvSynOnce true (strm w_passive))
                          w_passive)) by reflexivity.
      rewrite Hc in H. inversion H. reflexivity. }
    subst err. destruct (Hkeep ltac:(discriminate)) as (Ht & Hr).
    exists w'. split; [exact H|]. split; [exact Ht|].
    split; [exact Hr|exact Ho].
Defined.

Lemma live_accepting (msgs : list (list byte)) :
  live (strm (w_accepting msgs)).
Proof. repeat split. Qed.

Lemma Accept_first_not_syn_witness :
  exists w',
    Accept 3 w_accepting_behind = Ret (Some errRemoteStream) w' /\
    kcp (strm w') = kcp_holding [] /\
    tunnels (strm w') = [0%nat; 1%nat] /\
    recvSynOnce (strm w') = false /\
    bufptr (strm w') = [x61; x63].
Proof.
  destruct (Accept_first_not_syn 3 w_accepting_behind PSH [x61]
              (kcp_holding []) ltac:(repeat split))
    as (w' & H & Hk & Ht & _ & Ho & Hb & _).
  - vm_compute. split; [reflexivity|discriminate].
  - reflexivity.
  - discriminate.
  - exists w'. split; [exact H|]. split; [exact Hk|].
    split; [exact Ht|]. split; [exact Ho|exact Hb].
Defined.

Lemma Accept_takes_syn_witness :
  exists w',
    Accept 0 (w_accepting [SYN :: Join [remote2; remote1] space])
    = Ret None w' /\
    tunnels (strm w') = [0%nat; 1%nat] /\
    remotes (strm w') = [remote2; remote1] /\
    kcp (strm w') = kcp_holding [] /\
    recvSynOnce (strm w') = true.
Proof.
  apply (Accept_takes_syn 0
           (w_accepting [SYN :: Join [remote2; remote1] space])
           [remote2; remote1] [remote2; remote1] (kcp_holding [])
           (live_accepting _)); try reflexivity.
  - vm_compute. split; [reflexivity|discriminate].
  - discriminate.
  - constructor; [exact no_space_remote2|].
    constructor; [exact no_space_remote1|constructor].
Defined.

Lemma Accept_needs_a_fitting_message_witness :
  Accept 0 w_passive = Ret (Some errRemoteStream) w_passive /\
  Accept 0 w_oversized = Panicked.
Proof.
  split.
  - apply (proj1 (Accept_needs_a_fitting_message 0 w_passive
                    (live_stream0 true))).
    vm_compute. discriminate.
  - apply (proj2 (Accept_needs_a_fitting_message 0 w_oversized
                    ltac:(repeat split))).
    reflexivity.
Defined.

Lemma NewUDPStream_establishes_witness :
  match
    NewUDPStream (host := queue_host 0) uuid0 false [remote1; remote2]
      pick_each snmp0 1
  with
  | inl (s, c, m) =>
      stream_ok s /\ live s /\
      tunnels s = [0%nat; 1%nat] /\ remotes s = [remote1; remote2] /\
      CurrEstab c = 2 /\ m = 2
  | inr _ => False
  end.
Proof.
  pose proof (NewUDPStream_establishes (host := queue_host 0) uuid0 false
                [remote1; remote2] pick_each snmp0 1 eq_refl) as H.
  match type of H with
  | match ?t with _ => _ end => destruct t as [[[s c] m]|e]
  end.
  - destruct H as (Hok & Hl & _ & _ & Ht & Hr & _ & _ & _ & _ & _ & _ & _
                   & _ & _ & _ & _ & _ & Hc & _ & _ & Hm).
    split; [exact Hok|]. split; [exact Hl|]. split; [exact Ht|].
    split; [injection Hr as Hr; symmetry; exact Hr|].
    split; [exact Hc|]. rewrite Hm, Hc. reflexivity.
  - destruct H as [(_ & [Hc|Hc])|(_ & _ & Hc)].
    + discriminate Hc.
    + apply Hc. reflexivity.
    + discriminate Hc.
Defined.


Lemma update_dead_link_witness :
  exists w2,
    update (host := queue_host 0)
      [mkTick (tick_at (t0 + second)) false true;
       mkTick (tick_at (t0 + 2 * second)) true true]
      w_dead
    = Ret DeadLink w2 /\
    chRst (strm w2) = true /\
    wire w2 = [] /\
    (forall b, exists w3, Read b w2 = Ret (0, Some ErrUnexpectedEOF, b) w3).
Proof.
  pose proof (update_dead_link (host := queue_host 0) w_dead
                (tick_at (t0 + second))
                [mkTick (tick_at (t0 + 2 * second)) true true]
                eq_refl eq_refl eq_refl eq_refl)
    as (w2 & HU & Hr & _ & _ & Hw & HR).
  exists w2. split; [exact HU|]. split; [exact Hr|]. split; [exact Hw|].
  exact (HR eq_refl eq_refl).
Defined.

Lemma update_heartbeat_witness :
  exists w2,
    update (host := queue_host 0)
      [mkTick (tick_at (t0 + second)) true false] w_active
    = update (host := queue_host 0) [] w2 /\
    kcp (strm w2) = mkQueueKCP 10 32 32 [[HRT]] 1 1 [] /\
    live (strm w2) /\ clock w2 = t0 + second.
Proof.
  pose proof (update_heartbeat (host := queue_host 0) w_active
                (tick_at (t0 + second)) [] same_mss overhead_nonneg
                Runs.queue_engine_ok eq_refl (Runs.stream0_ok false)
                (live_stream0 false) eq_refl (proj1 mss_fits)
                (proj2 mss_fits))
    as (w2 & HU & Hk & Hl & _ & Hc).
  exists w2. split; [exact HU|]. split; [exact Hk|].
  split; [exact Hl|exact Hc].
Defined.

Lemma update_flush_tick_witness :
  exists w2,
    update (host := queue_host 0)
      [mkTick (tick_at (t0 + second)) false true] w_active
    = update (host := queue_host 0) [] w2 /\
    msgss (strm w2) = [] /\ chRst (strm w2) = false /\
    stream_ok (strm w2).
Proof.
  assert (Hstate : kcp_state (Host := queue_host 0)
                     (kcp (wk_env (tick_at (t0 + second)) (strm w_active)))
                   <> 4294967295) by (vm_compute; discriminate).
  pose proof (update_flush_tick (host := queue_host 0) w_active
                (tick_at (t0 + second)) [] overhead_nonneg
                Runs.queue_engine_ok eq_refl (Runs.stream0_ok false) Hstate)
    as (w2 & HU & _ & Hm & Hr & Hs).
  exists w2. split; [exact HU|]. split; [exact Hm|].
  split; [exact Hr|exact Hs].
Defined.

Lemma input_events_witness :
  exists c w',
    input (host := queue_host 1) false datagram counters0 w_active
    = Ret c w' /\
    InPkts c = 1 /\ InBytes c = 42 /\ KCPInErrors c = 0 /\
    chReadEvent (strm w') = true /\ chDialEvent (strm w') = true /\
    msgss (strm w') = [] /\ stream_ok (strm w').
Proof.
  assert (Hlen : uuid_Size <= len datagram) by (vm_compute; discriminate).
  pose proof (input_events (host := queue_host 1) false datagram counters0
                w_active overhead_nonneg Runs.queue_engine_ok
                (Runs.stream0_ok false) Hlen)
    as (c & w' & HI & H1 & H2 & H3 & H4 & H5 & H6 & H7).
  exists c, w'. split; [exact HI|]. split; [exact H1|]. split; [exact H2|].
  split; [exact H3|]. split; [exact H4|]. split; [exact H5|].
  split; [exact H6|exact H7].
Defined.


End MoreRuns.
